(** * callbench: the timing loop, its measured operations and the command line

    A shallow embedding of [callbench.c].  C integers are [Z] with their
    wrap-around written out, the process environment (the monotonic clock,
    the descriptor table, the mappings, the heap and everything the program
    writes) is an explicit [World] threaded through a small outcome monad,
    and the three [for] loops run on fuel because their 32-bit counters can
    make them spin for ever. *)

From Stdlib Require Import ZArith List String Ascii Bool Lia DecimalString DecimalPos.
Import ListNotations.
Local Open Scope Z_scope.

(** ** Machine integers *)

Definition LONG_MAX : Z := 2 ^ 63 - 1.
Definition UINT_MAX : Z := 2 ^ 32 - 1.
Definition NS_PER_SEC : Z := 1000000000.
Definition US_PER_SEC : Z := 1000000.
Definition TEST_READ_LEN : Z := 65536.
Definition TEST_READ_PATH : string := "/dev/zero".

(** Conversion to [long] (64-bit two's complement). *)
Definition to_long (z : Z) : Z := (z + 2 ^ 63) mod 2 ^ 64 - 2 ^ 63.

(** Conversion to [unsigned long]. *)
Definition to_ulong (z : Z) : Z := z mod 2 ^ 64.

(** Conversion to [unsigned int]. *)
Definition to_uint (z : Z) : Z := z mod 2 ^ 32.

(** Conversion to [int]. *)
Definition to_int (z : Z) : Z := (z + 2 ^ 31) mod 2 ^ 32 - 2 ^ 31.

(** ** The environment *)

Record timespec : Type := mkTimespec { tv_sec : Z; tv_nsec : Z }.

(** The four measured operations, as the values a [bench_impl] pointer takes. *)
Inductive bench_op : Type := TimeSyscallMb | TimeImplicitMb | MmapMb | FileMb.

(** What the process does that an observer can see.  [Invoke] marks the entry
    of a measured operation; the others are the library calls of the source
    with their arguments and results. *)
Inductive event : Type :=
| Invoke (op : bench_op)
| SysOpen (ret : Z)
| SysMmap (fd ret : Z)
| Malloc (ret : Z)
| Memcpy (dst src : Z)
| SysMunmap (addr ret : Z)
| SysRead (fd buf ret : Z)
| SysClose (fd ret : Z)
| Free (ptr : Z)
| Stdout (s : string)
| Stderr (s : string)
| Fflush
| Usleep (usec : Z).

Record World : Type := mkWorld {
  clock_readings : nat -> timespec; (* k-th value CLOCK_MONOTONIC hands out *)
  clock_reads : nat;                (* readings handed out so far *)
  dev_openable : bool;              (* open(TEST_READ_PATH) succeeds *)
  map_allowed : bool;               (* mmap of an open descriptor succeeds *)
  heap_available : bool;            (* malloc succeeds *)
  open_fds : list Z;
  mappings : list Z;
  heap_blocks : list Z;
  trace : list event                (* oldest first *)
}.

Definition set_reads (w : World) (n : nat) : World :=
  mkWorld (clock_readings w) n (dev_openable w) (map_allowed w)
          (heap_available w) (open_fds w) (mappings w) (heap_blocks w) (trace w).

Definition set_fds (w : World) (l : list Z) : World :=
  mkWorld (clock_readings w) (clock_reads w) (dev_openable w) (map_allowed w)
          (heap_available w) l (mappings w) (heap_blocks w) (trace w).

Definition set_mappings (w : World) (l : list Z) : World :=
  mkWorld (clock_readings w) (clock_reads w) (dev_openable w) (map_allowed w)
          (heap_available w) (open_fds w) l (heap_blocks w) (trace w).

Definition set_blocks (w : World) (l : list Z) : World :=
  mkWorld (clock_readings w) (clock_reads w) (dev_openable w) (map_allowed w)
          (heap_available w) (open_fds w) (mappings w) l (trace w).

Definition set_trace (w : World) (t : list event) : World :=
  mkWorld (clock_readings w) (clock_reads w) (dev_openable w) (map_allowed w)
          (heap_available w) (open_fds w) (mappings w) (heap_blocks w) t.

(** ** Outcomes and the monad of the program *)

(** A computation returns ([Done]), is killed by a fault ([Crash]: a division
    by zero, [free] of a pointer that is no block) or is still running when
    the fuel is spent ([OutOfFuel]).  Every outcome carries the world reached. *)
Inductive outcome (A : Type) : Type :=
| Done (a : A) (w : World)
| Crash (w : World)
| OutOfFuel (w : World).

Arguments Done {A} a w.
Arguments Crash {A} w.
Arguments OutOfFuel {A} w.

Definition M (A : Type) : Type := World -> outcome A.

Definition ret {A : Type} (a : A) : M A := fun w => Done a w.

Definition bind {A B : Type} (m : M A) (k : A -> M B) : M B :=
  fun w =>
    match m w with
    | Done a w' => k a w'
    | Crash w' => Crash w'
    | OutOfFuel w' => OutOfFuel w'
    end.

Declare Scope prog_scope.
Delimit Scope prog_scope with prog.
Notation "x <- m ;; k" := (bind m (fun x => k))
  (at level 61, m at next level, right associativity) : prog_scope.
Notation "m ;; k" := (bind m (fun _ => k))
  (at level 61, right associativity) : prog_scope.
Local Open Scope prog_scope.

Definition crash {A : Type} : M A := fun w => Crash w.

Definition emit (e : event) : M unit :=
  fun w => Done tt (set_trace w (trace w ++ [e])).

(** [for (unsigned int i = i0; i < bound; i++) s = body(s);] with [bound] an
    [unsigned long]: the counter is widened for the comparison and wraps at
    2^32 when incremented. *)
Fixpoint for_loop {St : Type} (fuel : nat) (bound : Z) (body : St -> M St)
    (i : Z) (s : St) : M St :=
  fun w =>
    match fuel with
    | O => OutOfFuel w
    | S fuel' =>
        if i <? bound then
          match body s w with
          | Done s' w' => for_loop fuel' bound body (to_uint (i + 1)) s' w'
          | Crash w' => Crash w'
          | OutOfFuel w' => OutOfFuel w'
          end
        else Done s w
    end.

(** ** Library calls *)

(** [clock_gettime(CLOCK_MONOTONIC, &ts)]: the next reading of the clock. *)
Definition clock_gettime : M timespec :=
  fun w => Done (clock_readings w (clock_reads w)) (set_reads w (S (clock_reads w))).

Definition putchar (c : ascii) : M unit := emit (Stdout (String c EmptyString)).
Definition printf (s : string) : M unit := emit (Stdout s).
Definition fprintf_stderr (s : string) : M unit := emit (Stderr s).
Definition fflush_stdout : M unit := emit Fflush.
Definition usleep (usec : Z) : M unit := emit (Usleep usec).

(** An identifier that is not in use: one past the largest in use. *)
Definition fresh_id (used : list Z) : Z := 1 + fold_right Z.max 2 used.

Definition mem (x : Z) (l : list Z) : bool := existsb (Z.eqb x) l.

Definition MAP_FAILED : Z := -1.
Definition NULL : Z := 0.

(** A descriptor the kernel accepts: not negative, and open. *)
Definition is_open (fd : Z) (w : World) : bool := (0 <=? fd) && mem fd (open_fds w).

(** The address of a live mapping; [MAP_FAILED] is none. *)
Definition is_mapping (a : Z) (w : World) : bool :=
  negb (a =? MAP_FAILED) && mem a (mappings w).

(** A pointer to a live block; [NULL] is none. *)
Definition is_block (p : Z) (w : World) : bool :=
  negb (p =? NULL) && mem p (heap_blocks w).

(** [open(TEST_READ_PATH, O_RDONLY)]: a new descriptor, or -1. *)
Definition sys_open : M Z :=
  fun w =>
    if dev_openable w then
      let fd := fresh_id (open_fds w) in
      Done fd (set_trace (set_fds w (fd :: open_fds w)) (trace w ++ [SysOpen fd]))
    else Done (-1) (set_trace w (trace w ++ [SysOpen (-1)])).

(** [mmap(NULL, len, PROT_READ, MAP_PRIVATE, fd, 0)]: a new mapping of an
    open descriptor, or [MAP_FAILED]. *)
Definition sys_mmap (fd : Z) : M Z :=
  fun w =>
    if is_open fd w && map_allowed w then
      let a := fresh_id (mappings w) in
      Done a (set_trace (set_mappings w (a :: mappings w)) (trace w ++ [SysMmap fd a]))
    else Done MAP_FAILED (set_trace w (trace w ++ [SysMmap fd MAP_FAILED])).

(** [malloc(len)]: a new block, or [NULL]. *)
Definition malloc : M Z :=
  fun w =>
    if heap_available w then
      let p := fresh_id (heap_blocks w) in
      Done p (set_trace (set_blocks w (p :: heap_blocks w)) (trace w ++ [Malloc p]))
    else Done NULL (set_trace w (trace w ++ [Malloc NULL])).

(** [memcpy(dst, src, len)]: the bytes go into a buffer that is never read
    again, so the copy leaves nothing to observe but the call.  The source
    hands it whatever [malloc] and [mmap] returned, untested, and has no path
    on which the run stops here. *)
Definition memcpy (dst src : Z) : M unit := emit (Memcpy dst src).

Definition remove_id (x : Z) (l : list Z) : list Z :=
  filter (fun y => negb (Z.eqb x y)) l.

(** [munmap(addr, len)]. *)
Definition sys_munmap (addr : Z) : M unit :=
  fun w =>
    if is_mapping addr w then
      Done tt (set_trace (set_mappings w (remove_id addr (mappings w)))
                         (trace w ++ [SysMunmap addr 0]))
    else Done tt (set_trace w (trace w ++ [SysMunmap addr (-1)])).

(** [read(fd, buf, len)]: [len] bytes of zeros, or -1 on a descriptor that
    is not open or a buffer that is not there. *)
Definition sys_read (fd buf : Z) : M unit :=
  fun w =>
    let r := if is_open fd w && is_block buf w then TEST_READ_LEN else -1 in
    Done tt (set_trace w (trace w ++ [SysRead fd buf r])).

(** [close(fd)]. *)
Definition sys_close (fd : Z) : M unit :=
  fun w =>
    if is_open fd w then
      Done tt (set_trace (set_fds w (remove_id fd (open_fds w)))
                         (trace w ++ [SysClose fd 0]))
    else Done tt (set_trace w (trace w ++ [SysClose fd (-1)])).

(** [free(ptr)]: nothing for [NULL], a fault for a pointer that is no block. *)
Definition free (ptr : Z) : M unit :=
  fun w =>
    let w' := set_trace w (trace w ++ [Free ptr]) in
    if ptr =? NULL then Done tt w'
    else if mem ptr (heap_blocks w)
         then Done tt (set_blocks w' (remove_id ptr (heap_blocks w)))
         else Crash w'.

(** ** The program *)

(** [true_ns]: a [timespec] as one [long] count of nanoseconds. *)
Definition true_ns (ts : timespec) : Z :=
  to_long (tv_nsec ts + to_long (tv_sec ts * NS_PER_SEC)).

Definition bench_impl : Type := M unit.

(** Both clock operations read CLOCK_MONOTONIC into a local and drop it. *)
Definition time_syscall_mb : bench_impl :=
  emit (Invoke TimeSyscallMb) ;;
  _ <- clock_gettime ;;
  ret tt.

Definition time_implicit_mb : bench_impl :=
  emit (Invoke TimeImplicitMb) ;;
  _ <- clock_gettime ;;
  ret tt.

Definition mmap_mb : bench_impl :=
  emit (Invoke MmapMb) ;;
  fd <- sys_open ;;
  data <- sys_mmap fd ;;
  buf <- malloc ;;
  memcpy buf data ;;
  sys_munmap data ;;
  sys_close fd ;;
  free buf.

Definition file_mb : bench_impl :=
  emit (Invoke FileMb) ;;
  fd <- sys_open ;;
  buf <- malloc ;;
  sys_read fd buf ;;
  sys_close fd ;;
  free buf.

(** The function a [bench_impl] value points to. *)
Definition measured (op : bench_op) : bench_impl :=
  match op with
  | TimeSyscallMb => time_syscall_mb
  | TimeImplicitMb => time_implicit_mb
  | MmapMb => mmap_mb
  | FileMb => file_mb
  end.

(** [a /= b] with [a] a [long] and [b] an [unsigned long]: the usual
    arithmetic conversions make it an unsigned division, whose quotient is
    converted back to [long]; dividing by zero kills the process. *)
Definition div_assign (a b : Z) : M Z :=
  if b =? 0 then crash else ret (to_long (to_ulong a / b)).

(** [if (x < best) best = x;] *)
Definition keep_min (best x : Z) : Z := if x <? best then x else best.

(** One pass of the innermost timed region of [run_bench_ns]. *)
Definition timed_sample (fuel : nat) (inner_call : bench_impl) (calls : Z) : M Z :=
  before <- clock_gettime ;;
  for_loop fuel calls (fun _ => inner_call) 0 tt ;;
  after <- clock_gettime ;;
  ret (to_long (true_ns after - true_ns before)).

(** One repetition: the body of the outermost loop up to the comparison. *)
Definition repetition (fuel : nat) (inner_call : bench_impl) (calls iters : Z) : M Z :=
  best_ns2 <- for_loop fuel iters
                (fun best_ns2 =>
                   elapsed_ns <- timed_sample fuel inner_call calls ;;
                   ret (keep_min best_ns2 elapsed_ns))
                0 LONG_MAX ;;
  div_assign best_ns2 calls.

Definition run_bench_ns (fuel : nat) (inner_call : bench_impl)
    (calls iters reps : Z) : M Z :=
  for_loop fuel reps
    (fun best_ns1 =>
       best_ns2 <- repetition fuel inner_call calls iters ;;
       let best_ns1 := keep_min best_ns1 best_ns2 in
       putchar "." ;;
       fflush_stdout ;;
       usleep (US_PER_SEC / 8) ;;
       ret best_ns1)
    0 LONG_MAX.

(** *** Command line *)

Definition LF : string := String (ascii_of_nat 10) EmptyString.

Definition isspace (c : ascii) : bool :=
  let n := N_of_ascii c in
  (n =? 32)%N || ((9 <=? n)%N && (n <=? 13)%N).

Definition isdigit (c : ascii) : bool :=
  let n := N_of_ascii c in (48 <=? n)%N && (n <=? 57)%N.

Fixpoint skip_spaces (s : string) : string :=
  match s with
  | String c s' => if isspace c then skip_spaces s' else s
  | EmptyString => s
  end.

Fixpoint digits_value (acc : Z) (s : string) : Z :=
  match s with
  | String c s' =>
      if isdigit c then digits_value (acc * 10 + (Z.of_N (N_of_ascii c) - 48)) s'
      else acc
  | EmptyString => acc
  end.

Definition ascii_eqb (a b : ascii) : bool := Ascii.eqb a b.

(** [strtol(s, NULL, 10)]: blanks, a sign, then the longest run of digits;
    a value out of range is clamped. *)
Definition strtol (s : string) : Z :=
  let clamp z := Z.max (- 2 ^ 63) (Z.min LONG_MAX z) in
  match skip_spaces s with
  | String c s' =>
      if ascii_eqb c "-" then clamp (- digits_value 0 s')
      else if ascii_eqb c "+" then clamp (digits_value 0 s')
      else clamp (digits_value 0 (String c s'))
  | EmptyString => clamp 0
  end.

(** [atoi(s)] is [(int) strtol(s, NULL, 10)]. *)
Definition atoi (s : string) : Z := to_int (strtol s).

Definition tolower (c : ascii) : ascii :=
  let n := N_of_ascii c in
  if (65 <=? n)%N && (n <=? 90)%N then ascii_of_N (n + 32) else c.

(** [s[0]], the terminating NUL for an empty string. *)
Definition first_char (s : string) : ascii :=
  match s with
  | String c _ => c
  | EmptyString => zero
  end.

(** [%ld] *)
Definition format_long (z : Z) : string := NilZero.string_of_int (Z.to_int z).

Definition get_arg (argc : Z) (argv : list string) (index : Z)
    (default_value : Z) : Z :=
  let value := 0 in
  let value :=
    if argc >? index then to_ulong (atoi (nth (Z.to_nat index) argv EmptyString))
    else value in
  let value := if value =? 0 then default_value else value in
  value.

Definition bench_time (fuel : nat) (argc : Z) (argv : list string) : M Z :=
  let calls := get_arg argc argv 2 100000 in
  let iters := get_arg argc argv 3 32 in
  let reps := get_arg argc argv 4 5 in
  printf "clock_gettime: " ;;
  fflush_stdout ;;
  best_ns_syscall <- run_bench_ns fuel time_syscall_mb calls iters reps ;;
  best_ns_implicit <- run_bench_ns fuel time_implicit_mb calls iters reps ;;
  printf (LF ++ "    syscall: " ++ format_long best_ns_syscall ++ " ns" ++ LF)%string ;;
  printf ("    implicit: " ++ format_long best_ns_implicit ++ " ns" ++ LF)%string ;;
  ret 0.

Definition bench_file (fuel : nat) (argc : Z) (argv : list string) : M Z :=
  let calls := get_arg argc argv 2 100 in
  let iters := get_arg argc argv 3 128 in
  let reps := get_arg argc argv 4 5 in
  printf "file read: " ;;
  fflush_stdout ;;
  best_ns_mmap <- run_bench_ns fuel mmap_mb calls iters reps ;;
  best_ns_file <- run_bench_ns fuel file_mb calls iters reps ;;
  printf (LF ++ "    mmap: " ++ format_long best_ns_mmap ++ " ns" ++ LF)%string ;;
  printf ("    read: " ++ format_long best_ns_file ++ " ns" ++ LF)%string ;;
  ret 0.

Definition invalid_mode_message (mode : ascii) : string :=
  ("Invalid mode '" ++ String mode "'! Valid modes are: [t]ime, [f]ile, [a]ll" ++ LF)%string.

(** [main]; the value returned is the exit status. *)
Definition main (fuel : nat) (argc : Z) (argv : list string) : M Z :=
  let mode :=
    if argc >=? 2 then tolower (first_char (nth 1 argv EmptyString))
    else "a"%char in
  if (argc >=? 2) && negb (ascii_eqb mode "t") && negb (ascii_eqb mode "f")
     && negb (ascii_eqb mode "a")
  then fprintf_stderr (invalid_mode_message mode) ;; ret 1
  else
    let do_time := ascii_eqb mode "t" || ascii_eqb mode "a" in
    let do_file := ascii_eqb mode "f" || ascii_eqb mode "a" in
    r1 <- (if do_time then bench_time fuel argc argv else ret 0) ;;
    if negb (r1 =? 0) then ret r1
    else
      (if do_time && do_file then putchar (ascii_of_nat 10) else ret tt) ;;
      r2 <- (if do_file then bench_file fuel argc argv else ret 0) ;;
      if negb (r2 =? 0) then ret r2 else ret 0.

(** The program started with the arguments [argv] ([argv[0]] included). *)
Definition run_program (fuel : nat) (argv : list string) : M Z :=
  main fuel (Z.of_nat (List.length argv)) argv.

(** ** Reading a run *)

(** The measured operations entered, in order. *)
Fixpoint invocations (t : list event) : list bench_op :=
  match t with
  | [] => []
  | Invoke op :: t' => op :: invocations t'
  | _ :: t' => invocations t'
  end.

(** Everything written to standard output, in order. *)
Fixpoint stdout_text (t : list event) : string :=
  match t with
  | [] => EmptyString
  | Stdout s :: t' => (s ++ stdout_text t')%string
  | _ :: t' => stdout_text t'
  end.

Fixpoint stderr_text (t : list event) : string :=
  match t with
  | [] => EmptyString
  | Stderr s :: t' => (s ++ stderr_text t')%string
  | _ :: t' => stderr_text t'
  end.

(** ** What a run does

    [run_bench_ns] and everything that calls it take fuel; a statement is
    about the run itself when it holds for every large enough fuel. *)

(** [m] returns [a] in world [w']: every large enough fuel gives that. *)
Definition returns {A : Type} (m : nat -> M A) (w : World) (a : A) (w' : World) : Prop :=
  exists fuel0 : nat, forall fuel : nat, (fuel0 <= fuel)%nat -> m fuel w = Done a w'.

(** [m] never returns: no fuel is enough for a [Done]. *)
Definition never_returns {A : Type} (m : nat -> M A) (w : World) : Prop :=
  forall (fuel : nat) (a : A) (w' : World), m fuel w <> Done a w'.

(** [m] stops, by returning or by a fault. *)
Definition halted {A : Type} (o : outcome A) : Prop :=
  match o with
  | OutOfFuel _ => False
  | _ => True
  end.

Definition terminates {A : Type} (m : nat -> M A) (w : World) : Prop :=
  exists fuel0 : nat, forall fuel : nat, (fuel0 <= fuel)%nat -> halted (m fuel w).

(** ** Sample worlds *)

(** A clock that hands out the readings of [tape], in nanoseconds, and then
    stays at the last of them. *)
Definition tape_clock (tape : list Z) (k : nat) : timespec :=
  mkTimespec 0 (nth k tape (last tape 0)).

(** A sample world: eight readings with uneven gaps, the device available,
    the standard descriptors open. *)
Definition world0 : World :=
  mkWorld (tape_clock [0; 90; 100; 160; 170; 200; 205; 300]) 0
          true true true [0; 1; 2] [] [] [].

(** The same world with the device out of reach. *)
Definition world_no_device : World :=
  mkWorld (tape_clock [0; 90; 100; 160; 170; 200; 205; 300]) 0
          false true true [0; 1; 2] [] [] [].

Definition out_of {A : Type} (o : outcome A) : option A :=
  match o with
  | Done a _ => Some a
  | _ => None
  end.

Definition world_of {A : Type} (o : outcome A) : World :=
  match o with
  | Done _ w | Crash w | OutOfFuel w => w
  end.

(** ** The measurement as the specification words it

    The definitions of this part follow the specification of the timing
    loop, not the source: repetition is counted by a natural number, a
    clock reading is an exact count of nanoseconds, the samples are gathered
    in lists and reduced afterwards. *)

(** [n] runs of [body], each on the state the one before left. *)
Fixpoint iterate {St : Type} (n : nat) (body : St -> M St) (s : St) : M St :=
  match n with
  | O => ret s
  | S n' => s' <- body s ;; iterate n' body s'
  end.

(** [n] runs of [m], their results in order. *)
Fixpoint repeatM {A : Type} (n : nat) (m : M A) : M (list A) :=
  match n with
  | O => ret []
  | S n' => x <- m ;; xs <- repeatM n' m ;; ret (x :: xs)
  end.

(** [seconds * 1_000_000_000 + fractional_nanoseconds], exactly. *)
Definition nanoseconds (ts : timespec) : Z := tv_sec ts * NS_PER_SEC + tv_nsec ts.

Definition now : M Z := ts <- clock_gettime ;; ret (nanoseconds ts).

(** A timed sample: the time elapsed around [calls] invocations of [op]. *)
Definition elapsed_sample (op : bench_op) (calls : nat) : M Z :=
  t0 <- now ;;
  iterate calls (fun _ => measured op) tt ;;
  t1 <- now ;;
  ret (t1 - t0).

(** One progress marker, then the pause of 125 milliseconds. *)
Definition progress_pause : M unit :=
  putchar "." ;; fflush_stdout ;; usleep 125000.

(** The samples of a whole measurement: [reps] rows of [iters] samples. *)
Definition sample_rows (op : bench_op) (calls iters reps : nat) : M (list (list Z)) :=
  repeatM reps (row <- repeatM iters (elapsed_sample op calls) ;;
                progress_pause ;;
                ret row).

(** The least element of a list that is not empty. *)
Definition list_min (l : list Z) : Z :=
  match l with
  | [] => LONG_MAX
  | x :: l' => fold_left Z.min l' x
  end.

(** The reduction of the specification: the least, over the repetitions, of
    the least sample of the repetition divided by [calls], the quotient
    truncated. *)
Definition min_of_mins (calls : Z) (rows : list (list Z)) : Z :=
  list_min (map (fun row => Z.quot (list_min row) calls) rows).

(** ** The environment a statement assumes *)

(** A reading of a monotonic clock: time since some epoch, in range. *)
Definition wf_timespec (ts : timespec) : Prop :=
  0 <= tv_sec ts /\ 0 <= tv_nsec ts < NS_PER_SEC /\ nanoseconds ts <= LONG_MAX.

(** A monotonic clock: each reading is at least the one before. *)
Definition monotonic (clock : nat -> timespec) : Prop :=
  forall k : nat,
    wf_timespec (clock k) /\ nanoseconds (clock k) <= nanoseconds (clock (S k)).

(** What [op] needs for every library call it makes to be handed valid
    arguments: [mmap_mb] copies out of its mapping into its buffer without a
    check, so the device, the mapping and the allocation must all succeed;
    the other three need nothing. *)
Definition available (op : bench_op) (w : World) : Prop :=
  match op with
  | MmapMb => dev_openable w = true /\ map_allowed w = true /\ heap_available w = true
  | _ => True
  end.

(** What no step of the program changes. *)
Definition same_env (w w' : World) : Prop :=
  clock_readings w' = clock_readings w /\
  dev_openable w' = dev_openable w /\
  map_allowed w' = map_allowed w /\
  heap_available w' = heap_available w.

(** The descriptors, mappings and blocks held. *)
Definition same_resources (w w' : World) : Prop :=
  open_fds w' = open_fds w /\ mappings w' = mappings w /\
  heap_blocks w' = heap_blocks w.

(** A computation keeps [R] between the world it starts in and the world it
    stops in, however it stops. *)
Definition respects {A : Type} (R : World -> World -> Prop) (m : M A) : Prop :=
  forall w : World, R w (world_of (m w)).

(** [n] progress markers. *)
Fixpoint dots (n : nat) : string :=
  match n with
  | O => EmptyString
  | S n' => String "." (dots n')
  end.

(** The environment is the same and the clock has only been read further. *)
Definition evolves (w w' : World) : Prop :=
  same_env w w' /\ (clock_reads w <= clock_reads w')%nat.

(** What a stretch of the run from [w] to [w'] did: the measured operations
    it entered, what it wrote to standard output; it wrote nothing to
    standard error and holds no resource it did not hold before. *)
Definition step_summary (w w' : World) (ops : list bench_op) (out : string) : Prop :=
  invocations (trace w') = invocations (trace w) ++ ops /\
  stdout_text (trace w') = (stdout_text (trace w) ++ out)%string /\
  stderr_text (trace w') = stderr_text (trace w) /\
  evolves w w' /\ same_resources w w'.

(** A [long] that is at least [lo]. *)
Definition in_long (lo : Z) (x : Z) : Prop := lo <= x <= LONG_MAX.

(** The library calls one invocation of [file_mb] makes in world [w]. *)
Definition file_mb_events (w : World) : list event :=
  let fd := if dev_openable w then fresh_id (open_fds w) else -1 in
  let buf := if heap_available w then fresh_id (heap_blocks w) else NULL in
  [Invoke FileMb; SysOpen fd; Malloc buf;
   SysRead fd buf (if dev_openable w && heap_available w then TEST_READ_LEN else -1);
   SysClose fd (if dev_openable w then 0 else -1);
   Free buf].

(** The library calls one invocation of [mmap_mb] makes in world [w], all
    of them whatever the earlier ones returned. *)
Definition mmap_mb_events (w : World) : list event :=
  let fd := if dev_openable w then fresh_id (open_fds w) else -1 in
  let data := if dev_openable w && map_allowed w
              then fresh_id (mappings w) else MAP_FAILED in
  let buf := if heap_available w then fresh_id (heap_blocks w) else NULL in
  [Invoke MmapMb; SysOpen fd; SysMmap fd data; Malloc buf; Memcpy buf data;
   SysMunmap data (if dev_openable w && map_allowed w then 0 else -1);
   SysClose fd (if dev_openable w then 0 else -1);
   Free buf].

(** ** The arguments a statement is about *)


(** [argv] with the argument at [idx] replaced by [tok]. *)
Definition set_arg (argv : list string) (idx : nat) (tok : string) : list string :=
  firstn idx argv ++ tok :: skipn (S idx) argv.



(** No tuning argument is read as a negative number. *)
Definition tuning_ok (argv : list string) : Prop :=
  forall idx : nat, (2 <= idx <= 4)%nat -> 0 <= atoi (nth idx argv EmptyString).

(** How often each clock operation, and each file operation, is to be
    invoked for the arguments [argv]. *)
Definition time_invocations (argv : list string) : nat :=
  let argc := Z.of_nat (List.length argv) in
  Z.to_nat (get_arg argc argv 2 100000 * get_arg argc argv 3 32 * get_arg argc argv 4 5).

Definition file_invocations (argv : list string) : nat :=
  let argc := Z.of_nat (List.length argv) in
  Z.to_nat (get_arg argc argv 2 100 * get_arg argc argv 3 128 * get_arg argc argv 4 5).

(** The mode character [main] dispatches on. *)
Definition mode_of (argv : list string) : ascii :=
  tolower (first_char (nth 1 argv EmptyString)).

Definition is_clock_op (op : bench_op) : bool :=
  match op with
  | TimeSyscallMb | TimeImplicitMb => true
  | MmapMb | FileMb => false
  end.

Definition is_file_op (op : bench_op) : bool := negb (is_clock_op op).

(** From [w] to [w'] only operations that satisfy [P] were entered. *)
Definition only_ops (P : bench_op -> bool) (w w' : World) : Prop :=
  exists l : list bench_op,
    invocations (trace w') = invocations (trace w) ++ l /\ forallb P l = true.

(** From [w] to [w'] clock operations were entered, then file operations,
    and no clock operation after a file operation. *)
Definition clock_then_file (w w' : World) : Prop :=
  exists l1 l2 : list bench_op,
    invocations (trace w') = invocations (trace w) ++ l1 ++ l2 /\
    forallb is_clock_op l1 = true /\ forallb is_file_op l2 = true.

(** ** A cost that does not vary over time *)

(** The clock readings one invocation of [op] takes. *)
Definition reads_per_call (op : bench_op) : nat :=
  match op with
  | TimeSyscallMb | TimeImplicitMb => 1%nat
  | MmapMb | FileMb => 0%nat
  end.

(** What a sample of [calls] invocations of [op] measures when its first
    reading is the [k]-th of the clock. *)
Definition sample_cost (op : bench_op) (calls : Z) (w : World) (k : nat) : Z :=
  to_long (true_ns (clock_readings w (k + 1 + reads_per_call op * Z.to_nat calls))
           - true_ns (clock_readings w k)).

(** The cost of a sample does not vary over time: whenever it is taken, it
    measures [d]. *)
Definition steady (op : bench_op) (calls d : Z) (w : World) : Prop :=
  forall k : nat, sample_cost op calls w k = d.

(** What [run_bench_ns] returns when every sample measures [d]. *)
Definition steady_result (d calls iters reps : Z) : Z :=
  if 0 <? reps
  then to_long (to_ulong (if 0 <? iters then d else LONG_MAX) / calls)
  else LONG_MAX.

(** A clock that advances by one second per reading. *)
Definition second_clock (k : nat) : timespec := mkTimespec (Z.of_nat k) 0.

Definition world_steady : World :=
  mkWorld second_clock 0 true true true [0; 1; 2] [] [] [].

(** The same clock, some readings later. *)
Definition world_steady_later : World :=
  mkWorld second_clock 7 true true true [0; 1; 2] [] [] [].

(** ** What the further properties are about *)

(** Started in a world where [I] holds, [m] stops in a world where [I]
    holds; if it faults instead, [C] holds. *)
Definition guards {A : Type} (C : Prop) (I : World -> Prop) (m : M A) : Prop :=
  forall w : World, I w ->
    match m w with
    | Crash _ => C
    | Done _ w' | OutOfFuel w' => I w'
    end.

(** The run has not been killed by a fault. *)
Definition no_fault {A : Type} (o : outcome A) : Prop :=
  match o with
  | Crash _ => False
  | _ => True
  end.

(** The run is still going when the fuel is spent. *)
Definition spinning {A : Type} (o : outcome A) : Prop :=
  match o with
  | OutOfFuel _ => True
  | _ => False
  end.

(** [m] ends in a fault, in world [w']: every large enough fuel gives that. *)
Definition faults_in {A : Type} (m : nat -> M A) (w w' : World) : Prop :=
  exists fuel0 : nat, forall fuel : nat, (fuel0 <= fuel)%nat -> m fuel w = Crash w'.

(** What reaches the terminal or holds the process up: writes, flushes and
    pauses. *)
Definition is_console (e : event) : bool :=
  match e with
  | Stdout _ | Stderr _ | Fflush | Usleep _ => true
  | _ => false
  end.

Definition console (t : list event) : list event := filter is_console t.

(** The end of a repetition: the marker, the flush, the pause of 125 ms. *)
Definition marker_and_pause : list event := [Stdout "."; Fflush; Usleep 125000].

(** The order of two readings as pairs (seconds, nanoseconds). *)
Definition earlier (a b : timespec) : Prop :=
  tv_sec a < tv_sec b \/ (tv_sec a = tv_sec b /\ tv_nsec a < tv_nsec b).

(** No first argument, or one that starts with [t], [f] or [a] in either
    case. *)
Definition valid_mode (argv : list string) : Prop :=
  (List.length argv < 2)%nat \/
  mode_of argv = "t"%char \/ mode_of argv = "f"%char \/ mode_of argv = "a"%char.

(** Two command lines the program cannot tell apart. *)
Definition same_runs (argv argv' : list string) : Prop :=
  forall (fuel : nat) (w : World), run_program fuel argv w = run_program fuel argv' w.

(** What a driver writes: its heading, one marker per repetition of each
    of its two runs, and the two result lines. *)
Definition report (heading label1 label2 : string) (reps : nat) (a b : Z) : string :=
  (heading ++ dots reps ++ dots reps
     ++ LF ++ label1 ++ format_long a ++ " ns" ++ LF
     ++ label2 ++ format_long b ++ " ns" ++ LF)%string.

Definition time_report : nat -> Z -> Z -> string :=
  report "clock_gettime: " "    syscall: " "    implicit: ".

Definition file_report : nat -> Z -> Z -> string :=
  report "file read: " "    mmap: " "    read: ".

(** A world whose clock steps back by 60 ns between its first two readings. *)
Definition world_backwards : World :=
  mkWorld (tape_clock [100; 40; 70; 75]) 0 true true true [0; 1; 2] [] [] [].


(** * Proofs *)

(** ** Integer conversions *)

Lemma to_uint_small (z : Z) : 0 <= z <= UINT_MAX -> to_uint z = z.
Proof. unfold to_uint, UINT_MAX. intros H. apply Z.mod_small. lia. Qed.

Lemma to_uint_range (z : Z) : 0 <= to_uint z <= UINT_MAX.
Proof.
  unfold to_uint, UINT_MAX.
  pose proof (Z.mod_pos_bound z (2 ^ 32) ltac:(lia)). lia.
Qed.

Lemma to_long_small (z : Z) : - 2 ^ 63 <= z <= LONG_MAX -> to_long z = z.
Proof.
  unfold to_long, LONG_MAX. intros H.
  rewrite Z.mod_small by lia. lia.
Qed.

Lemma to_long_range (z : Z) : - 2 ^ 63 <= to_long z <= LONG_MAX.
Proof.
  unfold to_long, LONG_MAX.
  pose proof (Z.mod_pos_bound (z + 2 ^ 63) (2 ^ 64) ltac:(lia)). lia.
Qed.

Lemma to_ulong_small (z : Z) : 0 <= z <= LONG_MAX -> to_ulong z = z.
Proof. unfold to_ulong, LONG_MAX. intros H. apply Z.mod_small. lia. Qed.

Lemma to_int_range (z : Z) : - 2 ^ 31 <= to_int z < 2 ^ 31.
Proof.
  unfold to_int.
  pose proof (Z.mod_pos_bound (z + 2 ^ 31) (2 ^ 32) ltac:(lia)). lia.
Qed.

Lemma keep_min_min (best x : Z) : keep_min best x = Z.min best x.
Proof. unfold keep_min. destruct (Z.ltb_spec x best); lia. Qed.

(** ** The monad *)

Lemma bind_done {A B : Type} (m : M A) (k : A -> M B) (w : World) (b : B) (w2 : World) :
  bind m k w = Done b w2 <->
  exists (a : A) (w1 : World), m w = Done a w1 /\ k a w1 = Done b w2.
Proof.
  unfold bind. split.
  - destruct (m w) as [a w1 | w1 | w1]; intros H; try discriminate.
    exists a, w1. split; [reflexivity | exact H].
  - intros (a & w1 & Hm & Hk). rewrite Hm. exact Hk.
Qed.

Lemma bind_not_done {A B : Type} (m : M A) (k : A -> M B) (w : World) :
  (forall a w1, m w <> Done a w1) -> forall b w2, bind m k w <> Done b w2.
Proof.
  intros Hm b w2 H. apply bind_done in H. destruct H as (a & w1 & H & _).
  exact (Hm a w1 H).
Qed.

Lemma bind_halted {A B : Type} (m : M A) (k : A -> M B) (w : World) :
  halted (m w) -> (forall a w1, m w = Done a w1 -> halted (k a w1)) ->
  halted (bind m k w).
Proof.
  unfold bind. intros Hm Hk.
  destruct (m w) as [a w1 | w1 | w1]; simpl in *; auto.
Qed.

Lemma bind_ext_at {A B : Type} (m m' : M A) (k k' : A -> M B) (w : World) :
  m w = m' w -> (forall a w1, m w = Done a w1 -> k a w1 = k' a w1) ->
  bind m k w = bind m' k' w.
Proof.
  unfold bind. intros Hm Hk. rewrite <- Hm.
  destruct (m w) as [a w1 | w1 | w1]; auto.
Qed.

Lemma bind_assoc {A B C : Type} (m : M A) (k : A -> M B) (h : B -> M C) (w : World) :
  bind (bind m k) h w = bind m (fun a => bind (k a) h) w.
Proof. unfold bind. destruct (m w); reflexivity. Qed.

Lemma bind_emit {B : Type} (e : event) (k : unit -> M B) (w : World) :
  bind (emit e) k w = k tt (set_trace w (trace w ++ [e])).
Proof. reflexivity. Qed.

Lemma bind_run {A B : Type} (m : M A) (k : A -> M B) (w : World) (a : A) (w1 : World) :
  m w = Done a w1 -> bind m k w = k a w1.
Proof. intros E. unfold bind. rewrite E. reflexivity. Qed.

(** ** The loops *)

(** A bound of 2^32 or more is out of the counter's reach. *)
Lemma for_loop_never {St : Type} (bound : Z) (body : St -> M St) :
  UINT_MAX < bound ->
  forall (fuel : nat) (i : Z) (s : St) (w : World),
    0 <= i <= UINT_MAX ->
    forall s' w', for_loop fuel bound body i s w <> Done s' w'.
Proof.
  intros Hb fuel. induction fuel as [| fuel IH]; intros i s w Hi s' w'; simpl.
  - discriminate.
  - destruct (Z.ltb_spec i bound) as [_ | Hge]; [| lia].
    destruct (body s w) as [s1 w1 | w1 | w1]; try discriminate.
    apply IH. apply to_uint_range.
Qed.

(** A loop whose first pass does not return does not return. *)
Lemma for_loop_first_pass {St : Type} (bound : Z) (body : St -> M St)
    (fuel : nat) (i : Z) (s : St) (w : World) :
  i < bound ->
  (forall s1 w1, body s w <> Done s1 w1) ->
  forall s' w', for_loop fuel bound body i s w <> Done s' w'.
Proof.
  intros Hi Hbody s' w'. destruct fuel as [| fuel]; simpl; [discriminate |].
  destruct (Z.ltb_spec i bound) as [_ | Hge]; [| lia].
  destruct (body s w) as [s1 w1 | w1 | w1] eqn:E; try discriminate.
  exfalso. exact (Hbody s1 w1 eq_refl).
Qed.

(** Within the counter's reach, and with fuel for every pass, the loop is
    [bound - i] runs of its body. *)
Lemma for_loop_iterate {St : Type} (bound : Z) (body : St -> M St) :
  bound <= UINT_MAX ->
  forall (fuel : nat) (i : Z) (s : St) (w : World),
    0 <= i ->
    (Z.to_nat (bound - i) < fuel)%nat ->
    for_loop fuel bound body i s w = iterate (Z.to_nat (bound - i)) body s w.
Proof.
  intros Hb fuel. induction fuel as [| fuel IH]; intros i s w Hi Hfuel; [lia |].
  simpl. destruct (Z.ltb_spec i bound) as [Hlt | Hge].
  - replace (Z.to_nat (bound - i)) with (S (Z.to_nat (bound - (i + 1)))) in * by lia.
    simpl. unfold bind. destruct (body s w) as [s1 w1 | w1 | w1]; try reflexivity.
    rewrite to_uint_small by lia. apply IH; lia.
  - replace (Z.to_nat (bound - i)) with 0%nat by lia. reflexivity.
Qed.

Lemma iterate_ext {St : Type} (I : World -> Prop) (body body' : St -> M St) :
  (forall s w, I w -> body s w = body' s w) ->
  (forall s w, I w -> I (world_of (body s w))) ->
  forall (n : nat) (s : St) (w : World),
    I w -> iterate n body s w = iterate n body' s w.
Proof.
  intros Heq Hinv n. induction n as [| n IH]; intros s w Hw; simpl; [reflexivity |].
  apply bind_ext_at; [auto |].
  intros s1 w1 E. apply IH. specialize (Hinv s w Hw). rewrite E in Hinv. exact Hinv.
Qed.

Lemma repeatM_ext {A : Type} (I : World -> Prop) (m m' : M A) :
  (forall w, I w -> m w = m' w) ->
  (forall w, I w -> I (world_of (m w))) ->
  forall (n : nat) (w : World), I w -> repeatM n m w = repeatM n m' w.
Proof.
  intros Heq Hinv n. induction n as [| n IH]; intros w Hw; simpl; [reflexivity |].
  apply bind_ext_at; [auto |].
  intros x w1 E. apply bind_ext_at; [| reflexivity].
  apply IH. specialize (Hinv w Hw). rewrite E in Hinv. exact Hinv.
Qed.

(** A loop that folds the results of [m] into its state gathers them and
    folds afterwards. *)
Lemma iterate_fold {St A : Type} (m : M A) (f : St -> A -> St) :
  forall (n : nat) (s : St) (w : World),
    iterate n (fun s => x <- m ;; ret (f s x)) s w =
    (xs <- repeatM n m ;; ret (fold_left f xs s)) w.
Proof.
  induction n as [| n IH]; intros s w; simpl; [reflexivity |].
  rewrite !bind_assoc. apply bind_ext_at; [reflexivity |].
  intros x w1 _. rewrite bind_assoc.
  transitivity (iterate n (fun s => x <- m ;; ret (f s x)) (f s x) w1);
    [reflexivity |].
  rewrite IH. apply bind_ext_at; reflexivity.
Qed.

(** ** What the steps keep *)

Lemma same_env_refl (w : World) : same_env w w.
Proof. repeat split. Qed.

Lemma same_env_trans (w1 w2 w3 : World) :
  same_env w1 w2 -> same_env w2 w3 -> same_env w1 w3.
Proof.
  unfold same_env. intros (A1 & A2 & A3 & A4) (B1 & B2 & B3 & B4).
  repeat split; congruence.
Qed.

Lemma evolves_refl (w : World) : evolves w w.
Proof. split; [apply same_env_refl | lia]. Qed.

Lemma evolves_trans (w1 w2 w3 : World) :
  evolves w1 w2 -> evolves w2 w3 -> evolves w1 w3.
Proof.
  intros [A1 A2] [B1 B2]. split; [eapply same_env_trans; eauto | lia].
Qed.

Lemma available_evolves (op : bench_op) (w w' : World) :
  evolves w w' -> available op w -> available op w'.
Proof.
  intros [(_ & E1 & E2 & E3) _]. destruct op; simpl; auto.
  rewrite E1, E2, E3. auto.
Qed.

Section Respects.
Variable R : World -> World -> Prop.
Hypothesis R_refl : forall w, R w w.
Hypothesis R_trans : forall w1 w2 w3, R w1 w2 -> R w2 w3 -> R w1 w3.

Lemma respects_ret {A : Type} (a : A) : respects R (ret a).
Proof. intros w. apply R_refl. Qed.

Lemma respects_bind {A B : Type} (m : M A) (k : A -> M B) :
  respects R m -> (forall a, respects R (k a)) -> respects R (bind m k).
Proof.
  intros Hm Hk w. unfold bind. specialize (Hm w).
  destruct (m w) as [a w1 | w1 | w1]; simpl in *; auto.
  eapply R_trans; [exact Hm | apply Hk].
Qed.

Lemma respects_for_loop {St : Type} (bound : Z) (body : St -> M St) :
  (forall s, respects R (body s)) ->
  forall fuel i s, respects R (for_loop fuel bound body i s).
Proof.
  intros Hbody fuel. induction fuel as [| fuel IH]; intros i s w; simpl.
  - apply R_refl.
  - destruct (i <? bound); [| apply R_refl].
    specialize (Hbody s w).
    destruct (body s w) as [s1 w1 | w1 | w1]; simpl in *; auto.
    eapply R_trans; [exact Hbody | apply IH].
Qed.

Lemma respects_iterate {St : Type} (body : St -> M St) :
  (forall s, respects R (body s)) -> forall n s, respects R (iterate n body s).
Proof.
  intros Hbody n. induction n as [| n IH]; intros s; simpl.
  - apply respects_ret.
  - apply respects_bind; auto.
Qed.

Lemma respects_done {A : Type} (m : M A) (w : World) (a : A) (w' : World) :
  respects R m -> m w = Done a w' -> R w w'.
Proof. intros Hm E. specialize (Hm w). rewrite E in Hm. exact Hm. Qed.

End Respects.

Ltac prim_evolves :=
  intros w; cbv [world_of emit clock_gettime sys_open sys_mmap malloc memcpy
                 sys_munmap sys_read sys_close free crash ret];
  cbv [is_open is_mapping is_block];
  repeat match goal with
         | |- context [if ?c then _ else _] => destruct c
         end;
  cbv [evolves same_env set_trace set_fds set_mappings set_blocks set_reads
       clock_readings clock_reads dev_openable map_allowed heap_available];
  destruct w; repeat split; lia.

Lemma emit_evolves (e : event) : respects evolves (emit e).
Proof. prim_evolves. Qed.

Lemma clock_gettime_evolves : respects evolves clock_gettime.
Proof. prim_evolves. Qed.

Lemma sys_open_evolves : respects evolves sys_open.
Proof. prim_evolves. Qed.

Lemma sys_mmap_evolves (fd : Z) : respects evolves (sys_mmap fd).
Proof. prim_evolves. Qed.

Lemma malloc_evolves : respects evolves malloc.
Proof. prim_evolves. Qed.

Lemma memcpy_evolves (dst src : Z) : respects evolves (memcpy dst src).
Proof. prim_evolves. Qed.

Lemma sys_munmap_evolves (addr : Z) : respects evolves (sys_munmap addr).
Proof. prim_evolves. Qed.

Lemma sys_read_evolves (fd buf : Z) : respects evolves (sys_read fd buf).
Proof. prim_evolves. Qed.

Lemma sys_close_evolves (fd : Z) : respects evolves (sys_close fd).
Proof. prim_evolves. Qed.

Lemma free_evolves (ptr : Z) : respects evolves (free ptr).
Proof. prim_evolves. Qed.

Create HintDb evolving.
#[local] Hint Resolve evolves_refl emit_evolves clock_gettime_evolves sys_open_evolves
  sys_mmap_evolves malloc_evolves memcpy_evolves sys_munmap_evolves
  sys_read_evolves sys_close_evolves free_evolves : evolving.

Ltac evolving :=
  repeat first
    [ apply (respects_bind evolves evolves_trans); [| intros ?]
    | apply (respects_ret evolves evolves_refl)
    | solve [auto with evolving] ].

Lemma measured_evolves (op : bench_op) : respects evolves (measured op).
Proof.
  destruct op; cbv [measured time_syscall_mb time_implicit_mb mmap_mb file_mb];
    evolving.
Qed.

Lemma timed_sample_evolves (fuel : nat) (op : bench_op) (calls : Z) :
  respects evolves (timed_sample fuel (measured op) calls).
Proof.
  unfold timed_sample. evolving.
  apply (respects_for_loop evolves evolves_refl evolves_trans).
  intros _. apply measured_evolves.
Qed.

Lemma elapsed_sample_evolves (op : bench_op) (calls : nat) :
  respects evolves (elapsed_sample op calls).
Proof.
  unfold elapsed_sample, now. evolving.
  apply (respects_iterate evolves evolves_refl evolves_trans).
  intros _. apply measured_evolves.
Qed.

Lemma repetition_evolves (fuel : nat) (op : bench_op) (calls iters : Z) :
  respects evolves (repetition fuel (measured op) calls iters).
Proof.
  unfold repetition. evolving.
  - apply (respects_for_loop evolves evolves_refl evolves_trans).
    intros s. apply (respects_bind evolves evolves_trans);
      [apply timed_sample_evolves | intros e; apply (respects_ret evolves evolves_refl)].
  - unfold div_assign. destruct (calls =? 0); [intros w; apply evolves_refl |].
    apply (respects_ret evolves evolves_refl).
Qed.

Lemma progress_pause_evolves : respects evolves progress_pause.
Proof. unfold progress_pause, putchar, fflush_stdout, usleep. evolving. Qed.

Lemma evolves_monotonic (w w' : World) :
  evolves w w' -> monotonic (clock_readings w) -> monotonic (clock_readings w').
Proof. intros [(E & _) _] H. rewrite E. exact H. Qed.

(** ** The clock *)

Lemma monotonic_le (clock : nat -> timespec) :
  monotonic clock ->
  forall k j : nat, (k <= j)%nat -> nanoseconds (clock k) <= nanoseconds (clock j).
Proof.
  intros Hc k j Hkj. induction Hkj as [| j _ IH]; [lia |].
  destruct (Hc j) as [_ Hstep]. lia.
Qed.

Lemma true_ns_exact (ts : timespec) : wf_timespec ts -> true_ns ts = nanoseconds ts.
Proof.
  unfold wf_timespec, true_ns, nanoseconds, NS_PER_SEC, LONG_MAX.
  intros (Hs & Hn & Hr).
  rewrite (to_long_small (tv_sec ts * 1000000000)) by (unfold LONG_MAX; lia).
  rewrite to_long_small by (unfold LONG_MAX; lia). lia.
Qed.

Lemma elapsed_exact (clock : nat -> timespec) (k j : nat) :
  monotonic clock -> (k <= j)%nat ->
  to_long (true_ns (clock j) - true_ns (clock k))
  = nanoseconds (clock j) - nanoseconds (clock k)
  /\ 0 <= nanoseconds (clock j) - nanoseconds (clock k) <= LONG_MAX.
Proof.
  intros Hc Hkj.
  destruct (Hc k) as [Hk _]. destruct (Hc j) as [Hj _].
  pose proof (monotonic_le clock Hc k j Hkj) as Hle.
  rewrite !true_ns_exact by assumption.
  assert (0 <= nanoseconds (clock k)).
  { destruct Hk as (? & ? & ?). unfold nanoseconds, NS_PER_SEC in *. lia. }
  destruct Hj as (_ & _ & Hj).
  split; [apply to_long_small; unfold LONG_MAX in *; lia | lia].
Qed.

(** The timed region of the source measures what the specification calls a
    sample, on a monotonic clock and within the counter's reach. *)
Lemma timed_sample_spec (fuel : nat) (op : bench_op) (calls : Z) (w : World) :
  monotonic (clock_readings w) ->
  0 <= calls <= UINT_MAX -> (Z.to_nat calls < fuel)%nat ->
  timed_sample fuel (measured op) calls w = elapsed_sample op (Z.to_nat calls) w.
Proof.
  intros Hc Hcalls Hfuel. unfold timed_sample, elapsed_sample, now.
  unfold bind, clock_gettime, ret.
  rewrite for_loop_iterate by (simpl; lia).
  replace (calls - 0) with calls by lia.
  destruct (iterate (Z.to_nat calls) (fun _ => measured op) tt
              (set_reads w (S (clock_reads w)))) as [[] w2 | w2 | w2] eqn:E2;
    try reflexivity.
  assert (Hev2 : evolves (set_reads w (S (clock_reads w))) w2).
  { eapply (respects_done evolves); [| exact E2].
    apply (respects_iterate evolves evolves_refl evolves_trans).
    intros _. apply measured_evolves. }
  destruct Hev2 as [(C2 & _) R2]. simpl in C2, R2. rewrite C2.
  destruct (elapsed_exact (clock_readings w) (clock_reads w) (clock_reads w2) Hc
              ltac:(lia)) as [-> _].
  reflexivity.
Qed.

(** A sample on a monotonic clock is not negative. *)
Lemma elapsed_sample_post (op : bench_op) (calls : nat) (w : World) (e : Z) (w' : World) :
  monotonic (clock_readings w) ->
  elapsed_sample op calls w = Done e w' ->
  0 <= e <= LONG_MAX /\ monotonic (clock_readings w').
Proof.
  intros Hc E. split.
  - unfold elapsed_sample, now in E.
    apply bind_done in E. destruct E as (t0 & w1 & E1 & E).
    apply bind_done in E1. destruct E1 as (ts0 & w0 & E0 & E1).
    unfold ret in E1. injection E1 as <- <-.
    unfold clock_gettime in E0. injection E0 as <- <-.
    apply bind_done in E. destruct E as ([] & w2 & E2 & E).
    apply bind_done in E. destruct E as (t1 & w3 & E3 & E).
    unfold ret in E. injection E as <- <-.
    apply bind_done in E3. destruct E3 as (ts1 & w4 & E4 & E3).
    unfold ret in E3. injection E3 as <- <-.
    unfold clock_gettime in E4. injection E4 as <- <-.
    assert (Hev2 : evolves (set_reads w (S (clock_reads w))) w2).
    { eapply (respects_done evolves); [| exact E2].
      apply (respects_iterate evolves evolves_refl evolves_trans).
      intros _. apply measured_evolves. }
    destruct Hev2 as [(C2 & _) R2]. simpl in C2, R2. rewrite C2.
    apply (elapsed_exact (clock_readings w) (clock_reads w) (clock_reads w2) Hc).
    lia.
  - eapply evolves_monotonic; [| exact Hc].
    eapply (respects_done evolves); [| exact E]. apply elapsed_sample_evolves.
Qed.

(** ** Minima *)

Lemma fold_min_range (lo : Z) (l : list Z) (x : Z) :
  in_long lo x -> Forall (in_long lo) l -> in_long lo (fold_left Z.min l x).
Proof.
  revert x. induction l as [| y l IH]; intros x Hx Hl; simpl; [exact Hx |].
  inversion Hl; subst. apply IH; [| assumption].
  unfold in_long in *. lia.
Qed.

Lemma fold_keep_min (l : list Z) (x : Z) :
  fold_left keep_min l x = fold_left Z.min l x.
Proof.
  revert x. induction l as [| y l IH]; intros x; simpl; [reflexivity |].
  rewrite keep_min_min. apply IH.
Qed.

(** Starting from [LONG_MAX], the compare-and-keep loop ends on the least
    element. *)
Lemma fold_keep_min_list_min (lo : Z) (l : list Z) :
  l <> [] -> Forall (in_long lo) l ->
  fold_left keep_min l LONG_MAX = list_min l /\ in_long lo (list_min l).
Proof.
  destruct l as [| x l]; [congruence |]. intros _ Hl. inversion Hl; subst.
  simpl. rewrite keep_min_min, fold_keep_min.
  replace (Z.min LONG_MAX x) with x by (unfold in_long in *; lia).
  split; [reflexivity | apply fold_min_range; assumption].
Qed.

(** On a minimum that is not negative, the unsigned division of the source
    is the truncating division. *)
Lemma div_assign_quot (x calls : Z) (w : World) :
  in_long 0 x -> 1 <= calls ->
  div_assign x calls w = Done (Z.quot x calls) w /\ in_long 0 (Z.quot x calls).
Proof.
  unfold in_long, div_assign. intros Hx Hc.
  destruct (Z.eqb_spec calls 0) as [-> | _]; [lia |].
  rewrite to_ulong_small by lia.
  rewrite Z.quot_div_nonneg by lia.
  assert (0 <= x / calls <= x).
  { split; [apply Z.div_pos; lia | apply Z.div_le_upper_bound; nia]. }
  unfold ret. rewrite to_long_small by (unfold LONG_MAX in *; lia).
  split; [reflexivity | lia].
Qed.

(** ** Gathering results *)

Lemma repeatM_post {A : Type} (I : World -> Prop) (P : A -> Prop) (m : M A) :
  (forall w a w', I w -> m w = Done a w' -> P a /\ I w') ->
  forall (n : nat) (w : World) (xs : list A) (w' : World),
    I w -> repeatM n m w = Done xs w' ->
    Forall P xs /\ List.length xs = n /\ I w'.
Proof.
  intros Hm n. induction n as [| n IH]; intros w xs w' Hw E; simpl in E.
  - unfold ret in E. injection E as <- <-. repeat split; [constructor | exact Hw].
  - apply bind_done in E. destruct E as (x & w1 & E1 & E).
    apply bind_done in E. destruct E as (xs' & w2 & E2 & E).
    unfold ret in E. injection E as <- <-.
    destruct (Hm w x w1 Hw E1) as [Px Hw1].
    destruct (IH w1 xs' w2 Hw1 E2) as (Pxs & Hlen & Hw2).
    repeat split; [constructor; assumption | simpl; congruence | exact Hw2].
Qed.

Lemma repeatM_map {A B : Type} (m : M A) (g : A -> B) :
  forall (n : nat) (w : World),
    repeatM n (x <- m ;; ret (g x)) w = (xs <- repeatM n m ;; ret (map g xs)) w.
Proof.
  induction n as [| n IH]; intros w; simpl; [reflexivity |].
  rewrite !bind_assoc. apply bind_ext_at; [reflexivity |].
  intros x w1 _. rewrite bind_assoc.
  transitivity ((ys <- repeatM n (x <- m ;; ret (g x)) ;; ret (g x :: ys)) w1);
    [reflexivity |].
  unfold bind at 1. rewrite IH. unfold bind.
  destruct (repeatM n m w1); reflexivity.
Qed.

(** ** The timing loop against the specification *)

Section Measure.
Variable op : bench_op.
Variables calls iters reps : Z.
Variable fuel : nat.
Hypothesis calls_range : 1 <= calls <= UINT_MAX.
Hypothesis iters_range : 1 <= iters <= UINT_MAX.
Hypothesis reps_range : 0 <= reps <= UINT_MAX.
Hypothesis fuel_calls : (Z.to_nat calls < fuel)%nat.
Hypothesis fuel_iters : (Z.to_nat iters < fuel)%nat.
Hypothesis fuel_reps : (Z.to_nat reps < fuel)%nat.

Let good (w : World) : Prop := monotonic (clock_readings w).

Let row_spec : M (list Z) :=
  repeatM (Z.to_nat iters) (elapsed_sample op (Z.to_nat calls)).

Lemma row_spec_post (w : World) (row : list Z) (w' : World) :
  good w -> row_spec w = Done row w' ->
  Forall (in_long 0) row /\ List.length row = Z.to_nat iters /\ good w'.
Proof.
  apply (repeatM_post good (in_long 0)).
  intros w0 e w1 Hw0 E. exact (elapsed_sample_post op _ w0 e w1 Hw0 E).
Qed.

(** One repetition: the least of its samples, divided afterwards. *)
Lemma repetition_spec (w : World) :
  good w ->
  repetition fuel (measured op) calls iters w
  = (row <- row_spec ;; ret (Z.quot (list_min row) calls)) w.
Proof.
  intros Hw. unfold repetition.
  assert (H1 : for_loop fuel iters
                 (fun best_ns2 =>
                    elapsed_ns <- timed_sample fuel (measured op) calls ;;
                    ret (keep_min best_ns2 elapsed_ns)) 0 LONG_MAX w
               = (xs <- row_spec ;; ret (fold_left keep_min xs LONG_MAX)) w).
  { rewrite for_loop_iterate by lia. replace (iters - 0) with iters by lia.
    rewrite (iterate_fold (timed_sample fuel (measured op) calls) keep_min).
    apply bind_ext_at; [| reflexivity].
    apply (repeatM_ext good); [| | exact Hw].
    - intros w0 Hw0. apply timed_sample_spec; [exact Hw0 | lia | lia].
    - intros w0 Hw0. eapply evolves_monotonic; [| exact Hw0].
      apply timed_sample_evolves. }
  unfold bind at 1. rewrite H1. unfold bind.
  destruct (row_spec w) as [row w1 | w1 | w1] eqn:E; try reflexivity.
  destruct (row_spec_post w row w1 Hw E) as (Hrow & Hlen & _).
  assert (Hne : row <> []) by (intros ->; simpl in Hlen; lia).
  destruct (fold_keep_min_list_min 0 row Hne Hrow) as [Hfold Hmin].
  unfold ret at 1. rewrite Hfold.
  destruct (div_assign_quot (list_min row) calls w1 Hmin ltac:(lia)) as [-> _].
  reflexivity.
Qed.

Let rep_spec : M (list Z) := row <- row_spec ;; progress_pause ;; ret row.

Lemma rep_spec_post (w : World) (row : list Z) (w' : World) :
  good w -> rep_spec w = Done row w' ->
  (Forall (in_long 0) row /\ List.length row = Z.to_nat iters) /\ good w'.
Proof.
  intros Hw E. unfold rep_spec in E.
  apply bind_done in E. destruct E as (row' & w1 & E1 & E).
  apply bind_done in E. destruct E as ([] & w2 & E2 & E).
  unfold ret in E. injection E as <- <-.
  destruct (row_spec_post w row' w1 Hw E1) as (Hrow & Hlen & Hw1).
  split; [split; assumption |].
  eapply evolves_monotonic; [| exact Hw1].
  eapply (respects_done evolves); [apply progress_pause_evolves | exact E2].
Qed.

(** The whole loop: the samples gathered as the specification says, reduced
    by the minimum of the per-repetition minima divided by [calls]. *)
Lemma run_bench_ns_spec (w : World) :
  good w -> 1 <= reps ->
  run_bench_ns fuel (measured op) calls iters reps w
  = (rows <- sample_rows op (Z.to_nat calls) (Z.to_nat iters) (Z.to_nat reps) ;;
     ret (min_of_mins calls rows)) w.
Proof.
  intros Hw Hreps. unfold run_bench_ns.
  rewrite for_loop_iterate by lia. replace (reps - 0) with reps by lia.
  set (est := fun row : list Z => Z.quot (list_min row) calls).
  set (m_code := best_ns2 <- repetition fuel (measured op) calls iters ;;
                 putchar "." ;; fflush_stdout ;; usleep (US_PER_SEC / 8) ;;
                 ret best_ns2).
  rewrite (iterate_ext (fun _ => True) _ (fun s => x <- m_code ;; ret (keep_min s x)));
    [| | auto | exact I].
  2:{ intros s w0 _. unfold m_code, bind.
      destruct (repetition fuel (measured op) calls iters w0); reflexivity. }
  rewrite iterate_fold.
  assert (Hm : forall w0, good w0 -> m_code w0 = (row <- rep_spec ;; ret (est row)) w0).
  { intros w0 Hw0. unfold m_code, rep_spec.
    unfold bind at 1. rewrite repetition_spec by exact Hw0.
    unfold bind. fold row_spec. destruct (row_spec w0); reflexivity. }
  unfold bind at 1.
  rewrite (repeatM_ext good m_code (row <- rep_spec ;; ret (est row)));
    [| exact Hm | | exact Hw].
  2:{ intros w0 Hw0. eapply evolves_monotonic; [| exact Hw0].
      unfold m_code. revert w0 Hw0. intros w0 _.
      apply (respects_bind evolves evolves_trans); [apply repetition_evolves |].
      intros b. unfold putchar, fflush_stdout, usleep. evolving. }
  rewrite repeatM_map. fold (sample_rows op (Z.to_nat calls) (Z.to_nat iters) (Z.to_nat reps)).
  unfold sample_rows. fold row_spec. fold rep_spec.
  unfold bind.
  destruct (repeatM (Z.to_nat reps) rep_spec w) as [rows w1 | w1 | w1] eqn:E;
    try reflexivity.
  unfold ret. f_equal.
  destruct (repeatM_post good
              (fun row => Forall (in_long 0) row /\ List.length row = Z.to_nat iters)
              rep_spec rep_spec_post _ w rows w1 Hw E) as (Hrows & Hlen & _).
  unfold min_of_mins. fold est.
  assert (Hests : Forall (in_long 0) (map est rows)).
  { apply Forall_map. eapply Forall_impl; [| exact Hrows].
    intros row [Hrow Hl]. unfold est.
    assert (Hne : row <> []) by (intros ->; simpl in Hl; lia).
    destruct (fold_keep_min_list_min 0 row Hne Hrow) as [_ Hmin].
    unfold in_long in *. split.
    - apply Z.quot_pos; lia.
    - rewrite Z.quot_div_nonneg by lia.
      assert (list_min row / calls <= list_min row)
        by (apply Z.div_le_upper_bound; nia). lia. }
  assert (Hne : map est rows <> []).
  { destruct rows; [simpl in Hlen; lia | discriminate]. }
  apply (fold_keep_min_list_min 0 _ Hne Hests).
Qed.

End Measure.

(** ** The measured operations, run *)

Lemma fresh_id_above (l : list Z) : 3 <= fresh_id l /\ Forall (fun x => x < fresh_id l) l.
Proof.
  unfold fresh_id. induction l as [| x l [IH1 IH2]]; cbn [fold_right].
  - split; [lia | constructor].
  - split; [lia |]. constructor; [lia |].
    eapply Forall_impl; [| exact IH2]. cbn beta. intros y Hy. lia.
Qed.

Lemma mem_head (x : Z) (l : list Z) : mem x (x :: l) = true.
Proof. unfold mem. simpl. rewrite Z.eqb_refl. reflexivity. Qed.

Lemma remove_id_fresh (l : list Z) : remove_id (fresh_id l) (fresh_id l :: l) = l.
Proof.
  unfold remove_id. simpl. rewrite Z.eqb_refl. simpl.
  destruct (fresh_id_above l) as [_ H]. revert H.
  generalize (fresh_id l). intros f H.
  induction H as [| x l Hx _ IH]; simpl; [reflexivity |].
  destruct (Z.eqb_spec f x); [lia |]. simpl. rewrite IH. reflexivity.
Qed.

Lemma fresh_id_nonneg (l : list Z) : (0 <=? fresh_id l) = true.
Proof. destruct (fresh_id_above l) as [H _]. apply Z.leb_le. lia. Qed.

Lemma fresh_id_not_null (l : list Z) : (fresh_id l =? NULL) = false.
Proof. destruct (fresh_id_above l) as [H _]. apply Z.eqb_neq. unfold NULL. lia. Qed.

Lemma fresh_id_not_failed (l : list Z) : (fresh_id l =? MAP_FAILED) = false.
Proof.
  destruct (fresh_id_above l) as [H _]. apply Z.eqb_neq. unfold MAP_FAILED. lia.
Qed.

Ltac run_calls :=
  repeat
    (cbv [bind emit sys_open sys_mmap malloc memcpy sys_munmap sys_read sys_close
          free crash ret is_open is_mapping is_block];
     cbn [set_trace set_fds set_mappings set_blocks set_reads clock_readings
          clock_reads dev_openable map_allowed heap_available open_fds mappings
          heap_blocks trace andb negb];
     rewrite ?mem_head, ?fresh_id_nonneg, ?fresh_id_not_null, ?fresh_id_not_failed,
       ?remove_id_fresh;
     change (0 <=? -1) with false;
     change (NULL =? NULL) with true;
     change (MAP_FAILED =? MAP_FAILED) with true;
     cbn [andb negb]);
  rewrite <- ?app_assoc; cbn [app].

Lemma file_mb_run (w : World) :
  file_mb w = Done tt (set_trace w (trace w ++ file_mb_events w)).
Proof.
  unfold file_mb, file_mb_events. destruct w as [c r d m h fds maps blocks t].
  cbn [dev_openable heap_available open_fds heap_blocks trace].
  destruct d, h; run_calls; reflexivity.
Qed.

Lemma mmap_mb_run (w : World) :
  mmap_mb w = Done tt (set_trace w (trace w ++ mmap_mb_events w)).
Proof.
  unfold mmap_mb, mmap_mb_events. destruct w as [c r d m h fds maps blocks t].
  cbn [dev_openable map_allowed heap_available open_fds mappings heap_blocks trace].
  destruct d, m, h; run_calls; reflexivity.
Qed.

Lemma time_syscall_mb_run (w : World) :
  time_syscall_mb w
  = Done tt (set_reads (set_trace w (trace w ++ [Invoke TimeSyscallMb]))
                       (S (clock_reads w))).
Proof. reflexivity. Qed.

Lemma time_implicit_mb_run (w : World) :
  time_implicit_mb w
  = Done tt (set_reads (set_trace w (trace w ++ [Invoke TimeImplicitMb]))
                       (S (clock_reads w))).
Proof. reflexivity. Qed.

(** ** Summaries of stretches of a run *)

Lemma invocations_app (t1 t2 : list event) :
  invocations (t1 ++ t2) = invocations t1 ++ invocations t2.
Proof.
  induction t1 as [| e t1 IH]; simpl; [reflexivity |].
  destruct e; simpl; rewrite IH; reflexivity.
Qed.

Lemma string_app_assoc (a b c : string) :
  ((a ++ b) ++ c)%string = (a ++ (b ++ c))%string.
Proof. induction a as [| x a IH]; simpl; [reflexivity | rewrite IH; reflexivity]. Qed.

Lemma string_app_nil_r (a : string) : (a ++ EmptyString)%string = a.
Proof. induction a as [| x a IH]; simpl; [reflexivity | rewrite IH; reflexivity]. Qed.

Lemma stdout_text_app (t1 t2 : list event) :
  stdout_text (t1 ++ t2) = (stdout_text t1 ++ stdout_text t2)%string.
Proof.
  induction t1 as [| e t1 IH]; simpl; [reflexivity |].
  destruct e; simpl; rewrite IH; try reflexivity.
  rewrite string_app_assoc. reflexivity.
Qed.

Lemma stderr_text_app (t1 t2 : list event) :
  stderr_text (t1 ++ t2) = (stderr_text t1 ++ stderr_text t2)%string.
Proof.
  induction t1 as [| e t1 IH]; simpl; [reflexivity |].
  destruct e; simpl; rewrite IH; try reflexivity.
  rewrite string_app_assoc. reflexivity.
Qed.

Lemma dots_add (a b : nat) : dots (a + b) = (dots a ++ dots b)%string.
Proof. induction a as [| a IH]; simpl; [reflexivity | rewrite IH; reflexivity]. Qed.

Lemma same_resources_refl (w : World) : same_resources w w.
Proof. repeat split. Qed.

Lemma same_resources_trans (w1 w2 w3 : World) :
  same_resources w1 w2 -> same_resources w2 w3 -> same_resources w1 w3.
Proof.
  unfold same_resources. intros (A1 & A2 & A3) (B1 & B2 & B3).
  repeat split; congruence.
Qed.

Ltac split_summary :=
  unfold step_summary; split; [| split; [| split; [| split]]].

Lemma step_summary_refl (w : World) : step_summary w w [] EmptyString.
Proof.
  split_summary.
  - rewrite app_nil_r. reflexivity.
  - rewrite string_app_nil_r. reflexivity.
  - reflexivity.
  - apply evolves_refl.
  - apply same_resources_refl.
Qed.

Lemma step_summary_trans (w1 w2 w3 : World) (o1 o2 : list bench_op) (s1 s2 : string) :
  step_summary w1 w2 o1 s1 -> step_summary w2 w3 o2 s2 ->
  step_summary w1 w3 (o1 ++ o2) (s1 ++ s2)%string.
Proof.
  intros (A1 & A2 & A3 & A4 & A5) (B1 & B2 & B3 & B4 & B5). split_summary.
  - rewrite B1, A1, app_assoc. reflexivity.
  - rewrite B2, A2, string_app_assoc. reflexivity.
  - congruence.
  - apply (evolves_trans w1 w2 w3 A4 B4).
  - apply (same_resources_trans w1 w2 w3 A5 B5).
Qed.

(** Appending events that are neither invocations nor output to standard
    error changes only what they write to standard output. *)
Lemma step_summary_trace (w : World) (T : list event) :
  stderr_text T = EmptyString ->
  step_summary w (set_trace w (trace w ++ T)) (invocations T) (stdout_text T).
Proof.
  intros HT. split_summary; cbn [trace set_trace].
  - apply invocations_app.
  - apply stdout_text_app.
  - rewrite stderr_text_app, HT, string_app_nil_r. reflexivity.
  - split; [repeat split | cbn; lia].
  - repeat split.
Qed.

Lemma step_summary_read (w : World) :
  step_summary w (set_reads w (S (clock_reads w))) [] EmptyString.
Proof.
  split_summary; cbn [trace set_reads].
  - rewrite app_nil_r. reflexivity.
  - rewrite string_app_nil_r. reflexivity.
  - reflexivity.
  - split; [repeat split | cbn; lia].
  - repeat split.
Qed.

(** An available operation returns, having been entered once and having
    released what it acquired. *)
Lemma measured_summary (op : bench_op) (w : World) :
  available op w ->
  exists w', measured op w = Done tt w' /\ step_summary w w' [op] EmptyString.
Proof.
  intros Hav. destruct op; cbn [measured].
  - rewrite time_syscall_mb_run. eexists. split; [reflexivity |].
    eapply (step_summary_trans w _ _ [TimeSyscallMb] [] EmptyString EmptyString);
      [apply (step_summary_trace w [Invoke TimeSyscallMb]); reflexivity
      | exact (step_summary_read (set_trace w (trace w ++ [Invoke TimeSyscallMb])))].
  - rewrite time_implicit_mb_run. eexists. split; [reflexivity |].
    eapply (step_summary_trans w _ _ [TimeImplicitMb] [] EmptyString EmptyString);
      [apply (step_summary_trace w [Invoke TimeImplicitMb]); reflexivity
      | exact (step_summary_read (set_trace w (trace w ++ [Invoke TimeImplicitMb])))].
  - destruct Hav as (H1 & H2 & H3). rewrite mmap_mb_run.
    eexists. split; [reflexivity |].
    replace [MmapMb] with (invocations (mmap_mb_events w))
      by (unfold mmap_mb_events; rewrite H1, H2, H3; reflexivity).
    replace EmptyString with (stdout_text (mmap_mb_events w))
      by (unfold mmap_mb_events; rewrite H1, H2, H3; reflexivity).
    apply step_summary_trace. unfold mmap_mb_events. rewrite H1, H2, H3. reflexivity.
  - rewrite file_mb_run. eexists. split; [reflexivity |].
    change [FileMb] with (invocations (file_mb_events w)).
    change EmptyString with (stdout_text (file_mb_events w)).
    apply step_summary_trace. reflexivity.
Qed.

Lemma repeat_add {A : Type} (x : A) (a b : nat) :
  repeat x (a + b) = repeat x a ++ repeat x b.
Proof. induction a as [| a IH]; simpl; [reflexivity | rewrite IH; reflexivity]. Qed.

(** [n] passes that each return and each enter [op] [k] times and write [d]
    markers return, having entered [op] [n * k] times and written [n * d]
    markers. *)
Lemma iterate_summary {St : Type} (op : bench_op) (k d : nat) (body : St -> M St) :
  (forall s w, available op w ->
     exists s' w', body s w = Done s' w' /\ step_summary w w' (repeat op k) (dots d)) ->
  forall (n : nat) (s : St) (w : World),
    available op w ->
    exists s' w', iterate n body s w = Done s' w' /\
                  step_summary w w' (repeat op (n * k)) (dots (n * d)).
Proof.
  intros Hbody n. induction n as [| n IH]; intros s w Hav; simpl.
  - exists s, w. split; [reflexivity | apply step_summary_refl].
  - destruct (Hbody s w Hav) as (s1 & w1 & E1 & S1).
    assert (Hav1 : available op w1).
    { eapply available_evolves; [| exact Hav]. apply S1. }
    destruct (IH s1 w1 Hav1) as (s2 & w2 & E2 & S2).
    exists s2, w2. split.
    + unfold bind. rewrite E1. exact E2.
    + rewrite repeat_add, dots_add. eapply step_summary_trans; eassumption.
Qed.

Lemma timed_sample_fuel (fuel1 fuel2 : nat) (inner_call : bench_impl) (calls : Z)
    (w : World) :
  calls <= UINT_MAX ->
  (Z.to_nat calls < fuel1)%nat -> (Z.to_nat calls < fuel2)%nat ->
  timed_sample fuel1 inner_call calls w = timed_sample fuel2 inner_call calls w.
Proof.
  intros Hc H1 H2. unfold timed_sample.
  apply bind_ext_at; [reflexivity |]. intros before w1 _.
  apply bind_ext_at; [| reflexivity].
  rewrite !for_loop_iterate by lia. reflexivity.
Qed.

Lemma repetition_fuel (fuel1 fuel2 : nat) (inner_call : bench_impl) (calls iters : Z)
    (w : World) :
  calls <= UINT_MAX -> iters <= UINT_MAX ->
  (Z.to_nat calls < fuel1)%nat -> (Z.to_nat calls < fuel2)%nat ->
  (Z.to_nat iters < fuel1)%nat -> (Z.to_nat iters < fuel2)%nat ->
  repetition fuel1 inner_call calls iters w = repetition fuel2 inner_call calls iters w.
Proof.
  intros Hc Hi C1 C2 I1 I2. unfold repetition.
  apply bind_ext_at; [| reflexivity].
  rewrite !for_loop_iterate by lia.
  apply (iterate_ext (fun _ => True)); [| auto | exact I].
  intros s w0 _. apply bind_ext_at; [| reflexivity].
  apply timed_sample_fuel; assumption.
Qed.

(** With fuel for every pass of every loop, more fuel changes nothing. *)
Lemma run_bench_ns_fuel (fuel1 fuel2 : nat) (inner_call : bench_impl)
    (calls iters reps : Z) (w : World) :
  calls <= UINT_MAX -> iters <= UINT_MAX -> reps <= UINT_MAX ->
  (Z.to_nat (Z.max calls (Z.max iters reps)) < fuel1)%nat ->
  (Z.to_nat (Z.max calls (Z.max iters reps)) < fuel2)%nat ->
  run_bench_ns fuel1 inner_call calls iters reps w
  = run_bench_ns fuel2 inner_call calls iters reps w.
Proof.
  intros Hc Hi Hr F1 F2. unfold run_bench_ns.
  rewrite !for_loop_iterate by lia.
  apply (iterate_ext (fun _ => True)); [| auto | exact I].
  intros s w0 _. apply bind_ext_at; [| reflexivity].
  apply repetition_fuel; lia.
Qed.

Section Summary.
Variable op : bench_op.
Variables calls iters reps : Z.
Variable fuel : nat.
Hypothesis calls_range : 1 <= calls <= UINT_MAX.
Hypothesis iters_range : 0 <= iters <= UINT_MAX.
Hypothesis reps_range : 0 <= reps <= UINT_MAX.
Hypothesis enough : (Z.to_nat (Z.max calls (Z.max iters reps)) < fuel)%nat.

Lemma timed_sample_summary (w : World) :
  available op w ->
  exists e w', timed_sample fuel (measured op) calls w = Done e w' /\
               step_summary w w' (repeat op (Z.to_nat calls)) EmptyString.
Proof.
  intros Hav. unfold timed_sample.
  destruct (iterate_summary op 1 0 (fun _ : unit => measured op)) with
    (n := Z.to_nat calls) (s := tt) (w := set_reads w (S (clock_reads w)))
    as ([] & w2 & E2 & S2).
  { intros [] w0 Hav0. destruct (measured_summary op w0 Hav0) as (w' & E & Sm).
    exists tt, w'. split; assumption. }
  { eapply available_evolves; [| exact Hav]. apply (step_summary_read w). }
  eexists. eexists. split.
  - unfold bind, clock_gettime. rewrite for_loop_iterate by lia.
    replace (calls - 0) with calls by lia. rewrite E2. reflexivity.
  - rewrite Nat.mul_1_r, Nat.mul_0_r in S2.
    pose proof (step_summary_trans _ _ _ _ _ _ _ (step_summary_read w) S2) as S3.
    pose proof (step_summary_trans _ _ _ _ _ _ _ S3 (step_summary_read w2)) as S4.
    simpl in S4. rewrite app_nil_r in S4. exact S4.
Qed.

Lemma repetition_summary (w : World) :
  available op w ->
  exists b w', repetition fuel (measured op) calls iters w = Done b w' /\
               step_summary w w' (repeat op (Z.to_nat iters * Z.to_nat calls))
                            EmptyString.
Proof.
  intros Hav. unfold repetition.
  destruct (iterate_summary op (Z.to_nat calls) 0
              (fun best_ns2 =>
                 elapsed_ns <- timed_sample fuel (measured op) calls ;;
                 ret (keep_min best_ns2 elapsed_ns)))
    with (n := Z.to_nat iters) (s := LONG_MAX) (w := w) as (b & w1 & E1 & S1).
  { intros s w0 Hav0. destruct (timed_sample_summary w0 Hav0) as (e & w' & E & Sm).
    exists (keep_min s e), w'. split; [| exact Sm].
    unfold bind. rewrite E. reflexivity. }
  { exact Hav. }
  exists (to_long (to_ulong b / calls)), w1. split.
  - unfold bind at 1. rewrite for_loop_iterate by lia.
    replace (iters - 0) with iters by lia. rewrite E1.
    unfold div_assign. destruct (Z.eqb_spec calls 0); [lia | reflexivity].
  - rewrite Nat.mul_0_r in S1. exact S1.
Qed.

Lemma run_bench_ns_summary (w : World) :
  available op w ->
  exists r w', run_bench_ns fuel (measured op) calls iters reps w = Done r w' /\
               step_summary w w'
                 (repeat op (Z.to_nat reps * (Z.to_nat iters * Z.to_nat calls)))
                 (dots (Z.to_nat reps)).
Proof.
  intros Hav. unfold run_bench_ns.
  rewrite for_loop_iterate by lia. replace (reps - 0) with reps by lia.
  replace (dots (Z.to_nat reps)) with (dots (Z.to_nat reps * 1))
    by (rewrite Nat.mul_1_r; reflexivity).
  apply iterate_summary; [| exact Hav].
  intros s w0 Hav0.
  destruct (repetition_summary w0 Hav0) as (b & w1 & E1 & S1).
  eexists. eexists. split.
  - unfold bind. rewrite E1. reflexivity.
  - pose proof (step_summary_trace w1 [Stdout "."; Fflush; Usleep (US_PER_SEC / 8)]
                  eq_refl) as S2.
    pose proof (step_summary_trans _ _ _ _ _ _ _ S1 S2) as S3.
    cbn [invocations stdout_text] in S3. rewrite app_nil_r in S3.
    unfold set_trace in *. cbn [trace] in *. rewrite <- !app_assoc. exact S3.
Qed.

End Summary.

(** Within the counters' reach, on an operation whose acquisitions succeed, the
    loop returns; it has then entered the operation [reps * iters * calls]
    times and written one marker per repetition. *)
Lemma run_bench_ns_returns (op : bench_op) (calls iters reps : Z) (w : World) :
  1 <= calls <= UINT_MAX -> 0 <= iters <= UINT_MAX -> 0 <= reps <= UINT_MAX ->
  available op w ->
  exists r w',
    returns (fun fuel => run_bench_ns fuel (measured op) calls iters reps) w r w' /\
    step_summary w w'
      (repeat op (Z.to_nat reps * (Z.to_nat iters * Z.to_nat calls)))
      (dots (Z.to_nat reps)).
Proof.
  intros Hc Hi Hr Hav.
  set (fuel0 := S (Z.to_nat (Z.max calls (Z.max iters reps)))).
  destruct (run_bench_ns_summary op calls iters reps fuel0 Hc Hi Hr
              ltac:(unfold fuel0; lia) w Hav) as (r & w' & E & Sm).
  exists r, w'. split; [| exact Sm].
  exists fuel0. intros fuel Hfuel. rewrite <- E.
  apply run_bench_ns_fuel; unfold fuel0 in *; lia.
Qed.

Lemma sample_rows_shape (op : bench_op) (calls iters reps : nat) (w : World)
    (rows : list (list Z)) (w' : World) :
  sample_rows op calls iters reps w = Done rows w' ->
  List.length rows = reps /\ Forall (fun row => List.length row = iters) rows.
Proof.
  intros E. unfold sample_rows in E.
  destruct (repeatM_post (fun _ => True) (fun row : list Z => List.length row = iters)
              (row <- repeatM iters (elapsed_sample op calls) ;; progress_pause ;; ret row))
    with (n := reps) (w := w) (xs := rows) (w' := w') as (H1 & H2 & _);
    [| exact I | exact E | split; assumption].
  intros w0 row w1 _ E0. split; [| exact I].
  apply bind_done in E0. destruct E0 as (row' & w2 & E1 & E0).
  apply bind_done in E0. destruct E0 as ([] & w3 & _ & E0).
  unfold ret in E0. injection E0 as <- <-.
  destruct (repeatM_post (fun _ => True) (fun _ : Z => True)
              (elapsed_sample op calls)) with (n := iters) (w := w0) (xs := row') (w' := w2)
    as (_ & H & _); auto.
Qed.

(** The loop on a monotonic clock: what it returns, and that it is not
    negative. *)
Lemma run_bench_ns_measures (op : bench_op) (calls iters reps : Z) (w : World) :
  1 <= calls <= UINT_MAX -> 1 <= iters <= UINT_MAX -> 1 <= reps <= UINT_MAX ->
  monotonic (clock_readings w) -> available op w ->
  exists rows w',
    sample_rows op (Z.to_nat calls) (Z.to_nat iters) (Z.to_nat reps) w = Done rows w' /\
    returns (fun fuel => run_bench_ns fuel (measured op) calls iters reps) w
            (min_of_mins calls rows) w' /\
    0 <= min_of_mins calls rows.
Proof.
  intros Hc Hi Hr Hmono Hav.
  destruct (run_bench_ns_returns op calls iters reps w ltac:(lia) ltac:(lia)
              ltac:(lia) Hav) as (r & w' & [fuel0 Hret] & _).
  set (fuel := Nat.max fuel0 (S (Z.to_nat (Z.max calls (Z.max iters reps))))).
  pose proof (Hret fuel ltac:(unfold fuel; lia)) as E.
  rewrite (run_bench_ns_spec op calls iters reps fuel) in E;
    try (unfold fuel; lia); try assumption.
  apply bind_done in E. destruct E as (rows & w1 & Erows & E).
  unfold ret in E. injection E as <- <-.
  exists rows, w1. split; [exact Erows |]. split.
  - exists fuel0. exact Hret.
  - destruct (sample_rows_shape _ _ _ _ _ _ _ Erows) as [Hlen _].
    unfold sample_rows in Erows.
    destruct (repeatM_post (fun w => monotonic (clock_readings w))
                (fun row => Forall (in_long 0) row /\ List.length row = Z.to_nat iters)
                _ (rep_spec_post op calls iters) _ w rows w1 Hmono Erows)
      as (Hrows & _ & _).
    unfold min_of_mins.
    assert (Hests : Forall (in_long 0)
                      (map (fun row => Z.quot (list_min row) calls) rows)).
    { apply Forall_map. eapply Forall_impl; [| exact Hrows].
      intros row [Hrow Hl].
      assert (Hne : row <> []) by (intros ->; simpl in Hl; lia).
      destruct (fold_keep_min_list_min 0 row Hne Hrow) as [_ Hmin].
      destruct (div_assign_quot (list_min row) calls w Hmin ltac:(lia)) as [_ Hq].
      exact Hq. }
    assert (Hne : map (fun row => Z.quot (list_min row) calls) rows <> []).
    { destruct rows; [simpl in Hlen; lia | discriminate]. }
    destruct (fold_keep_min_list_min 0 _ Hne Hests) as [_ [H0 _]]. exact H0.
Qed.

(** ** Beyond the counters' reach *)

Lemma bind_not_done_after {A B : Type} (m : M A) (k : A -> M B) (w : World) :
  (forall a w1, m w = Done a w1 -> forall b w2, k a w1 <> Done b w2) ->
  forall b w2, bind m k w <> Done b w2.
Proof.
  intros Hk b w2 H. apply bind_done in H. destruct H as (a & w1 & Hm & H).
  exact (Hk a w1 Hm b w2 H).
Qed.

Lemma run_bench_ns_reps_unreachable (inner_call : bench_impl) (calls iters reps : Z)
    (w : World) :
  UINT_MAX < reps ->
  never_returns (fun fuel => run_bench_ns fuel inner_call calls iters reps) w.
Proof.
  intros Hr fuel r w'. unfold run_bench_ns.
  apply for_loop_never; [exact Hr | unfold UINT_MAX; lia].
Qed.

Lemma repetition_iters_unreachable (fuel : nat) (inner_call : bench_impl)
    (calls iters : Z) (w : World) :
  UINT_MAX < iters ->
  forall b w', repetition fuel inner_call calls iters w <> Done b w'.
Proof.
  intros Hi. unfold repetition. apply bind_not_done.
  apply for_loop_never; [exact Hi | unfold UINT_MAX; lia].
Qed.

Lemma run_bench_ns_iters_unreachable (inner_call : bench_impl) (calls iters reps : Z)
    (w : World) :
  UINT_MAX < iters -> 1 <= reps ->
  never_returns (fun fuel => run_bench_ns fuel inner_call calls iters reps) w.
Proof.
  intros Hi Hr fuel r w'. unfold run_bench_ns.
  apply for_loop_first_pass; [lia |].
  apply bind_not_done. apply repetition_iters_unreachable. exact Hi.
Qed.

Lemma run_bench_ns_calls_unreachable (inner_call : bench_impl) (calls iters reps : Z)
    (w : World) :
  UINT_MAX < calls -> 1 <= iters -> 1 <= reps ->
  never_returns (fun fuel => run_bench_ns fuel inner_call calls iters reps) w.
Proof.
  intros Hc Hi Hr fuel r w'. unfold run_bench_ns.
  apply for_loop_first_pass; [lia |].
  apply bind_not_done. unfold repetition. apply bind_not_done.
  apply for_loop_first_pass; [lia |].
  apply bind_not_done. unfold timed_sample.
  apply bind_not_done_after. intros before w1 _.
  apply bind_not_done.
  apply for_loop_never; [exact Hc | unfold UINT_MAX; lia].
Qed.

(** ** Within the counters' reach the loops stop *)

Lemma for_loop_halts {St : Type} (bound : Z) (body : St -> M St) :
  bound <= UINT_MAX ->
  (forall s w, halted (body s w)) ->
  forall (fuel : nat) (i : Z) (s : St) (w : World),
    0 <= i -> (Z.to_nat (bound - i) < fuel)%nat ->
    halted (for_loop fuel bound body i s w).
Proof.
  intros Hb Hbody fuel. induction fuel as [| fuel IH]; intros i s w Hi Hfuel; [lia |].
  simpl. destruct (Z.ltb_spec i bound) as [Hlt | Hge]; [| exact I].
  specialize (Hbody s w). destruct (body s w) as [s1 w1 | w1 | w1]; simpl in *; auto.
  rewrite to_uint_small by lia. apply IH; lia.
Qed.

Lemma measured_halts (op : bench_op) (w : World) : halted (measured op w).
Proof.
  destruct op; cbn [measured].
  - rewrite time_syscall_mb_run. exact I.
  - rewrite time_implicit_mb_run. exact I.
  - rewrite mmap_mb_run. exact I.
  - rewrite file_mb_run. exact I.
Qed.

Lemma run_bench_ns_halts (op : bench_op) (calls iters reps : Z) (w : World) :
  calls <= UINT_MAX -> iters <= UINT_MAX -> reps <= UINT_MAX ->
  terminates (fun fuel => run_bench_ns fuel (measured op) calls iters reps) w.
Proof.
  intros Hc Hi Hr.
  exists (S (Z.to_nat (Z.max calls (Z.max iters reps)))). intros fuel Hfuel.
  unfold run_bench_ns. apply for_loop_halts; [exact Hr | | lia | lia].
  intros best_ns1 w0. apply bind_halted.
  - unfold repetition. apply bind_halted.
    + apply for_loop_halts; [exact Hi | | lia | lia].
      intros best_ns2 w1. apply bind_halted; [| intros; exact I].
      unfold timed_sample. apply bind_halted; [exact I |]. intros before w2 _.
      apply bind_halted.
      * apply for_loop_halts; [exact Hc | | lia | lia].
        intros [] w3. apply measured_halts.
      * intros [] w3 _. exact I.
    + intros b w1 _. unfold div_assign. destruct (calls =? 0); exact I.
  - intros b w1 _. exact I.
Qed.

(** ** More fuel, more repetitions *)

Lemma for_loop_more_fuel {St : Type} (bound : Z) (body1 body2 : St -> M St) :
  (forall s w s' w', body1 s w = Done s' w' -> body2 s w = Done s' w') ->
  forall (fuel1 fuel2 : nat) (i : Z) (s : St) (w : World) (r : St) (w' : World),
    (fuel1 <= fuel2)%nat ->
    for_loop fuel1 bound body1 i s w = Done r w' ->
    for_loop fuel2 bound body2 i s w = Done r w'.
Proof.
  intros Hbody fuel1. induction fuel1 as [| fuel1 IH];
    intros fuel2 i s w r w' Hle E; simpl in E; [discriminate |].
  destruct fuel2 as [| fuel2]; [lia |]. simpl.
  destruct (i <? bound); [| exact E].
  destruct (body1 s w) as [s1 w1 | w1 | w1] eqn:E1; try discriminate.
  rewrite (Hbody s w s1 w1 E1). apply IH; [lia | exact E].
Qed.

Lemma bind_more {A B : Type} (m1 m2 : M A) (k1 k2 : A -> M B) (w : World)
    (b : B) (w2 : World) :
  (forall a w1, m1 w = Done a w1 -> m2 w = Done a w1) ->
  (forall a w1 b w2, k1 a w1 = Done b w2 -> k2 a w1 = Done b w2) ->
  bind m1 k1 w = Done b w2 -> bind m2 k2 w = Done b w2.
Proof.
  intros Hm Hk E. apply bind_done in E. destruct E as (a & w1 & E1 & E2).
  apply bind_done. exists a, w1. split; auto.
Qed.

Lemma run_bench_ns_more_fuel (fuel1 fuel2 : nat) (inner_call : bench_impl)
    (calls iters reps : Z) (w : World) (r : Z) (w' : World) :
  (fuel1 <= fuel2)%nat ->
  run_bench_ns fuel1 inner_call calls iters reps w = Done r w' ->
  run_bench_ns fuel2 inner_call calls iters reps w = Done r w'.
Proof.
  intros Hle. unfold run_bench_ns. apply for_loop_more_fuel; [| exact Hle].
  intros best_ns1 w0 s' w0'. apply bind_more; [| auto].
  intros b w1. unfold repetition. apply bind_more; [| auto].
  intros b' w2. apply for_loop_more_fuel; [| exact Hle].
  intros best_ns2 w3 s3 w3'. apply bind_more; [| auto].
  intros e w4. unfold timed_sample. apply bind_more; [auto |].
  intros before w5 e' w6. apply bind_more; [| auto].
  intros u w7. apply for_loop_more_fuel; [auto | exact Hle].
Qed.

Lemma for_loop_shrinks (bound : Z) (body : Z -> M Z) :
  (forall s w s' w', body s w = Done s' w' -> s' <= s) ->
  forall (fuel : nat) (i s : Z) (w : World) (r : Z) (w' : World),
    for_loop fuel bound body i s w = Done r w' -> r <= s.
Proof.
  intros Hbody fuel. induction fuel as [| fuel IH]; intros i s w r w' E;
    simpl in E; [discriminate |].
  destruct (i <? bound); [| injection E as <- <-; lia].
  destruct (body s w) as [s1 w1 | w1 | w1] eqn:E1; try discriminate.
  specialize (Hbody s w s1 w1 E1). specialize (IH _ _ _ _ _ E). lia.
Qed.

(** A loop with a larger bound passes through the state at which the loop
    with the smaller bound stops, and only lowers its minimum from there. *)
Lemma for_loop_longer (bound1 bound2 : Z) (body : Z -> M Z) :
  bound1 <= bound2 ->
  (forall s w s' w', body s w = Done s' w' -> s' <= s) ->
  forall (fuel : nat) (i s : Z) (w : World) (r1 r2 : Z) (w1 w2 : World),
    for_loop fuel bound1 body i s w = Done r1 w1 ->
    for_loop fuel bound2 body i s w = Done r2 w2 ->
    r2 <= r1.
Proof.
  intros Hb Hbody fuel. induction fuel as [| fuel IH];
    intros i s w r1 r2 w1 w2 E1 E2; [discriminate |].
  simpl in E1. destruct (Z.ltb_spec i bound1) as [Hlt | Hge].
  - simpl in E2. destruct (Z.ltb_spec i bound2) as [_ | ?]; [| lia].
    destruct (body s w) as [s' w' | w' | w']; try discriminate.
    exact (IH _ _ _ _ _ _ _ E1 E2).
  - injection E1 as <- <-.
    exact (for_loop_shrinks bound2 body Hbody _ _ _ _ _ _ E2).
Qed.

Lemma out_of_done {A : Type} (o : outcome A) (a : A) :
  out_of o = Some a -> exists w, o = Done a w.
Proof. destruct o; simpl; intros E; try discriminate. injection E as ->. eauto. Qed.

(** More repetitions from the same world never give a larger result. *)
Lemma run_bench_ns_longer (inner_call : bench_impl) (calls iters reps1 reps2 : Z)
    (w : World) (fuel1 fuel2 : nat) (r1 r2 : Z) :
  reps1 <= reps2 ->
  out_of (run_bench_ns fuel1 inner_call calls iters reps1 w) = Some r1 ->
  out_of (run_bench_ns fuel2 inner_call calls iters reps2 w) = Some r2 ->
  r2 <= r1.
Proof.
  intros Hr E1 E2.
  apply out_of_done in E1. destruct E1 as [w1 E1].
  apply out_of_done in E2. destruct E2 as [w2 E2].
  apply (run_bench_ns_more_fuel fuel1 (Nat.max fuel1 fuel2)) in E1; [| lia].
  apply (run_bench_ns_more_fuel fuel2 (Nat.max fuel1 fuel2)) in E2; [| lia].
  unfold run_bench_ns in E1, E2.
  refine (for_loop_longer reps1 reps2 _ Hr _ _ _ _ _ _ _ _ _ E1 E2).
  intros s w0 s' w0' E. apply bind_done in E. destruct E as (b & w3 & _ & E).
  cbv [bind putchar fflush_stdout usleep emit ret] in E. injection E as <- _.
  rewrite keep_min_min. lia.
Qed.

(** ** The sample world *)

Lemma world0_monotonic : monotonic (clock_readings world0).
Proof.
  intros k. unfold world0, clock_readings, tape_clock, wf_timespec, nanoseconds,
    NS_PER_SEC, LONG_MAX.
  do 9 (destruct k as [| k]; [simpl; lia |]).
  simpl. lia.
Qed.

(** ** A cost that does not vary *)

Lemma measured_reads (op : bench_op) (w w' : World) :
  measured op w = Done tt w' ->
  clock_reads w' = (clock_reads w + reads_per_call op)%nat /\
  clock_readings w' = clock_readings w.
Proof.
  intros E. destruct op; cbn [measured reads_per_call] in *.
  - rewrite time_syscall_mb_run in E. injection E as <-. cbn. split; [lia | reflexivity].
  - rewrite time_implicit_mb_run in E. injection E as <-. cbn. split; [lia | reflexivity].
  - rewrite mmap_mb_run in E. injection E as <-. cbn. split; [lia | reflexivity].
  - rewrite file_mb_run in E. injection E as <-. cbn. split; [lia | reflexivity].
Qed.

Lemma iterate_reads (op : bench_op) (n : nat) (w w' : World) :
  iterate n (fun _ : unit => measured op) tt w = Done tt w' ->
  clock_reads w' = (clock_reads w + reads_per_call op * n)%nat /\
  clock_readings w' = clock_readings w.
Proof.
  revert w. induction n as [| n IH]; intros w E; simpl in E.
  - unfold ret in E. injection E as <-. split; [lia | reflexivity].
  - apply bind_done in E. destruct E as ([] & w1 & E1 & E).
    destruct (measured_reads op w w1 E1) as [R1 C1].
    destruct (IH w1 E) as [R2 C2]. split; [lia | congruence].
Qed.

Lemma steady_same_clock (op : bench_op) (calls d : Z) (w w' : World) :
  clock_readings w' = clock_readings w -> steady op calls d w -> steady op calls d w'.
Proof. intros E H k. unfold sample_cost. rewrite E. apply H. Qed.

Lemma steady_range (op : bench_op) (calls d : Z) (w : World) :
  steady op calls d w -> - 2 ^ 63 <= d <= LONG_MAX.
Proof. intros H. rewrite <- (H 0%nat). apply to_long_range. Qed.

(** On a steady cost every sample that is taken measures [d]. *)
Lemma timed_sample_steady (fuel : nat) (op : bench_op) (calls d : Z)
    (w : World) (e : Z) (w' : World) :
  steady op calls d w -> 0 <= calls <= UINT_MAX -> (Z.to_nat calls < fuel)%nat ->
  timed_sample fuel (measured op) calls w = Done e w' ->
  e = d /\ steady op calls d w'.
Proof.
  intros Hst Hc Hfuel E. unfold timed_sample in E.
  apply bind_done in E. destruct E as (before & w1 & E1 & E).
  unfold clock_gettime in E1. injection E1 as <- <-.
  apply bind_done in E. destruct E as ([] & w2 & E2 & E).
  rewrite for_loop_iterate in E2 by (simpl; lia).
  replace (calls - 0) with calls in E2 by lia.
  destruct (iterate_reads op _ _ _ E2) as [R2 C2]. cbn in R2, C2.
  apply bind_done in E. destruct E as (after & w3 & E3 & E).
  unfold clock_gettime in E3. injection E3 as <- <-.
  unfold ret in E. injection E as <- <-.
  split.
  - rewrite <- (Hst (clock_reads w)). unfold sample_cost.
    rewrite C2, R2. repeat f_equal. lia.
  - apply (steady_same_clock op calls d w); [| exact Hst]. cbn. exact C2.
Qed.

(** Passes that each apply [f], an idempotent step, leave [f s] behind. *)
Lemma iterate_settles {St : Type} (I : World -> Prop) (f : St -> St)
    (body : St -> M St) :
  (forall s w, I w -> exists w', body s w = Done (f s) w' /\ I w') ->
  (forall s, f (f s) = f s) ->
  forall (n : nat) (s : St) (w : World),
    I w ->
    exists w', iterate n body s w
               = Done (match n with O => s | S _ => f s end) w' /\ I w'.
Proof.
  intros Hbody Hf n. induction n as [| n IH]; intros s w Hw; simpl.
  - exists w. split; [reflexivity | exact Hw].
  - destruct (Hbody s w Hw) as (w1 & E1 & Hw1).
    destruct (IH (f s) w1 Hw1) as (w2 & E2 & Hw2).
    exists w2. split; [| exact Hw2].
    rewrite (bind_run _ _ _ _ _ E1), E2.
    destruct n; [reflexivity | rewrite Hf; reflexivity].
Qed.

Lemma keep_min_idempotent (x s : Z) : keep_min (keep_min s x) x = keep_min s x.
Proof. rewrite !keep_min_min. lia. Qed.

Section Steady.
Variable op : bench_op.
Variables calls iters reps d : Z.
Variable fuel : nat.
Hypothesis calls_range : 1 <= calls <= UINT_MAX.
Hypothesis iters_range : 0 <= iters <= UINT_MAX.
Hypothesis reps_range : 0 <= reps <= UINT_MAX.
Hypothesis enough : (Z.to_nat (Z.max calls (Z.max iters reps)) < fuel)%nat.

Let calm (w : World) : Prop := steady op calls d w /\ available op w.

Let quotient : Z := to_long (to_ulong (if 0 <? iters then d else LONG_MAX) / calls).

Lemma repetition_steady (w : World) :
  calm w ->
  exists w', repetition fuel (measured op) calls iters w = Done quotient w' /\ calm w'.
Proof.
  intros [Hst Hav].
  destruct (iterate_settles calm (fun best => keep_min best d)
              (fun best_ns2 =>
                 elapsed_ns <- timed_sample fuel (measured op) calls ;;
                 ret (keep_min best_ns2 elapsed_ns)))
    with (n := Z.to_nat iters) (s := LONG_MAX) (w := w) as (w1 & E1 & Hw1).
  { intros s w0 [Hst0 Hav0].
    destruct (timed_sample_summary op calls iters reps fuel calls_range iters_range
                enough w0 Hav0)
      as (e & w' & E & Sm).
    destruct (timed_sample_steady fuel op calls d w0 e w' Hst0 ltac:(lia) ltac:(lia) E)
      as [-> Hst'].
    exists w'. split; [rewrite (bind_run _ _ _ _ _ E); reflexivity |].
    split; [exact Hst' | eapply available_evolves; [apply Sm | exact Hav0]]. }
  { intros s. apply keep_min_idempotent. }
  { split; assumption. }
  exists w1. split; [| exact Hw1].
  unfold repetition. unfold bind at 1.
  rewrite for_loop_iterate by lia. replace (iters - 0) with iters by lia.
  rewrite E1. unfold div_assign.
  destruct (Z.eqb_spec calls 0); [lia |]. unfold ret, quotient. repeat f_equal.
  pose proof (steady_range op calls d w Hst) as Hd.
  destruct (Z.ltb_spec 0 iters).
  - destruct (Z.to_nat iters) eqn:En; [lia |]. rewrite keep_min_min. lia.
  - replace (Z.to_nat iters) with 0%nat by lia. reflexivity.
Qed.

Lemma run_bench_ns_steady (w : World) :
  steady op calls d w -> available op w ->
  exists w', run_bench_ns fuel (measured op) calls iters reps w
             = Done (steady_result d calls iters reps) w'.
Proof.
  intros Hst Hav.
  destruct (iterate_settles calm (fun best => keep_min best quotient)
              (fun best_ns1 =>
                 best_ns2 <- repetition fuel (measured op) calls iters ;;
                 putchar "." ;; fflush_stdout ;; usleep (US_PER_SEC / 8) ;;
                 ret (keep_min best_ns1 best_ns2)))
    with (n := Z.to_nat reps) (s := LONG_MAX) (w := w) as (w1 & E1 & _).
  { intros s w0 Hw0. destruct (repetition_steady w0 Hw0) as (w' & E & [Hst' Hav']).
    eexists. split.
    - rewrite (bind_run _ _ _ _ _ E). cbv zeta.
      unfold putchar, fflush_stdout, usleep. rewrite !bind_emit. reflexivity.
    - split.
      + apply (steady_same_clock op calls d w'); [reflexivity | exact Hst'].
      + destruct op; exact Hav'. }
  { intros s. apply keep_min_idempotent. }
  { split; assumption. }
  exists w1. unfold run_bench_ns.
  rewrite for_loop_iterate by lia. replace (reps - 0) with reps by lia.
  rewrite E1. f_equal. unfold steady_result. fold quotient.
  destruct (Z.ltb_spec 0 reps).
  - destruct (Z.to_nat reps) eqn:En; [lia |]. rewrite keep_min_min.
    pose proof (to_long_range (to_ulong (if 0 <? iters then d else LONG_MAX) / calls)).
    unfold quotient. lia.
  - replace (Z.to_nat reps) with 0%nat by lia. reflexivity.
Qed.

End Steady.

Lemma run_bench_ns_steady_returns (op : bench_op) (calls iters reps d : Z) (w : World) :
  1 <= calls <= UINT_MAX -> 0 <= iters <= UINT_MAX -> 0 <= reps <= UINT_MAX ->
  steady op calls d w -> available op w ->
  exists w',
    returns (fun fuel => run_bench_ns fuel (measured op) calls iters reps) w
            (steady_result d calls iters reps) w'.
Proof.
  intros Hc Hi Hr Hst Hav.
  set (fuel0 := S (Z.to_nat (Z.max calls (Z.max iters reps)))).
  destruct (run_bench_ns_steady op calls iters reps d fuel0 Hc Hi Hr
              ltac:(unfold fuel0; lia) w Hst Hav) as (w' & E).
  exists w', fuel0. intros fuel Hfuel. rewrite <- E.
  apply run_bench_ns_fuel; unfold fuel0 in *; lia.
Qed.

Lemma steady_result_monotone (d calls iters reps1 reps2 : Z) :
  reps1 < reps2 ->
  steady_result d calls iters reps2 <= steady_result d calls iters reps1.
Proof.
  intros Hlt. unfold steady_result.
  pose proof (to_long_range (to_ulong (if 0 <? iters then d else LONG_MAX) / calls)).
  destruct (Z.ltb_spec 0 reps1), (Z.ltb_spec 0 reps2); lia.
Qed.

Lemma to_long_sub (a b : Z) : to_long (to_long a - to_long b) = to_long (a - b).
Proof.
  unfold to_long. f_equal.
  replace ((a + 2 ^ 63) mod 2 ^ 64 - 2 ^ 63 - ((b + 2 ^ 63) mod 2 ^ 64 - 2 ^ 63) + 2 ^ 63)
    with ((a + 2 ^ 63) mod 2 ^ 64 - (b + 2 ^ 63) mod 2 ^ 64 + 2 ^ 63) by lia.
  rewrite <- Zplus_mod_idemp_l, <- Zminus_mod, Zplus_mod_idemp_l.
  f_equal. lia.
Qed.

Lemma to_long_idem (a : Z) : to_long (to_long a) = to_long a.
Proof. apply to_long_small. apply to_long_range. Qed.

(** One second per reading, whatever the hour: a steady cost. *)
Lemma second_clock_steady (cr : nat) (op : bench_op) (calls : Z) :
  0 <= calls <= UINT_MAX ->
  steady op calls
    (NS_PER_SEC * (1 + Z.of_nat (reads_per_call op) * calls))
    (mkWorld second_clock cr true true true [0; 1; 2] [] [] []).
Proof.
  intros Hc k. unfold sample_cost, true_ns, second_clock.
  cbn [clock_readings tv_sec tv_nsec].
  rewrite !Z.add_0_l, !to_long_idem, to_long_sub.
  replace (Z.of_nat (k + 1 + reads_per_call op * Z.to_nat calls))
    with (Z.of_nat k + 1 + Z.of_nat (reads_per_call op) * calls)
    by (rewrite !Nat2Z.inj_add, Nat2Z.inj_mul, Z2Nat.id; lia).
  replace ((Z.of_nat k + 1 + Z.of_nat (reads_per_call op) * calls) * NS_PER_SEC
           - Z.of_nat k * NS_PER_SEC)
    with (NS_PER_SEC * (1 + Z.of_nat (reads_per_call op) * calls)) by ring.
  apply to_long_small. unfold NS_PER_SEC, LONG_MAX, UINT_MAX in *.
  destruct op; cbn [reads_per_call]; lia.
Qed.

(** ** Which operations a run can enter *)

Section OnlyOps.
Variable P : bench_op -> bool.

Lemma only_ops_refl (w : World) : only_ops P w w.
Proof. exists []. rewrite app_nil_r. split; reflexivity. Qed.

Lemma only_ops_trans (w1 w2 w3 : World) :
  only_ops P w1 w2 -> only_ops P w2 w3 -> only_ops P w1 w3.
Proof.
  intros (l1 & E1 & H1) (l2 & E2 & H2). exists (l1 ++ l2).
  rewrite E2, E1, app_assoc, forallb_app, H1, H2. split; reflexivity.
Qed.

Lemma only_ops_same_trace (w w' : World) : trace w' = trace w -> only_ops P w w'.
Proof. intros E. exists []. rewrite E, app_nil_r. split; reflexivity. Qed.

Lemma only_ops_quiet (w w' : World) (e : event) :
  trace w' = trace w ++ [e] -> invocations [e] = [] -> only_ops P w w'.
Proof.
  intros E He. exists []. rewrite E, invocations_app, He. split; reflexivity.
Qed.

Lemma emit_only_ops (e : event) :
  invocations [e] = [] -> respects (only_ops P) (emit e).
Proof. intros He w. apply (only_ops_quiet w _ e); [reflexivity | exact He]. Qed.

Lemma invoke_only_ops (op : bench_op) :
  P op = true -> respects (only_ops P) (emit (Invoke op)).
Proof.
  intros Hop w. exists [op]. cbn [world_of emit trace set_trace].
  rewrite invocations_app. cbn. rewrite Hop. split; reflexivity.
Qed.

Ltac prim_only_ops :=
  intros w;
  cbv [world_of clock_gettime sys_open sys_mmap malloc memcpy sys_munmap sys_read
       sys_close free crash ret];
  repeat match goal with
         | |- context [if ?c then _ else _] => destruct c
         end;
  first [ apply only_ops_same_trace; reflexivity
        | eapply only_ops_quiet; [reflexivity | reflexivity] ].

Lemma clock_gettime_only_ops : respects (only_ops P) clock_gettime.
Proof. prim_only_ops. Qed.

Lemma sys_open_only_ops : respects (only_ops P) sys_open.
Proof. prim_only_ops. Qed.

Lemma sys_mmap_only_ops (fd : Z) : respects (only_ops P) (sys_mmap fd).
Proof. prim_only_ops. Qed.

Lemma malloc_only_ops : respects (only_ops P) malloc.
Proof. prim_only_ops. Qed.

Lemma memcpy_only_ops (dst src : Z) : respects (only_ops P) (memcpy dst src).
Proof. prim_only_ops. Qed.

Lemma sys_munmap_only_ops (addr : Z) : respects (only_ops P) (sys_munmap addr).
Proof. prim_only_ops. Qed.

Lemma sys_read_only_ops (fd buf : Z) : respects (only_ops P) (sys_read fd buf).
Proof. prim_only_ops. Qed.

Lemma sys_close_only_ops (fd : Z) : respects (only_ops P) (sys_close fd).
Proof. prim_only_ops. Qed.

Lemma free_only_ops (ptr : Z) : respects (only_ops P) (free ptr).
Proof. prim_only_ops. Qed.

Ltac only_ops_steps :=
  repeat first
    [ apply (respects_bind (only_ops P) only_ops_trans); [| intros ?]
    | apply (respects_ret (only_ops P) only_ops_refl)
    | apply emit_only_ops; reflexivity
    | apply clock_gettime_only_ops | apply sys_open_only_ops
    | apply sys_mmap_only_ops | apply malloc_only_ops | apply memcpy_only_ops
    | apply sys_munmap_only_ops | apply sys_read_only_ops
    | apply sys_close_only_ops | apply free_only_ops ].

Lemma measured_only_ops (op : bench_op) :
  P op = true -> respects (only_ops P) (measured op).
Proof.
  intros Hop.
  destruct op; cbv [measured time_syscall_mb time_implicit_mb mmap_mb file_mb];
    (apply (respects_bind (only_ops P) only_ops_trans);
     [apply invoke_only_ops; exact Hop | intros ?]);
    only_ops_steps.
Qed.

Lemma run_bench_ns_only_ops (fuel : nat) (op : bench_op) (calls iters reps : Z) :
  P op = true ->
  respects (only_ops P) (run_bench_ns fuel (measured op) calls iters reps).
Proof.
  intros Hop. unfold run_bench_ns.
  apply (respects_for_loop (only_ops P) only_ops_refl only_ops_trans).
  intros best_ns1.
  apply (respects_bind (only_ops P) only_ops_trans).
  - unfold repetition. apply (respects_bind (only_ops P) only_ops_trans).
    + apply (respects_for_loop (only_ops P) only_ops_refl only_ops_trans).
      intros best_ns2.
      apply (respects_bind (only_ops P) only_ops_trans);
        [| intros e; apply (respects_ret (only_ops P) only_ops_refl)].
      unfold timed_sample.
      apply (respects_bind (only_ops P) only_ops_trans);
        [apply clock_gettime_only_ops | intros before].
      apply (respects_bind (only_ops P) only_ops_trans).
      * apply (respects_for_loop (only_ops P) only_ops_refl only_ops_trans).
        intros _. apply measured_only_ops. exact Hop.
      * intros _. only_ops_steps.
    + intros b. unfold div_assign. destruct (calls =? 0).
      * intros w. apply only_ops_refl.
      * apply (respects_ret (only_ops P) only_ops_refl).
  - intros b. cbv zeta. unfold putchar, fflush_stdout, usleep. only_ops_steps.
Qed.

End OnlyOps.

Lemma bench_time_only_clock (fuel : nat) (argc : Z) (argv : list string) :
  respects (only_ops is_clock_op) (bench_time fuel argc argv).
Proof.
  unfold bench_time. cbv zeta. unfold printf, fflush_stdout.
  repeat first
    [ apply (respects_bind (only_ops is_clock_op) (only_ops_trans is_clock_op));
      [| intros ?]
    | apply (respects_ret (only_ops is_clock_op) (only_ops_refl is_clock_op))
    | apply emit_only_ops; reflexivity
    | apply (run_bench_ns_only_ops is_clock_op fuel TimeSyscallMb); reflexivity
    | apply (run_bench_ns_only_ops is_clock_op fuel TimeImplicitMb); reflexivity ].
Qed.

Lemma bench_file_only_file (fuel : nat) (argc : Z) (argv : list string) :
  respects (only_ops is_file_op) (bench_file fuel argc argv).
Proof.
  unfold bench_file. cbv zeta. unfold printf, fflush_stdout.
  repeat first
    [ apply (respects_bind (only_ops is_file_op) (only_ops_trans is_file_op));
      [| intros ?]
    | apply (respects_ret (only_ops is_file_op) (only_ops_refl is_file_op))
    | apply emit_only_ops; reflexivity
    | apply (run_bench_ns_only_ops is_file_op fuel MmapMb); reflexivity
    | apply (run_bench_ns_only_ops is_file_op fuel FileMb); reflexivity ].
Qed.

(** ** Reading the arguments *)

Lemma atoi_range (s : string) : - 2 ^ 31 <= atoi s < 2 ^ 31.
Proof. apply to_int_range. Qed.

Lemma to_ulong_int (v : Z) :
  - 2 ^ 31 <= v < 2 ^ 31 ->
  to_ulong v = (if v <? 0 then 2 ^ 64 + v else v) /\ ((to_ulong v =? 0) = (v =? 0)).
Proof.
  intros Hv. unfold to_ulong.
  destruct (Z.ltb_spec v 0) as [Hneg | Hpos].
  - assert (E : v mod 2 ^ 64 = 2 ^ 64 + v).
    { symmetry. apply (Z.mod_unique_pos v (2 ^ 64) (-1)); lia. }
    rewrite E. split; [reflexivity |].
    destruct (Z.eqb_spec (2 ^ 64 + v) 0), (Z.eqb_spec v 0); lia.
  - rewrite Z.mod_small by lia. split; reflexivity.
Qed.

Lemma get_arg_absent (argc : Z) (argv : list string) (index d : Z) :
  argc <= index -> get_arg argc argv index d = d.
Proof.
  intros H. unfold get_arg. destruct (Z.gtb_spec argc index); [lia | reflexivity].
Qed.

Lemma get_arg_present (argc : Z) (argv : list string) (index d : Z) :
  index < argc ->
  get_arg argc argv index d =
  let v := atoi (nth (Z.to_nat index) argv EmptyString) in
  if v =? 0 then d else if v <? 0 then 2 ^ 64 + v else v.
Proof.
  intros H. unfold get_arg. destruct (Z.gtb_spec argc index); [| lia].
  cbv zeta.
  destruct (to_ulong_int _ (atoi_range (nth (Z.to_nat index) argv EmptyString)))
    as [E1 E2].
  rewrite E2, E1. reflexivity.
Qed.

Lemma get_arg_in_reach (argc : Z) (argv : list string) (idx : nat) (d : Z) :
  0 <= atoi (nth idx argv EmptyString) -> 1 <= d <= UINT_MAX ->
  1 <= get_arg argc argv (Z.of_nat idx) d <= UINT_MAX.
Proof.
  intros Hv Hd. destruct (Z.lt_ge_cases (Z.of_nat idx) argc) as [Hlt | Hge].
  - rewrite get_arg_present by exact Hlt. cbv zeta. rewrite Nat2Z.id.
    pose proof (atoi_range (nth idx argv EmptyString)) as Hr.
    destruct (Z.eqb_spec (atoi (nth idx argv EmptyString)) 0); [exact Hd |].
    destruct (Z.ltb_spec (atoi (nth idx argv EmptyString)) 0); unfold UINT_MAX; lia.
  - rewrite get_arg_absent by exact Hge. exact Hd.
Qed.





Lemma bench_time_same_arguments (fuel : nat) (argc argc' : Z)
    (argv argv' : list string) (w : World) :
  get_arg argc argv 2 100000 = get_arg argc' argv' 2 100000 ->
  get_arg argc argv 3 32 = get_arg argc' argv' 3 32 ->
  get_arg argc argv 4 5 = get_arg argc' argv' 4 5 ->
  bench_time fuel argc argv w = bench_time fuel argc' argv' w.
Proof. intros G2 G3 G4. unfold bench_time. rewrite G2, G3, G4. reflexivity. Qed.

Lemma bench_file_same_arguments (fuel : nat) (argc argc' : Z)
    (argv argv' : list string) (w : World) :
  get_arg argc argv 2 100 = get_arg argc' argv' 2 100 ->
  get_arg argc argv 3 128 = get_arg argc' argv' 3 128 ->
  get_arg argc argv 4 5 = get_arg argc' argv' 4 5 ->
  bench_file fuel argc argv w = bench_file fuel argc' argv' w.
Proof. intros G2 G3 G4. unfold bench_file. rewrite G2, G3, G4. reflexivity. Qed.


Lemma nth_after_skipn (l : list string) (n j : nat) :
  nth j (skipn n l) EmptyString = nth (n + j) l EmptyString.
Proof.
  revert l. induction n as [| n IH]; intros l; [reflexivity |].
  destruct l as [| x l]; [destruct j; reflexivity |]. cbn. apply IH.
Qed.





(** ** The drivers and [main] *)

Lemma print_summary (s : string) (w : World) :
  step_summary w (set_trace w (trace w ++ [Stdout s])) [] s.
Proof.
  pose proof (step_summary_trace w [Stdout s] eq_refl) as H.
  cbn [invocations stdout_text] in H. rewrite string_app_nil_r in H. exact H.
Qed.

Lemma quiet_summary (e : event) (w : World) :
  invocations [e] = [] -> stdout_text [e] = EmptyString ->
  stderr_text [e] = EmptyString ->
  step_summary w (set_trace w (trace w ++ [e])) [] EmptyString.
Proof.
  intros H1 H2 H3. pose proof (step_summary_trace w [e] H3) as H.
  rewrite H1, H2 in H. exact H.
Qed.

(** A driver: a heading, the two operations measured with the same
    parameters, and one labelled line for each. *)
Lemma pair_returns (op1 op2 : bench_op) (calls iters reps : Z)
    (heading label1 label2 : string) (w : World) :
  1 <= calls <= UINT_MAX -> 0 <= iters <= UINT_MAX -> 0 <= reps <= UINT_MAX ->
  available op1 w -> available op2 w ->
  exists (r1 r2 : Z) (w' : World),
    returns
      (fun fuel =>
         printf heading ;;
         fflush_stdout ;;
         a <- run_bench_ns fuel (measured op1) calls iters reps ;;
         b <- run_bench_ns fuel (measured op2) calls iters reps ;;
         printf (LF ++ label1 ++ format_long a ++ " ns" ++ LF)%string ;;
         printf (label2 ++ format_long b ++ " ns" ++ LF)%string ;;
         ret 0) w 0 w' /\
    step_summary w w'
      (repeat op1 (Z.to_nat reps * (Z.to_nat iters * Z.to_nat calls)) ++
       repeat op2 (Z.to_nat reps * (Z.to_nat iters * Z.to_nat calls)))
      (heading ++ dots (Z.to_nat reps) ++ dots (Z.to_nat reps) ++
       (LF ++ label1 ++ format_long r1 ++ " ns" ++ LF) ++
       (label2 ++ format_long r2 ++ " ns" ++ LF))%string.
Proof.
  intros Hc Hi Hr Hav1 Hav2.
  set (wA := set_trace w (trace w ++ [Stdout heading])).
  set (wB := set_trace wA (trace wA ++ [Fflush])).
  pose proof (print_summary heading w) as SA. fold wA in SA.
  pose proof (quiet_summary Fflush wA eq_refl eq_refl eq_refl) as SB. fold wB in SB.
  pose proof (step_summary_trans _ _ _ _ _ _ _ SA SB) as SAB.
  assert (HavB1 : available op1 wB) by (eapply available_evolves; [apply SAB | exact Hav1]).
  destruct (run_bench_ns_returns op1 calls iters reps wB Hc Hi Hr HavB1)
    as (r1 & w1 & [f1 H1] & S1).
  pose proof (step_summary_trans _ _ _ _ _ _ _ SAB S1) as SAB1.
  assert (Hav12 : available op2 w1) by (eapply available_evolves; [apply SAB1 | exact Hav2]).
  destruct (run_bench_ns_returns op2 calls iters reps w1 Hc Hi Hr Hav12)
    as (r2 & w2 & [f2 H2] & S2).
  pose proof (step_summary_trans _ _ _ _ _ _ _ SAB1 S2) as SAB12.
  set (line1 := (LF ++ label1 ++ format_long r1 ++ " ns" ++ LF)%string).
  set (line2 := (label2 ++ format_long r2 ++ " ns" ++ LF)%string).
  set (wC := set_trace w2 (trace w2 ++ [Stdout line1])).
  set (wD := set_trace wC (trace wC ++ [Stdout line2])).
  pose proof (print_summary line1 w2) as SC. fold wC in SC.
  pose proof (print_summary line2 wC) as SD. fold wD in SD.
  pose proof (step_summary_trans _ _ _ _ _ _ _
                (step_summary_trans _ _ _ _ _ _ _ SAB12 SC) SD) as Sall.
  exists r1, r2, wD. split.
  - exists (Nat.max f1 f2). intros fuel Hfuel.
    unfold printf, fflush_stdout. rewrite !bind_emit.
    rewrite (bind_run _ _ _ _ _ (H1 fuel ltac:(lia))).
    rewrite (bind_run _ _ _ _ _ (H2 fuel ltac:(lia))).
    rewrite !bind_emit. reflexivity.
  - cbn [app] in Sall. rewrite !app_nil_r in Sall.
    rewrite string_app_nil_r, !string_app_assoc in Sall. exact Sall.
Qed.

Lemma to_nat_product (a b c : Z) :
  0 <= a -> 0 <= b -> 0 <= c ->
  (Z.to_nat c * (Z.to_nat b * Z.to_nat a))%nat = Z.to_nat (a * b * c).
Proof.
  intros Ha Hb Hc. rewrite !Z2Nat.inj_mul by nia.
  rewrite (Nat.mul_comm (Z.to_nat c)), (Nat.mul_comm (Z.to_nat b)). reflexivity.
Qed.

Lemma bench_time_returns (argc : Z) (argv : list string) (w : World) :
  1 <= get_arg argc argv 2 100000 <= UINT_MAX ->
  1 <= get_arg argc argv 3 32 <= UINT_MAX ->
  1 <= get_arg argc argv 4 5 <= UINT_MAX ->
  exists (r1 r2 : Z) (w' : World),
    returns (fun fuel => bench_time fuel argc argv) w 0 w' /\
    step_summary w w'
      (repeat TimeSyscallMb
         (Z.to_nat (get_arg argc argv 2 100000 * get_arg argc argv 3 32
                    * get_arg argc argv 4 5)) ++
       repeat TimeImplicitMb
         (Z.to_nat (get_arg argc argv 2 100000 * get_arg argc argv 3 32
                    * get_arg argc argv 4 5)))
      ("clock_gettime: " ++ dots (Z.to_nat (get_arg argc argv 4 5))
         ++ dots (Z.to_nat (get_arg argc argv 4 5))
         ++ (LF ++ "    syscall: " ++ format_long r1 ++ " ns" ++ LF)
         ++ ("    implicit: " ++ format_long r2 ++ " ns" ++ LF))%string.
Proof.
  intros Hc Hi Hr.
  destruct (pair_returns TimeSyscallMb TimeImplicitMb
              (get_arg argc argv 2 100000) (get_arg argc argv 3 32)
              (get_arg argc argv 4 5) "clock_gettime: "
              "    syscall: " "    implicit: " w Hc ltac:(lia) ltac:(lia) I I)
    as (r1 & r2 & w' & Hret & Sm).
  exists r1, r2, w'. split; [exact Hret |].
  rewrite <- to_nat_product by lia. exact Sm.
Qed.

Lemma bench_file_returns (argc : Z) (argv : list string) (w : World) :
  1 <= get_arg argc argv 2 100 <= UINT_MAX ->
  1 <= get_arg argc argv 3 128 <= UINT_MAX ->
  1 <= get_arg argc argv 4 5 <= UINT_MAX ->
  available MmapMb w ->
  exists (r1 r2 : Z) (w' : World),
    returns (fun fuel => bench_file fuel argc argv) w 0 w' /\
    step_summary w w'
      (repeat MmapMb
         (Z.to_nat (get_arg argc argv 2 100 * get_arg argc argv 3 128
                    * get_arg argc argv 4 5)) ++
       repeat FileMb
         (Z.to_nat (get_arg argc argv 2 100 * get_arg argc argv 3 128
                    * get_arg argc argv 4 5)))
      ("file read: " ++ dots (Z.to_nat (get_arg argc argv 4 5))
         ++ dots (Z.to_nat (get_arg argc argv 4 5))
         ++ (LF ++ "    mmap: " ++ format_long r1 ++ " ns" ++ LF)
         ++ ("    read: " ++ format_long r2 ++ " ns" ++ LF))%string.
Proof.
  intros Hc Hi Hr Hav.
  destruct (pair_returns MmapMb FileMb
              (get_arg argc argv 2 100) (get_arg argc argv 3 128)
              (get_arg argc argv 4 5) "file read: "
              "    mmap: " "    read: " w Hc ltac:(lia) ltac:(lia) Hav I)
    as (r1 & r2 & w' & Hret & Sm).
  exists r1, r2, w'. split; [exact Hret |].
  rewrite <- to_nat_product by lia. exact Sm.
Qed.

Lemma main_time_only (fuel : nat) (argv : list string) (w w' : World) :
  (2 <= List.length argv)%nat -> mode_of argv = "t"%char ->
  bench_time fuel (Z.of_nat (List.length argv)) argv w = Done 0 w' ->
  run_program fuel argv w = Done 0 w'.
Proof.
  intros Hlen Hmode E. unfold run_program, main.
  destruct (Z.geb_spec (Z.of_nat (List.length argv)) 2) as [_ | ?]; [| lia].
  fold (mode_of argv). rewrite Hmode. cbn [andb negb orb ascii_eqb Ascii.eqb Bool.eqb].
  rewrite (bind_run _ _ _ _ _ E). reflexivity.
Qed.

Lemma main_file_only (fuel : nat) (argv : list string) (w w' : World) :
  (2 <= List.length argv)%nat -> mode_of argv = "f"%char ->
  bench_file fuel (Z.of_nat (List.length argv)) argv w = Done 0 w' ->
  run_program fuel argv w = Done 0 w'.
Proof.
  intros Hlen Hmode E. unfold run_program, main.
  destruct (Z.geb_spec (Z.of_nat (List.length argv)) 2) as [_ | ?]; [| lia].
  fold (mode_of argv). rewrite Hmode. cbn [andb negb orb ascii_eqb Ascii.eqb Bool.eqb].
  unfold bind at 1. unfold ret at 1. cbn [Z.eqb negb].
  unfold bind at 1. unfold ret at 1.
  rewrite (bind_run _ _ _ _ _ E). reflexivity.
Qed.

Lemma main_all (fuel : nat) (argv : list string) (w w1 w2 : World) :
  (List.length argv < 2)%nat \/ mode_of argv = "a"%char ->
  bench_time fuel (Z.of_nat (List.length argv)) argv w = Done 0 w1 ->
  bench_file fuel (Z.of_nat (List.length argv)) argv
             (set_trace w1 (trace w1 ++ [Stdout LF])) = Done 0 w2 ->
  run_program fuel argv w = Done 0 w2.
Proof.
  intros Hmode E1 E2. unfold run_program, main.
  assert (Hm : (if Z.of_nat (List.length argv) >=? 2
                then tolower (first_char (nth 1 argv EmptyString))
                else "a"%char) = "a"%char).
  { destruct (Z.geb_spec (Z.of_nat (List.length argv)) 2); [| reflexivity].
    destruct Hmode as [? | Hmode]; [lia | exact Hmode]. }
  rewrite Hm. cbn [andb negb orb ascii_eqb Ascii.eqb Bool.eqb].
  rewrite andb_false_r.
  rewrite (bind_run _ _ _ _ _ E1). cbn [Z.eqb negb].
  unfold putchar. rewrite bind_emit.
  change (String (ascii_of_nat 10) EmptyString) with LF.
  rewrite (bind_run _ _ _ _ _ E2). reflexivity.
Qed.

Lemma tuning_in_reach (argv : list string) (idx : nat) (d : Z) :
  tuning_ok argv -> (2 <= idx <= 4)%nat -> 1 <= d <= UINT_MAX ->
  1 <= get_arg (Z.of_nat (List.length argv)) argv (Z.of_nat idx) d <= UINT_MAX.
Proof. intros Hok Hidx Hd. apply get_arg_in_reach; [apply Hok; exact Hidx | exact Hd]. Qed.

Ltac tuning idx d :=
  apply (tuning_in_reach _ idx d); [assumption | lia | unfold UINT_MAX; lia].

(** The clock pair alone. *)
Lemma run_time_mode (argv : list string) (w : World) :
  tuning_ok argv -> (2 <= List.length argv)%nat -> mode_of argv = "t"%char ->
  exists (r1 r2 : Z) (w' : World),
    returns (fun fuel => run_program fuel argv) w 0 w' /\
    step_summary w w'
      (repeat TimeSyscallMb (time_invocations argv) ++
       repeat TimeImplicitMb (time_invocations argv))
      ("clock_gettime: "
         ++ dots (Z.to_nat (get_arg (Z.of_nat (List.length argv)) argv 4 5))
         ++ dots (Z.to_nat (get_arg (Z.of_nat (List.length argv)) argv 4 5))
         ++ (LF ++ "    syscall: " ++ format_long r1 ++ " ns" ++ LF)
         ++ ("    implicit: " ++ format_long r2 ++ " ns" ++ LF))%string.
Proof.
  intros Hok Hlen Hmode.
  destruct (bench_time_returns (Z.of_nat (List.length argv)) argv w)
    as (r1 & r2 & w' & [f0 Hret] & Sm);
    [tuning 2%nat 100000 | tuning 3%nat 32 | tuning 4%nat 5 |].
  exists r1, r2, w'. split; [| exact Sm].
  exists f0. intros fuel Hfuel.
  apply main_time_only; [exact Hlen | exact Hmode | apply Hret; exact Hfuel].
Qed.

(** The file pair alone. *)
Lemma run_file_mode (argv : list string) (w : World) :
  tuning_ok argv -> (2 <= List.length argv)%nat -> mode_of argv = "f"%char ->
  available MmapMb w ->
  exists (w' : World),
    returns (fun fuel => run_program fuel argv) w 0 w' /\
    invocations (trace w')
    = invocations (trace w) ++
      repeat MmapMb (file_invocations argv) ++ repeat FileMb (file_invocations argv).
Proof.
  intros Hok Hlen Hmode Hav.
  destruct (bench_file_returns (Z.of_nat (List.length argv)) argv w)
    as (r1 & r2 & w' & [f0 Hret] & Sm);
    [tuning 2%nat 100 | tuning 3%nat 128 | tuning 4%nat 5 | exact Hav |].
  exists w'. split; [| apply Sm].
  exists f0. intros fuel Hfuel.
  apply main_file_only; [exact Hlen | exact Hmode | apply Hret; exact Hfuel].
Qed.

(** Both pairs, the clock pair first. *)
Lemma run_all_mode (argv : list string) (w : World) :
  tuning_ok argv -> (List.length argv < 2)%nat \/ mode_of argv = "a"%char ->
  available MmapMb w ->
  exists (w' : World),
    returns (fun fuel => run_program fuel argv) w 0 w' /\
    invocations (trace w')
    = invocations (trace w) ++
      repeat TimeSyscallMb (time_invocations argv) ++
      repeat TimeImplicitMb (time_invocations argv) ++
      repeat MmapMb (file_invocations argv) ++ repeat FileMb (file_invocations argv).
Proof.
  intros Hok Hmode Hav.
  destruct (bench_time_returns (Z.of_nat (List.length argv)) argv w)
    as (r1 & r2 & w1 & [f1 Hret1] & S1);
    [tuning 2%nat 100000 | tuning 3%nat 32 | tuning 4%nat 5 |].
  pose proof (print_summary LF w1) as SL.
  pose proof (step_summary_trans _ _ _ _ _ _ _ S1 SL) as S1L.
  destruct (bench_file_returns (Z.of_nat (List.length argv)) argv
              (set_trace w1 (trace w1 ++ [Stdout LF])))
    as (r3 & r4 & w2 & [f2 Hret2] & S2);
    [tuning 2%nat 100 | tuning 3%nat 128 | tuning 4%nat 5
    | eapply available_evolves; [apply S1L | exact Hav] |].
  exists w2. split.
  - exists (Nat.max f1 f2). intros fuel Hfuel.
    apply (main_all fuel argv w w1 w2 Hmode); [apply Hret1 | apply Hret2]; lia.
  - destruct (step_summary_trans _ _ _ _ _ _ _ S1L S2) as [Hinv _].
    rewrite Hinv. rewrite app_nil_r, <- !app_assoc. reflexivity.
Qed.

Lemma time_invocations_positive (argv : list string) :
  tuning_ok argv -> (0 < time_invocations argv)%nat.
Proof.
  intros Hok. unfold time_invocations. cbv zeta.
  assert (1 <= get_arg (Z.of_nat (List.length argv)) argv 2 100000 <= UINT_MAX)
    by (change 2 with (Z.of_nat 2); tuning 2%nat 100000).
  assert (1 <= get_arg (Z.of_nat (List.length argv)) argv 3 32 <= UINT_MAX)
    by (change 3 with (Z.of_nat 3); tuning 3%nat 32).
  assert (1 <= get_arg (Z.of_nat (List.length argv)) argv 4 5 <= UINT_MAX)
    by (change 4 with (Z.of_nat 4); tuning 4%nat 5).
  nia.
Qed.

Lemma file_invocations_positive (argv : list string) :
  tuning_ok argv -> (0 < file_invocations argv)%nat.
Proof.
  intros Hok. unfold file_invocations. cbv zeta.
  assert (1 <= get_arg (Z.of_nat (List.length argv)) argv 2 100 <= UINT_MAX)
    by (change 2 with (Z.of_nat 2); tuning 2%nat 100).
  assert (1 <= get_arg (Z.of_nat (List.length argv)) argv 3 128 <= UINT_MAX)
    by (change 3 with (Z.of_nat 3); tuning 3%nat 128).
  assert (1 <= get_arg (Z.of_nat (List.length argv)) argv 4 5 <= UINT_MAX)
    by (change 4 with (Z.of_nat 4); tuning 4%nat 5).
  nia.
Qed.

Lemma clock_then_file_bind {A B : Type} (m : M A) (k : A -> M B) (w : World) :
  respects (only_ops is_clock_op) m ->
  (forall a, respects (only_ops is_file_op) (k a)) ->
  clock_then_file w (world_of (bind m k w)).
Proof.
  intros Hm Hk. unfold bind. specialize (Hm w).
  destruct (m w) as [a w1 | w1 | w1]; cbn [world_of] in *.
  - destruct Hm as (l1 & E1 & H1). destruct (Hk a w1) as (l2 & E2 & H2).
    exists l1, l2. rewrite E2, E1, app_assoc. repeat split; assumption.
  - destruct Hm as (l1 & E1 & H1). exists l1, []. rewrite app_nil_r.
    repeat split; assumption.
  - destruct Hm as (l1 & E1 & H1). exists l1, []. rewrite app_nil_r.
    repeat split; assumption.
Qed.

Ltac only_ops_tail P :=
  repeat first
    [ apply bench_time_only_clock
    | apply bench_file_only_file
    | apply (respects_ret (only_ops P) (only_ops_refl P))
    | apply emit_only_ops; reflexivity
    | apply (respects_bind (only_ops P) (only_ops_trans P)); [| intros ?; cbv beta]
    | match goal with
      | |- respects _ (if ?c then _ else _) => destruct c
      end ].

(** Whatever the tuning arguments and however far the run gets, mode [t]
    enters clock operations only. *)
Lemma time_mode_only_clock (fuel : nat) (argv : list string) (w : World) :
  (2 <= List.length argv)%nat -> mode_of argv = "t"%char ->
  only_ops is_clock_op w (world_of (run_program fuel argv w)).
Proof.
  intros Hlen Hmode. unfold run_program, main.
  destruct (Z.geb_spec (Z.of_nat (List.length argv)) 2) as [_ | ?]; [| lia].
  fold (mode_of argv). rewrite Hmode. cbn [andb negb orb ascii_eqb Ascii.eqb Bool.eqb].
  revert w. change (respects (only_ops is_clock_op)
    (r1 <- bench_time fuel (Z.of_nat (List.length argv)) argv ;;
     if negb (r1 =? 0) then ret r1
     else (ret tt ;; r2 <- ret 0 ;; if negb (r2 =? 0) then ret r2 else ret 0))).
  only_ops_tail is_clock_op.
Qed.

(** Mode [f] enters file operations only. *)
Lemma file_mode_only_file (fuel : nat) (argv : list string) (w : World) :
  (2 <= List.length argv)%nat -> mode_of argv = "f"%char ->
  only_ops is_file_op w (world_of (run_program fuel argv w)).
Proof.
  intros Hlen Hmode. unfold run_program, main.
  destruct (Z.geb_spec (Z.of_nat (List.length argv)) 2) as [_ | ?]; [| lia].
  fold (mode_of argv). rewrite Hmode. cbn [andb negb orb ascii_eqb Ascii.eqb Bool.eqb].
  revert w. change (respects (only_ops is_file_op)
    (r1 <- ret 0 ;;
     if negb (r1 =? 0) then ret r1
     else (ret tt ;;
           r2 <- bench_file fuel (Z.of_nat (List.length argv)) argv ;;
           if negb (r2 =? 0) then ret r2 else ret 0))).
  only_ops_tail is_file_op.
Qed.

(** Mode [a], or no mode, enters no clock operation after a file operation. *)
Lemma all_mode_clock_then_file (fuel : nat) (argv : list string) (w : World) :
  (List.length argv < 2)%nat \/ mode_of argv = "a"%char ->
  clock_then_file w (world_of (run_program fuel argv w)).
Proof.
  intros Hmode. unfold run_program, main.
  assert (Hm : (if Z.of_nat (List.length argv) >=? 2
                then tolower (first_char (nth 1 argv EmptyString))
                else "a"%char) = "a"%char).
  { destruct (Z.geb_spec (Z.of_nat (List.length argv)) 2); [| reflexivity].
    destruct Hmode as [? | Hmode]; [lia | exact Hmode]. }
  rewrite Hm. cbn [andb negb orb ascii_eqb Ascii.eqb Bool.eqb].
  rewrite andb_false_r.
  apply clock_then_file_bind; [apply bench_time_only_clock |].
  intros r1. unfold putchar. only_ops_tail is_file_op.
Qed.

(** ** Guarantees through the loops *)

(** [guards C I]: an invariant [I] of the world that every step keeps, with
    [C] what a fault would entail.  With [C := False] the computation cannot
    fault; with [C := True] nothing is said of a run that faults. *)
Section Guards.
Variable C : Prop.
Variable I : World -> Prop.

Lemma guards_ret {A : Type} (a : A) : guards C I (ret a).
Proof. intros w Hw. exact Hw. Qed.

Lemma guards_bind {A B : Type} (m : M A) (k : A -> M B) :
  guards C I m -> (forall a, guards C I (k a)) -> guards C I (bind m k).
Proof.
  intros Hm Hk w Hw. unfold bind. specialize (Hm w Hw).
  destruct (m w) as [a w1 | w1 | w1]; [exact (Hk a w1 Hm) | exact Hm | exact Hm].
Qed.

Lemma guards_for_loop {St : Type} (bound : Z) (body : St -> M St) :
  (forall s, guards C I (body s)) ->
  forall fuel i s, guards C I (for_loop fuel bound body i s).
Proof.
  intros Hbody fuel. induction fuel as [| fuel IH]; intros i s w Hw; cbn [for_loop].
  - exact Hw.
  - destruct (i <? bound); [| exact Hw].
    specialize (Hbody s w Hw).
    destruct (body s w) as [s1 w1 | w1 | w1]; [| exact Hbody | exact Hbody].
    exact (IH (to_uint (i + 1)) s1 w1 Hbody).
Qed.

Lemma guards_if {A : Type} (c : bool) (m1 m2 : M A) :
  guards C I m1 -> guards C I m2 -> guards C I (if c then m1 else m2).
Proof. destruct c; auto. Qed.

Hypothesis I_reads : forall w n, I w -> I (set_reads w n).

Lemma guards_clock_gettime : guards C I clock_gettime.
Proof. intros w Hw. apply I_reads. exact Hw. Qed.

Lemma guards_repetition (fuel : nat) (inner_call : bench_impl) (calls iters : Z) :
  guards C I inner_call -> (calls = 0 -> C) ->
  guards C I (repetition fuel inner_call calls iters).
Proof.
  intros Hic Hcalls. unfold repetition. apply guards_bind.
  - apply guards_for_loop. intros best_ns2.
    apply guards_bind; [| intros ?; apply guards_ret].
    unfold timed_sample.
    apply guards_bind; [apply guards_clock_gettime | intros before].
    apply guards_bind; [apply guards_for_loop; intros ?; exact Hic | intros ?].
    apply guards_bind; [apply guards_clock_gettime | intros after].
    apply guards_ret.
  - intros best_ns2 w Hw. unfold div_assign.
    destruct (Z.eqb_spec calls 0) as [E | N]; [exact (Hcalls E) | exact Hw].
Qed.

Hypothesis I_trace : forall w t, I w -> I (set_trace w t).

Lemma guards_emit (e : event) : guards C I (emit e).
Proof. intros w Hw. apply I_trace. exact Hw. Qed.

Lemma guards_run_bench_ns (fuel : nat) (inner_call : bench_impl) (calls iters reps : Z) :
  guards C I inner_call -> (calls = 0 -> C) ->
  guards C I (run_bench_ns fuel inner_call calls iters reps).
Proof.
  intros Hic Hcalls. unfold run_bench_ns.
  apply guards_for_loop. intros best_ns1.
  apply guards_bind; [apply guards_repetition; assumption |].
  intros best_ns2. cbv zeta.
  apply guards_bind; [apply guards_emit | intros ?].
  apply guards_bind; [apply guards_emit | intros ?].
  apply guards_bind; [apply guards_emit | intros ?].
  apply guards_ret.
Qed.

Lemma guards_pair (fuel : nat) (op1 op2 : bench_impl) (calls iters reps : Z)
    (heading label1 label2 : string) :
  guards C I op1 -> guards C I op2 -> (calls = 0 -> C) ->
  guards C I
    (printf heading ;;
     fflush_stdout ;;
     a <- run_bench_ns fuel op1 calls iters reps ;;
     b <- run_bench_ns fuel op2 calls iters reps ;;
     printf (LF ++ label1 ++ format_long a ++ " ns" ++ LF)%string ;;
     printf (label2 ++ format_long b ++ " ns" ++ LF)%string ;;
     ret 0).
Proof.
  intros H1 H2 Hc.
  apply guards_bind; [apply guards_emit | intros ?].
  apply guards_bind; [apply guards_emit | intros ?].
  apply guards_bind; [apply guards_run_bench_ns; assumption | intros ra].
  apply guards_bind; [apply guards_run_bench_ns; assumption | intros rb].
  apply guards_bind; [apply guards_emit | intros ?].
  apply guards_bind; [apply guards_emit | intros ?].
  apply guards_ret.
Qed.

End Guards.

(** ** The counts the command line can give *)

Lemma get_arg_cases (argc : Z) (argv : list string) (index d : Z) :
  get_arg argc argv index d = d \/
  1 <= get_arg argc argv index d < 2 ^ 31 \/
  2 ^ 64 - 2 ^ 31 <= get_arg argc argv index d < 2 ^ 64.
Proof.
  destruct (Z.le_gt_cases argc index) as [Hle | Hgt].
  - left. apply get_arg_absent. exact Hle.
  - rewrite get_arg_present by lia. cbv zeta.
    pose proof (atoi_range (nth (Z.to_nat index) argv EmptyString)) as Hr.
    destruct (Z.eqb_spec (atoi (nth (Z.to_nat index) argv EmptyString)) 0);
      [left; reflexivity |].
    destruct (Z.ltb_spec (atoi (nth (Z.to_nat index) argv EmptyString)) 0); lia.
Qed.

Lemma get_arg_positive (argc : Z) (argv : list string) (index d : Z) :
  1 <= d -> 1 <= get_arg argc argv index d.
Proof. intros Hd. destruct (get_arg_cases argc argv index d) as [-> | [H | H]]; lia. Qed.

Lemma atoi_absent (argv : list string) (idx : nat) :
  atoi (nth idx argv EmptyString) <> 0 -> (idx < List.length argv)%nat.
Proof.
  intros H. destruct (Nat.lt_ge_cases idx (List.length argv)) as [Hlt | Hge]; [exact Hlt |].
  rewrite nth_overflow in H by exact Hge. exfalso. apply H. reflexivity.
Qed.

Lemma get_arg_beyond_reach (argv : list string) (idx : nat) (d : Z) :
  atoi (nth idx argv EmptyString) < 0 ->
  UINT_MAX < get_arg (Z.of_nat (List.length argv)) argv (Z.of_nat idx) d.
Proof.
  intros Hneg.
  assert (Hlt : (idx < List.length argv)%nat) by (apply atoi_absent; lia).
  rewrite get_arg_present by lia. cbv zeta. rewrite Nat2Z.id.
  pose proof (atoi_range (nth idx argv EmptyString)) as Hr.
  destruct (Z.eqb_spec (atoi (nth idx argv EmptyString)) 0); [lia |].
  destruct (Z.ltb_spec (atoi (nth idx argv EmptyString)) 0); [| lia].
  unfold UINT_MAX. lia.
Qed.

(** ** Runs that cannot fault *)

Lemma measured_no_fault (op0 op : bench_op) :
  (forall w, available op0 w -> available op w) ->
  guards False (available op0) (measured op).
Proof.
  intros Himp w Hw.
  destruct (measured_summary op w (Himp w Hw)) as (w' & E & _ & _ & _ & Hev & _).
  rewrite E. exact (available_evolves op0 w w' Hev Hw).
Qed.

Section GuardsDrivers.
Variable C : Prop.
Variable I : World -> Prop.
Hypothesis I_reads : forall w n, I w -> I (set_reads w n).
Hypothesis I_trace : forall w t, I w -> I (set_trace w t).

Lemma guards_bench_time (fuel : nat) (argc : Z) (argv : list string) :
  guards C I time_syscall_mb -> guards C I time_implicit_mb ->
  guards C I (bench_time fuel argc argv).
Proof.
  intros H1 H2. unfold bench_time. cbv zeta.
  apply (guards_pair C I I_reads I_trace); [exact H1 | exact H2 |].
  intros E. pose proof (get_arg_positive argc argv 2 100000 ltac:(lia)). lia.
Qed.

Lemma guards_bench_file (fuel : nat) (argc : Z) (argv : list string) :
  guards C I mmap_mb -> guards C I file_mb ->
  guards C I (bench_file fuel argc argv).
Proof.
  intros H1 H2. unfold bench_file. cbv zeta.
  apply (guards_pair C I I_reads I_trace); [exact H1 | exact H2 |].
  intros E. pose proof (get_arg_positive argc argv 2 100 ltac:(lia)). lia.
Qed.

(** [main] needs the file operations guarded only when it can reach them. *)
Lemma guards_main (fuel : nat) (argc : Z) (argv : list string) :
  guards C I time_syscall_mb -> guards C I time_implicit_mb ->
  ((argc >=? 2) && ascii_eqb (tolower (first_char (nth 1 argv EmptyString))) "t" = false ->
   guards C I mmap_mb /\ guards C I file_mb) ->
  guards C I (main fuel argc argv).
Proof.
  intros H1 H2 Hfile. unfold main.
  destruct (argc >=? 2) eqn:Hargc; cbn [andb] in *.
  - remember (tolower (first_char (nth 1 argv EmptyString))) as mode eqn:Emode.
    clear Emode.
    destruct (ascii_eqb mode "t") eqn:Et.
    + apply Ascii.eqb_eq in Et. subst mode.
      change (ascii_eqb "t" "t") with true. change (ascii_eqb "t" "f") with false.
      change (ascii_eqb "t" "a") with false. cbn [andb negb orb].
      apply guards_bind; [apply guards_bench_time; assumption | intros r1].
      apply guards_if; [apply guards_ret |].
      apply guards_bind; [apply guards_ret | intros ?].
      apply guards_bind; [apply guards_ret | intros r2].
      apply guards_if; apply guards_ret.
    + destruct (Hfile eq_refl) as [H3 H4].
      destruct (ascii_eqb mode "f"), (ascii_eqb mode "a"); cbn [andb negb orb];
        repeat first
          [ apply guards_ret
          | apply (guards_emit C I I_trace)
          | apply guards_bench_time; assumption
          | apply guards_bench_file; assumption
          | apply guards_if
          | apply guards_bind; [| intros ?] ].
  - cbn [andb negb orb]. destruct (Hfile eq_refl) as [H3 H4].
    change (ascii_eqb "a" "t") with false. change (ascii_eqb "a" "f") with false.
    change (ascii_eqb "a" "a") with true. cbn [andb negb orb].
    repeat first
      [ apply guards_ret
      | apply (guards_emit C I I_trace)
      | apply guards_bench_time; assumption
      | apply guards_bench_file; assumption
      | apply guards_if
      | apply guards_bind; [| intros ?] ].
Qed.

End GuardsDrivers.

Lemma guards_no_fault {A : Type} (I : World -> Prop) (m : M A) (w : World) :
  guards False I m -> I w -> no_fault (m w).
Proof.
  intros Hg Hw. specialize (Hg w Hw).
  destruct (m w); [exact Logic.I | exact Hg | exact Logic.I].
Qed.

Lemma run_program_safe_time (fuel : nat) (argv : list string) (w : World) :
  (2 <= List.length argv)%nat -> mode_of argv = "t"%char ->
  no_fault (run_program fuel argv w).
Proof.
  intros Hlen Hmode. unfold run_program.
  apply (guards_no_fault (available TimeSyscallMb)); [| exact Logic.I].
  apply guards_main.
  - intros; assumption.
  - intros; assumption.
  - apply (measured_no_fault TimeSyscallMb TimeSyscallMb). auto.
  - apply (measured_no_fault TimeSyscallMb TimeImplicitMb). auto.
  - fold (mode_of argv). rewrite Hmode.
    destruct (Z.geb_spec (Z.of_nat (List.length argv)) 2); [discriminate | lia].
Qed.

Lemma run_program_safe_device (fuel : nat) (argv : list string) (w : World) :
  available MmapMb w -> no_fault (run_program fuel argv w).
Proof.
  intros Hav. unfold run_program.
  apply (guards_no_fault (available MmapMb)); [| exact Hav].
  apply guards_main.
  - intros; assumption.
  - intros; assumption.
  - apply (measured_no_fault MmapMb TimeSyscallMb). intros; exact Logic.I.
  - apply (measured_no_fault MmapMb TimeImplicitMb). intros; exact Logic.I.
  - intros _. split.
    + apply (measured_no_fault MmapMb MmapMb). auto.
    + apply (measured_no_fault MmapMb FileMb). intros; exact Logic.I.
Qed.

(** ** The exit status *)

Lemma pair_status (fuel : nat) (op1 op2 : bench_impl) (calls iters reps : Z)
    (heading label1 label2 : string) (w : World) (r : Z) (w' : World) :
  (printf heading ;;
   fflush_stdout ;;
   a <- run_bench_ns fuel op1 calls iters reps ;;
   b <- run_bench_ns fuel op2 calls iters reps ;;
   printf (LF ++ label1 ++ format_long a ++ " ns" ++ LF)%string ;;
   printf (label2 ++ format_long b ++ " ns" ++ LF)%string ;;
   ret 0) w = Done r w' ->
  r = 0.
Proof.
  intros E.
  apply bind_done in E. destruct E as (? & ? & _ & E).
  apply bind_done in E. destruct E as (? & ? & _ & E).
  apply bind_done in E. destruct E as (? & ? & _ & E).
  apply bind_done in E. destruct E as (? & ? & _ & E).
  apply bind_done in E. destruct E as (? & ? & _ & E).
  apply bind_done in E. destruct E as (? & ? & _ & E).
  unfold ret in E. congruence.
Qed.

Lemma bench_time_status (fuel : nat) (argc : Z) (argv : list string) (w : World)
    (r : Z) (w' : World) :
  bench_time fuel argc argv w = Done r w' -> r = 0.
Proof. apply pair_status. Qed.

Lemma bench_file_status (fuel : nat) (argc : Z) (argv : list string) (w : World)
    (r : Z) (w' : World) :
  bench_file fuel argc argv w = Done r w' -> r = 0.
Proof. apply pair_status. Qed.

Ltac status_steps E :=
  repeat first
    [ match goal with
      | H : bench_time _ _ _ _ = Done _ _ |- _ => apply bench_time_status in H; subst
      | H : bench_file _ _ _ _ = Done _ _ |- _ => apply bench_file_status in H; subst
      | H : ret _ _ = Done _ _ |- _ => unfold ret in H; injection H as <- <-
      | H : putchar _ _ = Done _ _ |- _ => clear H
      end
    | progress cbn [Z.eqb negb] in E
    | apply bind_done in E; destruct E as (? & ? & ? & E) ].

Lemma main_status (fuel : nat) (argv : list string) (w : World) (r : Z) (w' : World) :
  run_program fuel argv w = Done r w' ->
  (r = 0 /\ valid_mode argv) \/ (r = 1 /\ ~ valid_mode argv).
Proof.
  unfold run_program, main, valid_mode. fold (mode_of argv).
  destruct (Z.geb_spec (Z.of_nat (List.length argv)) 2) as [Hge | Hlt]; cbn [andb].
  - unfold ascii_eqb.
    destruct (Ascii.eqb_spec (mode_of argv) "t") as [Et | Nt];
      destruct (Ascii.eqb_spec (mode_of argv) "f") as [Ef | Nf];
      destruct (Ascii.eqb_spec (mode_of argv) "a") as [Ea | Na];
      cbn [andb negb orb]; intros E.
    all: try (unfold fprintf_stderr in E; rewrite bind_emit in E; unfold ret in E;
              injection E as <- _; right;
              split; [reflexivity | intros [H | [H | [H | H]]]; [lia | | |]; contradiction]).
    all: left; (split; [| right; tauto]).
    all: status_steps E; first [reflexivity | unfold ret in E; congruence].
  - cbn [andb negb orb]. intros E. left. split; [| left; lia].
    change (ascii_eqb "a" "t") with false in E. change (ascii_eqb "a" "f") with false in E.
    change (ascii_eqb "a" "a") with true in E. cbn [andb negb orb] in E.
    status_steps E. first [reflexivity | unfold ret in E; congruence].
Qed.

(** ** A negative count on the command line *)

Lemma run_bench_ns_unreachable (inner_call : bench_impl) (calls iters reps : Z) (w : World) :
  1 <= calls -> 1 <= iters -> 1 <= reps ->
  UINT_MAX < calls \/ UINT_MAX < iters \/ UINT_MAX < reps ->
  never_returns (fun fuel => run_bench_ns fuel inner_call calls iters reps) w.
Proof.
  intros Hc Hi Hr [H | [H | H]].
  - apply run_bench_ns_calls_unreachable; assumption.
  - apply run_bench_ns_iters_unreachable; assumption.
  - apply run_bench_ns_reps_unreachable; assumption.
Qed.

Lemma counts_beyond_reach (argv : list string) (idx : nat) (d2 d3 d4 : Z) :
  (2 <= idx <= 4)%nat -> atoi (nth idx argv EmptyString) < 0 ->
  let argc := Z.of_nat (List.length argv) in
  UINT_MAX < get_arg argc argv 2 d2 \/ UINT_MAX < get_arg argc argv 3 d3 \/
  UINT_MAX < get_arg argc argv 4 d4.
Proof.
  intros Hidx Hneg argc. unfold argc.
  assert (Hc : idx = 2%nat \/ idx = 3%nat \/ idx = 4%nat) by lia.
  destruct Hc as [-> | [-> | ->]].
  - left. exact (get_arg_beyond_reach argv 2 d2 Hneg).
  - right; left. exact (get_arg_beyond_reach argv 3 d3 Hneg).
  - right; right. exact (get_arg_beyond_reach argv 4 d4 Hneg).
Qed.

Lemma bench_time_never_returns (argv : list string) (idx : nat) (w : World) :
  (2 <= idx <= 4)%nat -> atoi (nth idx argv EmptyString) < 0 ->
  never_returns (fun fuel => bench_time fuel (Z.of_nat (List.length argv)) argv) w.
Proof.
  intros Hidx Hneg fuel r w' E. unfold bench_time in E. cbv zeta in E.
  apply bind_done in E. destruct E as (? & w1 & _ & E).
  apply bind_done in E. destruct E as (? & w2 & _ & E).
  apply bind_done in E. destruct E as (a & w3 & E & _).
  revert E. apply run_bench_ns_unreachable.
  - apply get_arg_positive. lia.
  - apply get_arg_positive. lia.
  - apply get_arg_positive. lia.
  - exact (counts_beyond_reach argv idx 100000 32 5 Hidx Hneg).
Qed.

Lemma bench_file_never_returns (argv : list string) (idx : nat) (w : World) :
  (2 <= idx <= 4)%nat -> atoi (nth idx argv EmptyString) < 0 ->
  never_returns (fun fuel => bench_file fuel (Z.of_nat (List.length argv)) argv) w.
Proof.
  intros Hidx Hneg fuel r w' E. unfold bench_file in E. cbv zeta in E.
  apply bind_done in E. destruct E as (? & w1 & _ & E).
  apply bind_done in E. destruct E as (? & w2 & _ & E).
  apply bind_done in E. destruct E as (a & w3 & E & _).
  revert E. apply run_bench_ns_unreachable.
  - apply get_arg_positive. lia.
  - apply get_arg_positive. lia.
  - apply get_arg_positive. lia.
  - exact (counts_beyond_reach argv idx 100 128 5 Hidx Hneg).
Qed.

Lemma main_never_returns (argv : list string) (idx : nat) (w : World) :
  valid_mode argv -> (2 <= idx <= 4)%nat -> atoi (nth idx argv EmptyString) < 0 ->
  never_returns (fun fuel => run_program fuel argv) w.
Proof.
  intros Hvalid Hidx Hneg fuel r w' E.
  assert (Hdrv : exists w1 r1 w2,
             bench_time fuel (Z.of_nat (List.length argv)) argv w1 = Done r1 w2 \/
             bench_file fuel (Z.of_nat (List.length argv)) argv w1 = Done r1 w2).
  { unfold run_program, main in E. fold (mode_of argv) in E.
    destruct (Z.geb_spec (Z.of_nat (List.length argv)) 2) as [Hge | Hlt]; cbn [andb] in E.
    - destruct Hvalid as [H | [H | [H | H]]]; [lia | | |]; rewrite H in E;
        cbn [ascii_eqb Ascii.eqb Bool.eqb andb negb orb] in E.
      + apply bind_done in E. destruct E as (r1 & w1 & E & _).
        exists w, r1, w1. left. exact E.
      + apply bind_done in E. destruct E as (r1 & w1 & E1 & E).
        unfold ret in E1. injection E1 as <- <-. cbn [Z.eqb negb] in E.
        apply bind_done in E. destruct E as (? & w1 & E1 & E).
        unfold ret in E1. injection E1 as <-.
        apply bind_done in E. destruct E as (r2 & w2 & E & _).
        exists w1, r2, w2. right. exact E.
      + apply bind_done in E. destruct E as (r1 & w1 & E & _).
        exists w, r1, w1. left. exact E.
    - cbn [ascii_eqb Ascii.eqb Bool.eqb andb negb orb] in E.
      apply bind_done in E. destruct E as (r1 & w1 & E & _).
      exists w, r1, w1. left. exact E. }
  destruct Hdrv as (w1 & r1 & w2 & [E1 | E1]); revert E1.
  - apply (bench_time_never_returns argv idx w1 Hidx Hneg).
  - apply (bench_file_never_returns argv idx w1 Hidx Hneg).
Qed.

Lemma spinning_intro {A : Type} (o : outcome A) :
  no_fault o -> (forall a w, o <> Done a w) -> spinning o.
Proof.
  destruct o as [a w | w | w]; cbn; intros Hf Hd.
  - exact (Hd a w eq_refl).
  - exact Hf.
  - exact Logic.I.
Qed.

(** ** Runs where an acquisition fails *)

Lemma mmap_mb_events_read (w : World) :
  invocations (mmap_mb_events w) = [MmapMb] /\
  stdout_text (mmap_mb_events w) = EmptyString /\
  stderr_text (mmap_mb_events w) = EmptyString.
Proof. repeat split. Qed.

(** Every operation returns, in every world, having been entered once and
    having released what it acquired. *)
Lemma measured_anywhere (op : bench_op) (w : World) :
  exists w', measured op w = Done tt w' /\ step_summary w w' [op] EmptyString.
Proof.
  destruct op;
    [exact (measured_summary TimeSyscallMb w Logic.I)
    | exact (measured_summary TimeImplicitMb w Logic.I)
    | | exact (measured_summary FileMb w Logic.I)].
  cbn [measured]. rewrite mmap_mb_run. eexists. split; [reflexivity |].
  destruct (mmap_mb_events_read w) as (Hinv & Hout & Herr).
  rewrite <- Hinv, <- Hout. apply step_summary_trace. exact Herr.
Qed.


Section Anywhere.
Variable op : bench_op.
Variables calls iters reps : Z.
Variable fuel : nat.
Hypothesis calls_range : 1 <= calls <= UINT_MAX.
Hypothesis iters_range : 0 <= iters <= UINT_MAX.
Hypothesis reps_range : 0 <= reps <= UINT_MAX.
Hypothesis enough : (Z.to_nat (Z.max calls (Z.max iters reps)) < fuel)%nat.




End Anywhere.



(** ** Counting through the loops *)

(** The rule of the counted loop, for runs that return and bounds a 32-bit
    counter reaches: what holds of pass [i] before the body and of pass
    [i + 1] after it holds of pass [bound] at the end. *)
Lemma for_loop_invariant {St : Type} (bound : Z) (body : St -> M St)
    (Inv : Z -> St -> World -> Prop) :
  bound <= UINT_MAX ->
  (forall i s w s' w',
     0 <= i < bound -> Inv i s w -> body s w = Done s' w' -> Inv (i + 1) s' w') ->
  forall (fuel : nat) (i : Z) (s : St) (w : World) (s' : St) (w' : World),
    0 <= i <= bound -> Inv i s w ->
    for_loop fuel bound body i s w = Done s' w' -> Inv bound s' w'.
Proof.
  intros Hb Hstep fuel. induction fuel as [| fuel IH]; intros i s w s' w' Hi Hinv E;
    cbn [for_loop] in E; [discriminate |].
  destruct (Z.ltb_spec i bound) as [Hlt | Hge].
  - destruct (body s w) as [s1 w1 | w1 | w1] eqn:Eb; try discriminate.
    rewrite to_uint_small in E by lia.
    apply (IH (i + 1) s1 w1 s' w'); [lia | | exact E].
    exact (Hstep i s w s1 w1 ltac:(lia) Hinv Eb).
  - injection E as <- <-. replace bound with i by lia. exact Hinv.
Qed.

(** What every pass keeps of the loop's variable holds when the loop
    returns, whatever the bound. *)
Lemma for_loop_state {St : Type} (P : St -> Prop) (bound : Z) (body : St -> M St) :
  (forall s w s' w', P s -> body s w = Done s' w' -> P s') ->
  forall (fuel : nat) (i : Z) (s : St) (w : World) (s' : St) (w' : World),
    P s -> for_loop fuel bound body i s w = Done s' w' -> P s'.
Proof.
  intros Hstep fuel. induction fuel as [| fuel IH]; intros i s w s' w' Hs E;
    cbn [for_loop] in E; [discriminate |].
  destruct (i <? bound).
  - destruct (body s w) as [s1 w1 | w1 | w1] eqn:Eb; try discriminate.
    exact (IH _ s1 w1 s' w' (Hstep s w s1 w1 Hs Eb) E).
  - injection E as <- <-. exact Hs.
Qed.

(** ** The quotient is taken unsigned *)

Lemma div_assign_unsigned (a b : Z) (w : World) (q : Z) (w' : World) :
  2 <= b -> div_assign a b w = Done q w' -> 0 <= q <= LONG_MAX.
Proof.
  intros Hb. unfold div_assign.
  destruct (Z.eqb_spec b 0); [lia |]. unfold ret. intros E. injection E as <- _.
  assert (Hq : 0 <= to_ulong a / b <= LONG_MAX).
  { unfold to_ulong, LONG_MAX.
    pose proof (Z.mod_pos_bound a (2 ^ 64) ltac:(lia)) as Hm.
    split; [apply Z.div_pos; lia |].
    assert (a mod 2 ^ 64 / b < 2 ^ 63); [| lia].
    apply Z.div_lt_upper_bound; lia. }
  rewrite to_long_small; unfold LONG_MAX in *; lia.
Qed.

Lemma run_bench_ns_unsigned (fuel : nat) (inner_call : bench_impl)
    (calls iters reps : Z) (w : World) (r : Z) (w' : World) :
  2 <= calls ->
  run_bench_ns fuel inner_call calls iters reps w = Done r w' -> 0 <= r <= LONG_MAX.
Proof.
  intros Hc E. unfold run_bench_ns in E.
  refine (for_loop_state (fun r => 0 <= r <= LONG_MAX) _ _ _ _ _ _ _ _ _ _ E).
  - intros s w1 s' w1' Hs Eb.
    apply bind_done in Eb. destruct Eb as (q & w2 & Eq & Eb).
    unfold repetition in Eq. apply bind_done in Eq. destruct Eq as (m & w3 & _ & Eq).
    apply (div_assign_unsigned _ _ _ _ _ Hc) in Eq.
    cbv zeta in Eb. unfold putchar, fflush_stdout, usleep in Eb.
    rewrite !bind_emit in Eb. unfold ret in Eb. injection Eb as <- _.
    rewrite keep_min_min. lia.
  - unfold LONG_MAX. lia.
Qed.

(** ** How often the clock is read *)

Lemma timed_sample_reads (fuel : nat) (op : bench_op) (calls : Z) (w : World)
    (e : Z) (w' : World) :
  0 <= calls <= UINT_MAX ->
  timed_sample fuel (measured op) calls w = Done e w' ->
  Z.of_nat (clock_reads w')
  = Z.of_nat (clock_reads w) + (2 + Z.of_nat (reads_per_call op) * calls).
Proof.
  intros Hc E. unfold timed_sample in E.
  apply bind_done in E. destruct E as (before & w1 & E1 & E).
  apply bind_done in E. destruct E as ([] & w2 & E2 & E).
  apply bind_done in E. destruct E as (after & w3 & E3 & E).
  unfold ret in E. injection E as _ <-.
  unfold clock_gettime in E1, E3. injection E1 as _ <-. injection E3 as _ <-.
  cbn [clock_reads set_reads].
  assert (H2 : Z.of_nat (clock_reads w2)
               = Z.of_nat (S (clock_reads w)) + Z.of_nat (reads_per_call op) * calls).
  { refine (for_loop_invariant calls (fun _ : unit => measured op)
              (fun i _ w1 => Z.of_nat (clock_reads w1)
                             = Z.of_nat (S (clock_reads w)) + Z.of_nat (reads_per_call op) * i)
              ltac:(lia) _ fuel 0 tt _ tt w2 ltac:(lia) _ E2).
    - intros i [] wa [] wb Hi Hinv Eb.
      destruct (measured_reads op wa wb Eb) as [Hr _]. rewrite Hr. lia.
    - cbn [clock_reads set_reads]. lia. }
  lia.
Qed.

Lemma repetition_reads (fuel : nat) (op : bench_op) (calls iters : Z) (w : World)
    (q : Z) (w' : World) :
  0 <= calls <= UINT_MAX -> 0 <= iters <= UINT_MAX ->
  repetition fuel (measured op) calls iters w = Done q w' ->
  Z.of_nat (clock_reads w')
  = Z.of_nat (clock_reads w) + iters * (2 + Z.of_nat (reads_per_call op) * calls).
Proof.
  intros Hc Hi E. unfold repetition in E.
  apply bind_done in E. destruct E as (m & w1 & E1 & E).
  assert (Hw : clock_reads w' = clock_reads w1).
  { unfold div_assign in E. destruct (calls =? 0); [discriminate |].
    unfold ret in E. injection E as _ <-. reflexivity. }
  rewrite Hw.
  refine (for_loop_invariant iters _
            (fun i _ wa => Z.of_nat (clock_reads wa)
                           = Z.of_nat (clock_reads w)
                             + i * (2 + Z.of_nat (reads_per_call op) * calls))
            ltac:(lia) _ fuel 0 LONG_MAX w m w1 ltac:(lia) _ E1); [| cbv beta; lia].
  intros i s wa s' wb Hi' Hinv Eb.
  apply bind_done in Eb. destruct Eb as (e & wc & Ee & Eb).
  unfold ret in Eb. injection Eb as _ <-.
  rewrite (timed_sample_reads fuel op calls wa e wc Hc Ee). lia.
Qed.

Lemma run_bench_ns_reads (fuel : nat) (op : bench_op) (calls iters reps : Z) (w : World)
    (r : Z) (w' : World) :
  0 <= calls <= UINT_MAX -> 0 <= iters <= UINT_MAX -> 0 <= reps <= UINT_MAX ->
  run_bench_ns fuel (measured op) calls iters reps w = Done r w' ->
  Z.of_nat (clock_reads w')
  = Z.of_nat (clock_reads w)
    + reps * (iters * (2 + Z.of_nat (reads_per_call op) * calls)).
Proof.
  intros Hc Hi Hr E. unfold run_bench_ns in E.
  refine (for_loop_invariant reps _
            (fun i _ wa => Z.of_nat (clock_reads wa)
                           = Z.of_nat (clock_reads w)
                             + i * (iters * (2 + Z.of_nat (reads_per_call op) * calls)))
            ltac:(lia) _ fuel 0 LONG_MAX w r w' ltac:(lia) _ E); [| cbv beta; lia].
  intros i s wa s' wb Hi' Hinv Eb.
  apply bind_done in Eb. destruct Eb as (q & wc & Eq & Eb).
  cbv zeta in Eb. unfold putchar, fflush_stdout, usleep in Eb.
  rewrite !bind_emit in Eb. unfold ret in Eb. injection Eb as _ <-.
  cbn [clock_reads set_trace].
  rewrite (repetition_reads fuel op calls iters wa q wc Hc Hi Eq). lia.
Qed.

(** ** What reaches the terminal *)

Lemma console_app (t1 t2 : list event) : console (t1 ++ t2) = console t1 ++ console t2.
Proof. apply filter_app. Qed.

(** The measured operations write nothing, flush nothing and do not
    pause. *)
Lemma measured_trace (op : bench_op) (w w' : World) :
  measured op w = Done tt w' ->
  exists T : list event, trace w' = trace w ++ T /\ console T = [].
Proof.
  intros E. destruct op; cbn [measured] in E.
  - rewrite time_syscall_mb_run in E. injection E as <-.
    exists [Invoke TimeSyscallMb]. split; reflexivity.
  - rewrite time_implicit_mb_run in E. injection E as <-.
    exists [Invoke TimeImplicitMb]. split; reflexivity.
  - rewrite mmap_mb_run in E. injection E as <-.
    exists (mmap_mb_events w). split; reflexivity.
  - rewrite file_mb_run in E. injection E as <-.
    exists (file_mb_events w). split; [reflexivity |].
    unfold file_mb_events.
    destruct (dev_openable w), (heap_available w); reflexivity.
Qed.

Lemma measured_silent (op : bench_op) (c : list event) :
  guards True (fun w => console (trace w) = c) (measured op).
Proof.
  intros w Hw. destruct (measured op w) as [[] w' | w' | w'] eqn:E; [| exact Logic.I |].
  - destruct (measured_trace op w w' E) as (T & Ht & Hc).
    rewrite Ht, console_app, Hc, app_nil_r. exact Hw.
  - exfalso. pose proof (measured_halts op w) as H. rewrite E in H. exact H.
Qed.

Lemma guards_done {A : Type} (C : Prop) (I : World -> Prop) (m : M A)
    (w : World) (a : A) (w' : World) :
  guards C I m -> I w -> m w = Done a w' -> I w'.
Proof. intros Hg Hw E. specialize (Hg w Hw). rewrite E in Hg. exact Hg. Qed.

Lemma concat_repeat_succ {A : Type} (l : list A) (n : nat) :
  List.concat (repeat l (S n)) = List.concat (repeat l n) ++ l.
Proof.
  induction n as [| n IH]; [cbn; rewrite app_nil_r; reflexivity |].
  change (List.concat (repeat l (S (S n)))) with (l ++ List.concat (repeat l (S n))).
  rewrite IH at 1. rewrite app_assoc. reflexivity.
Qed.

Lemma run_bench_ns_console (fuel : nat) (op : bench_op) (calls iters reps : Z)
    (w : World) (r : Z) (w' : World) :
  0 <= reps <= UINT_MAX ->
  run_bench_ns fuel (measured op) calls iters reps w = Done r w' ->
  console (trace w')
  = console (trace w) ++ List.concat (repeat marker_and_pause (Z.to_nat reps)).
Proof.
  intros Hr E. unfold run_bench_ns in E.
  refine (for_loop_invariant reps _
            (fun i _ wa => console (trace wa)
                           = console (trace w)
                             ++ List.concat (repeat marker_and_pause (Z.to_nat i)))
            ltac:(lia) _ fuel 0 LONG_MAX w r w' ltac:(lia) _ E);
    [| cbn; rewrite app_nil_r; reflexivity].
  intros i s wa s' wb Hi' Hinv Eb.
  apply bind_done in Eb. destruct Eb as (q & wc & Eq & Eb).
  assert (Hq : console (trace wc) = console (trace wa)).
  { refine (guards_done True (fun w0 => console (trace w0) = console (trace wa))
              _ wa q wc _ eq_refl Eq).
    apply guards_repetition; [intros; assumption | apply measured_silent | trivial]. }
  cbv zeta in Eb. unfold putchar, fflush_stdout, usleep in Eb.
  rewrite !bind_emit in Eb. unfold ret in Eb. injection Eb as _ <-.
  cbn [trace set_trace]. rewrite !console_app, Hq, Hinv.
  replace (Z.to_nat (i + 1)) with (S (Z.to_nat i)) by lia.
  rewrite concat_repeat_succ. rewrite <- !app_assoc. reflexivity.
Qed.

(** ** Counts of zero *)

Lemma repetition_no_samples (fuel : nat) (inner_call : bench_impl) (calls : Z) (w : World) :
  1 <= calls ->
  repetition (S fuel) inner_call calls 0 w = Done (LONG_MAX / calls) w.
Proof.
  intros Hc. unfold repetition. cbn [for_loop]. unfold bind. cbn [Z.ltb Z.compare].
  unfold div_assign. destruct (Z.eqb_spec calls 0); [lia |]. unfold ret.
  rewrite to_ulong_small by (unfold LONG_MAX; lia).
  rewrite to_long_small; [reflexivity |].
  split.
  - pose proof (Z.div_pos LONG_MAX calls ltac:(unfold LONG_MAX; lia) ltac:(lia)). lia.
  - apply Z.div_le_upper_bound; [lia |]. unfold LONG_MAX. nia.
Qed.

(** Repetitions without a sample: markers and pauses, nothing else. *)
Lemma markers_only (fuel : nat) (inner_call : bench_impl) (calls : Z) :
  1 <= calls ->
  forall (n : nat) (s : Z) (w : World),
    iterate n
      (fun best_ns1 =>
         best_ns2 <- repetition (S fuel) inner_call calls 0 ;;
         let best_ns1 := keep_min best_ns1 best_ns2 in
         putchar "." ;; fflush_stdout ;; usleep (US_PER_SEC / 8) ;; ret best_ns1) s w
    = Done (match n with O => s | S _ => keep_min s (LONG_MAX / calls) end)
           (set_trace w (trace w ++ List.concat (repeat marker_and_pause n))).
Proof.
  intros Hc n. induction n as [| n IH]; intros s w.
  - cbn [iterate repeat List.concat]. rewrite app_nil_r. destruct w; reflexivity.
  - cbn [iterate].
    rewrite (bind_run _ _ w (keep_min s (LONG_MAX / calls))
               (set_trace w (trace w ++ marker_and_pause))).
    + rewrite IH.
      cbn [trace set_trace repeat List.concat]. f_equal.
      * destruct n; [reflexivity | apply keep_min_idempotent].
      * unfold set_trace. cbn [clock_readings clock_reads dev_openable map_allowed
                              heap_available open_fds mappings heap_blocks trace].
        f_equal. rewrite <- !app_assoc. reflexivity.
    + rewrite (bind_run _ _ w _ w (repetition_no_samples fuel inner_call calls w Hc)).
      cbv zeta. unfold putchar, fflush_stdout, usleep. rewrite !bind_emit.
      unfold ret. f_equal. unfold set_trace.
      cbn [clock_readings clock_reads dev_openable map_allowed
           heap_available open_fds mappings heap_blocks trace].
      f_equal. rewrite <- !app_assoc. reflexivity.
Qed.


Lemma run_bench_ns_no_repetition (fuel : nat) (inner_call : bench_impl)
    (calls iters : Z) (w : World) :
  run_bench_ns (S fuel) inner_call calls iters 0 w = Done LONG_MAX w.
Proof. reflexivity. Qed.

Lemma run_bench_ns_no_iteration (inner_call : bench_impl) (calls reps : Z) (w : World) :
  1 <= calls -> 1 <= reps <= UINT_MAX ->
  returns (fun fuel => run_bench_ns fuel inner_call calls 0 reps) w (LONG_MAX / calls)
    (set_trace w (trace w ++ List.concat (repeat marker_and_pause (Z.to_nat reps)))).
Proof.
  intros Hc Hr. exists (S (Z.to_nat reps)). intros fuel Hfuel.
  destruct fuel as [| fuel]; [lia |].
  unfold run_bench_ns.
  rewrite for_loop_iterate by lia.
  replace (reps - 0) with reps by lia.
  rewrite (markers_only fuel inner_call calls Hc).
  destruct (Z.to_nat reps) eqn:En; [lia |].
  f_equal. rewrite keep_min_min. apply Z.min_r.
  apply Z.div_le_upper_bound; [lia |]. unfold LONG_MAX. nia.
Qed.

Lemma timed_sample_of_nothing (fuel : nat) (inner_call : bench_impl) (w : World) :
  exists e : Z,
    timed_sample (S fuel) inner_call 0 w = Done e (set_reads w (S (S (clock_reads w)))).
Proof. eexists. reflexivity. Qed.

(** Samples of no call: two readings of the clock each. *)
Lemma samples_of_nothing (fuel : nat) (inner_call : bench_impl) :
  forall (n : nat) (s : Z) (w : World),
    exists s' : Z,
      iterate n
        (fun best_ns2 =>
           elapsed_ns <- timed_sample (S fuel) inner_call 0 ;;
           ret (keep_min best_ns2 elapsed_ns)) s w
      = Done s' (set_reads w (clock_reads w + 2 * n)).
Proof.
  induction n as [| n IH]; intros s w.
  - exists s. cbn [iterate]. unfold ret. f_equal.
    rewrite Nat.mul_0_r, Nat.add_0_r. destruct w; reflexivity.
  - destruct (timed_sample_of_nothing fuel inner_call w) as (e & Ee).
    destruct (IH (keep_min s e) (set_reads w (S (S (clock_reads w))))) as (s' & Es).
    exists s'. cbn [iterate].
    rewrite (bind_run _ _ w (keep_min s e) (set_reads w (S (S (clock_reads w))))).
    + rewrite Es. f_equal. unfold set_reads.
      cbn [clock_readings clock_reads dev_openable map_allowed heap_available open_fds
           mappings heap_blocks trace].
      f_equal. lia.
    + rewrite (bind_run _ _ w _ _ Ee). reflexivity.
Qed.

(** ** A count typed in decimal *)

Ltac read_digit :=
  cbn [digits_value];
  match goal with
  | |- context [isdigit ?c] => change (isdigit c) with true
  end;
  cbv iota;
  match goal with
  | |- context [Z.of_N (N_of_ascii ?c)] =>
      let v := eval vm_compute in (Z.of_N (N_of_ascii c)) in
      change (Z.of_N (N_of_ascii c)) with v
  end.

(** The digits [printf] writes are read back by [strtol] as the number
    the standard library's own reader makes of them. *)
Lemma digits_value_acc (d : Decimal.uint) (acc : positive) :
  digits_value (Z.pos acc) (NilEmpty.string_of_uint d) = Z.pos (Pos.of_uint_acc d acc).
Proof.
  revert acc. induction d; intros acc; cbn [NilEmpty.string_of_uint Pos.of_uint_acc];
    [reflexivity | ..];
    read_digit; rewrite <- IHd; f_equal; lia.
Qed.

Lemma digits_value_uint (d : Decimal.uint) :
  digits_value 0 (NilEmpty.string_of_uint d) = Z.of_N (Pos.of_uint d).
Proof.
  induction d; cbn [NilEmpty.string_of_uint Pos.of_uint]; [reflexivity | ..];
    read_digit;
    first [ exact IHd | cbn [Z.of_N]; rewrite <- digits_value_acc; reflexivity ].
Qed.

Lemma strtol_digits (d : Decimal.uint) :
  d <> Decimal.Nil ->
  strtol (NilEmpty.string_of_uint d)
  = Z.max (- 2 ^ 63) (Z.min LONG_MAX (digits_value 0 (NilEmpty.string_of_uint d))).
Proof. destruct d; [congruence | ..]; intros _; reflexivity. Qed.

Lemma strtol_minus_digits (d : Decimal.uint) :
  strtol (String "-" (NilEmpty.string_of_uint d))
  = Z.max (- 2 ^ 63) (Z.min LONG_MAX (- digits_value 0 (NilEmpty.string_of_uint d))).
Proof. reflexivity. Qed.

Lemma to_uint_not_nil (p : positive) : Pos.to_uint p <> Decimal.Nil.
Proof.
  intros E. pose proof (DecimalPos.Unsigned.of_to p) as H. rewrite E in H. discriminate.
Qed.

Lemma to_int_small (z : Z) : - 2 ^ 31 <= z < 2 ^ 31 -> to_int z = z.
Proof.
  intros H. unfold to_int. rewrite Z.mod_small by lia. lia.
Qed.

Lemma string_of_uint_not_nil (d : Decimal.uint) :
  d <> Decimal.Nil -> NilZero.string_of_uint d = NilEmpty.string_of_uint d.
Proof. destruct d; [congruence | ..]; reflexivity. Qed.

Lemma strtol_format_long (n : Z) :
  strtol (format_long n) = Z.max (- 2 ^ 63) (Z.min LONG_MAX n).
Proof.
  unfold format_long.
  destruct n as [| p | p]; cbn [Z.to_int NilZero.string_of_int].
  - reflexivity.
  - rewrite string_of_uint_not_nil by apply to_uint_not_nil.
    rewrite strtol_digits by apply to_uint_not_nil.
    rewrite digits_value_uint, DecimalPos.Unsigned.of_to. reflexivity.
  - rewrite string_of_uint_not_nil by apply to_uint_not_nil.
    rewrite strtol_minus_digits.
    rewrite digits_value_uint, DecimalPos.Unsigned.of_to. reflexivity.
Qed.

Lemma atoi_format_long (n : Z) :
  - 2 ^ 63 <= n <= LONG_MAX -> atoi (format_long n) = to_int n.
Proof.
  intros Hn. unfold atoi. rewrite strtol_format_long.
  rewrite Z.min_r by lia. rewrite Z.max_r by lia. reflexivity.
Qed.

Lemma get_arg_format_long (argv : list string) (idx : nat) (n d : Z) :
  nth_error argv idx = Some (format_long n) -> - 2 ^ 63 <= n <= LONG_MAX ->
  get_arg (Z.of_nat (List.length argv)) argv (Z.of_nat idx) d
  = if to_int n =? 0 then d else to_ulong (to_int n).
Proof.
  intros Hnth Hn.
  assert (Hlt : (idx < List.length argv)%nat) by (apply nth_error_Some; congruence).
  rewrite get_arg_present by lia. cbv zeta. rewrite Nat2Z.id.
  rewrite (nth_error_nth argv idx EmptyString Hnth).
  rewrite atoi_format_long by lia.
  destruct (to_ulong_int (to_int n) (to_int_range n)) as [-> _]. reflexivity.
Qed.

(** ** What [main] reads of its arguments *)

(** With [argc] the length of [argv], an argument that is missing reads
    like one that is empty. *)
Lemma get_arg_by_atoi (argv : list string) (k : nat) (d : Z) :
  get_arg (Z.of_nat (List.length argv)) argv (Z.of_nat k) d
  = if atoi (nth k argv EmptyString) =? 0 then d
    else to_ulong (atoi (nth k argv EmptyString)).
Proof.
  destruct (Nat.lt_ge_cases k (List.length argv)) as [Hlt | Hge].
  - rewrite get_arg_present by lia. cbv zeta. rewrite Nat2Z.id.
    destruct (to_ulong_int _ (atoi_range (nth k argv EmptyString))) as [-> _].
    reflexivity.
  - rewrite get_arg_absent by lia. rewrite nth_overflow by exact Hge. reflexivity.
Qed.

Lemma main_same_mode (fuel : nat) (argc argc' : Z) (argv argv' : list string)
    (w : World) :
  (argc >=? 2) = (argc' >=? 2) ->
  mode_of argv = mode_of argv' ->
  (forall d, get_arg argc argv 2 d = get_arg argc' argv' 2 d) ->
  (forall d, get_arg argc argv 3 d = get_arg argc' argv' 3 d) ->
  (forall d, get_arg argc argv 4 d = get_arg argc' argv' 4 d) ->
  main fuel argc argv w = main fuel argc' argv' w.
Proof.
  intros H2 H1 G2 G3 G4. unfold main, bench_time, bench_file.
  fold (mode_of argv). fold (mode_of argv').
  rewrite H2, H1, !G2, !G3, !G4. reflexivity.
Qed.

(** ** Mode [a] as the two other modes, one after the other *)

Lemma set_arg_length (argv : list string) (idx : nat) (tok : string) :
  (idx <= List.length argv)%nat ->
  List.length (set_arg argv idx tok) = Nat.max (S idx) (List.length argv).
Proof.
  intros H. unfold set_arg. rewrite length_app, length_firstn. cbn [List.length].
  rewrite length_skipn. lia.
Qed.

Lemma set_arg_at (argv : list string) (idx : nat) (tok : string) :
  (idx <= List.length argv)%nat -> nth idx (set_arg argv idx tok) EmptyString = tok.
Proof.
  intros H. unfold set_arg.
  rewrite app_nth2 by (rewrite length_firstn; lia).
  rewrite length_firstn. replace (idx - Nat.min idx (List.length argv))%nat with 0%nat by lia.
  reflexivity.
Qed.

Lemma set_arg_beyond (argv : list string) (idx k : nat) (tok : string) :
  (idx <= List.length argv)%nat -> (idx < k)%nat ->
  nth k (set_arg argv idx tok) EmptyString = nth k argv EmptyString.
Proof.
  intros H Hk. unfold set_arg.
  rewrite app_nth2 by (rewrite length_firstn; lia).
  rewrite length_firstn.
  replace (k - Nat.min idx (List.length argv))%nat with (S (k - S idx))%nat by lia.
  cbn [nth]. rewrite nth_after_skipn. f_equal. lia.
Qed.

Lemma get_arg_set_mode (argv : list string) (tok : string) (k : nat) (d : Z) :
  (1 <= List.length argv)%nat -> (2 <= k)%nat ->
  get_arg (Z.of_nat (List.length (set_arg argv 1 tok))) (set_arg argv 1 tok) (Z.of_nat k) d
  = get_arg (Z.of_nat (List.length argv)) argv (Z.of_nat k) d.
Proof.
  intros Hlen Hk. rewrite !get_arg_by_atoi.
  rewrite set_arg_beyond by lia. reflexivity.
Qed.

Lemma bench_time_set_mode (fuel : nat) (argv : list string) (tok : string) (w : World) :
  (1 <= List.length argv)%nat ->
  bench_time fuel (Z.of_nat (List.length (set_arg argv 1 tok))) (set_arg argv 1 tok) w
  = bench_time fuel (Z.of_nat (List.length argv)) argv w.
Proof.
  intros Hlen. apply bench_time_same_arguments.
  - exact (get_arg_set_mode argv tok 2 100000 Hlen ltac:(lia)).
  - exact (get_arg_set_mode argv tok 3 32 Hlen ltac:(lia)).
  - exact (get_arg_set_mode argv tok 4 5 Hlen ltac:(lia)).
Qed.

Lemma bench_file_set_mode (fuel : nat) (argv : list string) (tok : string) (w : World) :
  (1 <= List.length argv)%nat ->
  bench_file fuel (Z.of_nat (List.length (set_arg argv 1 tok))) (set_arg argv 1 tok) w
  = bench_file fuel (Z.of_nat (List.length argv)) argv w.
Proof.
  intros Hlen. apply bench_file_same_arguments.
  - exact (get_arg_set_mode argv tok 2 100 Hlen ltac:(lia)).
  - exact (get_arg_set_mode argv tok 3 128 Hlen ltac:(lia)).
  - exact (get_arg_set_mode argv tok 4 5 Hlen ltac:(lia)).
Qed.

Lemma main_time_mode (fuel : nat) (argv : list string) (w : World) :
  (2 <= List.length argv)%nat -> mode_of argv = "t"%char ->
  run_program fuel argv w = bench_time fuel (Z.of_nat (List.length argv)) argv w.
Proof.
  intros Hlen Hmode. unfold run_program, main.
  destruct (Z.geb_spec (Z.of_nat (List.length argv)) 2) as [_ | ?]; [| lia].
  fold (mode_of argv). rewrite Hmode. cbn [andb negb orb ascii_eqb Ascii.eqb Bool.eqb].
  unfold bind at 1.
  destruct (bench_time fuel (Z.of_nat (List.length argv)) argv w) as [r w1 | w1 | w1] eqn:E;
    [| reflexivity | reflexivity].
  rewrite (bench_time_status _ _ _ _ _ _ E). reflexivity.
Qed.

Lemma main_file_mode (fuel : nat) (argv : list string) (w : World) :
  (2 <= List.length argv)%nat -> mode_of argv = "f"%char ->
  run_program fuel argv w = bench_file fuel (Z.of_nat (List.length argv)) argv w.
Proof.
  intros Hlen Hmode. unfold run_program, main.
  destruct (Z.geb_spec (Z.of_nat (List.length argv)) 2) as [_ | ?]; [| lia].
  fold (mode_of argv). rewrite Hmode. cbn [andb negb orb ascii_eqb Ascii.eqb Bool.eqb].
  unfold bind at 1. unfold ret at 1. cbn [Z.eqb negb].
  unfold bind at 1. unfold ret at 1. unfold bind at 1.
  destruct (bench_file fuel (Z.of_nat (List.length argv)) argv w) as [r w1 | w1 | w1] eqn:E;
    [| reflexivity | reflexivity].
  rewrite (bench_file_status _ _ _ _ _ _ E). reflexivity.
Qed.

Lemma main_all_mode (fuel : nat) (argv : list string) (w : World) :
  (List.length argv < 2)%nat \/ mode_of argv = "a"%char ->
  run_program fuel argv w
  = (bench_time fuel (Z.of_nat (List.length argv)) argv ;;
     putchar (ascii_of_nat 10) ;;
     bench_file fuel (Z.of_nat (List.length argv)) argv) w.
Proof.
  intros Hmode. unfold run_program, main.
  assert (Hm : (if Z.of_nat (List.length argv) >=? 2
                then tolower (first_char (nth 1 argv EmptyString))
                else "a"%char) = "a"%char).
  { destruct (Z.geb_spec (Z.of_nat (List.length argv)) 2); [| reflexivity].
    destruct Hmode as [? | Hmode]; [lia | exact Hmode]. }
  rewrite Hm. cbn [andb negb orb ascii_eqb Ascii.eqb Bool.eqb].
  rewrite andb_false_r.
  unfold bind at 1. unfold bind at 3.
  destruct (bench_time fuel (Z.of_nat (List.length argv)) argv w) as [r w1 | w1 | w1] eqn:E;
    [| reflexivity | reflexivity].
  rewrite (bench_time_status _ _ _ _ _ _ E). cbn [Z.eqb negb].
  unfold putchar. rewrite !bind_emit. unfold bind at 1.
  destruct (bench_file fuel (Z.of_nat (List.length argv)) argv _) as [r2 w2 | w2 | w2] eqn:E2;
    [| reflexivity | reflexivity].
  rewrite (bench_file_status _ _ _ _ _ _ E2). reflexivity.
Qed.

Lemma mode_of_set_arg (argv : list string) (tok : string) :
  (1 <= List.length argv)%nat -> mode_of (set_arg argv 1 tok) = tolower (first_char tok).
Proof. intros H. unfold mode_of. rewrite set_arg_at by exact H. reflexivity. Qed.

(** ** Nothing is left open *)

(** An operation ends with the descriptors, mappings and blocks it started
    with, whichever of its acquisitions failed. *)
Lemma measured_releases (op : bench_op) (w0 : World) :
  guards False (same_resources w0) (measured op).
Proof.
  intros w Hw.
  destruct (measured_anywhere op w) as (w' & -> & _ & _ & _ & _ & Hres).
  exact (same_resources_trans w0 w w' Hw Hres).
Qed.

Lemma run_program_releases (fuel : nat) (argv : list string) (w : World) :
  guards False (same_resources w) (run_program fuel argv).
Proof.
  unfold run_program. apply guards_main.
  - intros w1 t H. exact H.
  - intros w1 n H. exact H.
  - apply (measured_releases TimeSyscallMb).
  - apply (measured_releases TimeImplicitMb).
  - intros _. split.
    + apply (measured_releases MmapMb).
    + apply (measured_releases FileMb).
Qed.

(** ** What the program prints *)

Lemma time_mode_output (argv : list string) (w : World) :
  tuning_ok argv -> (2 <= List.length argv)%nat -> mode_of argv = "t"%char ->
  exists (r1 r2 : Z) (w' : World),
    returns (fun fuel => run_program fuel argv) w 0 w' /\
    stdout_text (trace w')
    = (stdout_text (trace w)
         ++ time_report (Z.to_nat (get_arg (Z.of_nat (List.length argv)) argv 4 5)) r1 r2)%string /\
    stderr_text (trace w') = stderr_text (trace w).
Proof.
  intros Hok Hlen Hmode.
  destruct (run_time_mode argv w Hok Hlen Hmode) as (r1 & r2 & w' & Hret & _ & Hout & Herr & _).
  exists r1, r2, w'. split; [exact Hret |]. split; [| exact Herr].
  rewrite Hout. unfold time_report, report. rewrite !string_app_assoc. reflexivity.
Qed.

Lemma file_mode_output (argv : list string) (w : World) :
  tuning_ok argv -> (2 <= List.length argv)%nat -> mode_of argv = "f"%char ->
  available MmapMb w ->
  exists (r1 r2 : Z) (w' : World),
    returns (fun fuel => run_program fuel argv) w 0 w' /\
    stdout_text (trace w')
    = (stdout_text (trace w)
         ++ file_report (Z.to_nat (get_arg (Z.of_nat (List.length argv)) argv 4 5)) r1 r2)%string /\
    stderr_text (trace w') = stderr_text (trace w).
Proof.
  intros Hok Hlen Hmode Hav.
  destruct (bench_file_returns (Z.of_nat (List.length argv)) argv w)
    as (r1 & r2 & w' & [f0 Hret] & _ & Hout & Herr & _);
    [tuning 2%nat 100 | tuning 3%nat 128 | tuning 4%nat 5 | exact Hav |].
  exists r1, r2, w'. split; [| split; [| exact Herr]].
  - exists f0. intros fuel Hfuel.
    apply main_file_only; [exact Hlen | exact Hmode | apply Hret; exact Hfuel].
  - rewrite Hout. unfold file_report, report. rewrite !string_app_assoc. reflexivity.
Qed.

Lemma all_mode_output (argv : list string) (w : World) :
  tuning_ok argv -> (List.length argv < 2)%nat \/ mode_of argv = "a"%char ->
  available MmapMb w ->
  exists (r1 r2 r3 r4 : Z) (w' : World),
    returns (fun fuel => run_program fuel argv) w 0 w' /\
    stdout_text (trace w')
    = (stdout_text (trace w)
         ++ time_report (Z.to_nat (get_arg (Z.of_nat (List.length argv)) argv 4 5)) r1 r2
         ++ LF
         ++ file_report (Z.to_nat (get_arg (Z.of_nat (List.length argv)) argv 4 5)) r3 r4)%string /\
    stderr_text (trace w') = stderr_text (trace w).
Proof.
  intros Hok Hmode Hav.
  destruct (bench_time_returns (Z.of_nat (List.length argv)) argv w)
    as (r1 & r2 & w1 & [f1 Hret1] & S1);
    [tuning 2%nat 100000 | tuning 3%nat 32 | tuning 4%nat 5 |].
  pose proof (print_summary LF w1) as SL.
  pose proof (step_summary_trans _ _ _ _ _ _ _ S1 SL) as S1L.
  destruct (bench_file_returns (Z.of_nat (List.length argv)) argv
              (set_trace w1 (trace w1 ++ [Stdout LF])))
    as (r3 & r4 & w2 & [f2 Hret2] & S2);
    [tuning 2%nat 100 | tuning 3%nat 128 | tuning 4%nat 5
    | eapply available_evolves; [apply S1L | exact Hav] |].
  exists r1, r2, r3, r4, w2. split; [| split].
  - exists (Nat.max f1 f2). intros fuel Hfuel.
    apply (main_all fuel argv w w1 w2 Hmode); [apply Hret1 | apply Hret2]; lia.
  - destruct (step_summary_trans _ _ _ _ _ _ _ S1L S2) as (_ & Hout & _).
    rewrite Hout. unfold time_report, file_report, report.
    rewrite !string_app_assoc. reflexivity.
  - destruct (step_summary_trans _ _ _ _ _ _ _ S1L S2) as (_ & _ & Herr & _).
    exact Herr.
Qed.



(** ** Readings as nanoseconds *)

Lemma true_ns_decode (ts : timespec) :
  wf_timespec ts ->
  true_ns ts / NS_PER_SEC = tv_sec ts /\ true_ns ts mod NS_PER_SEC = tv_nsec ts.
Proof.
  intros Hwf. rewrite (true_ns_exact ts Hwf).
  destruct Hwf as (Hs & Hn & _). unfold nanoseconds, NS_PER_SEC in *.
  split.
  - symmetry. apply (Z.div_unique _ _ _ (tv_nsec ts)); lia.
  - symmetry. apply (Z.mod_unique _ _ (tv_sec ts)); lia.
Qed.

Lemma true_ns_order (a b : timespec) :
  wf_timespec a -> wf_timespec b -> (true_ns a < true_ns b <-> earlier a b).
Proof.
  intros Ha Hb. rewrite (true_ns_exact a Ha), (true_ns_exact b Hb).
  destruct Ha as (Hsa & Hna & _), Hb as (Hsb & Hnb & _).
  unfold nanoseconds, earlier, NS_PER_SEC in *. split.
  - intros H. destruct (Z.lt_trichotomy (tv_sec a) (tv_sec b)) as [Hlt | [Heq | Hgt]].
    + left. exact Hlt.
    + right. split; [exact Heq |]. rewrite Heq in H. lia.
    + exfalso. nia.
  - intros [H | [H1 H2]]; [nia | rewrite H1; lia].
Qed.

Lemma elapsed_signed (a b : timespec) :
  wf_timespec a -> wf_timespec b ->
  to_long (true_ns b - true_ns a) = nanoseconds b - nanoseconds a.
Proof.
  intros Ha Hb. rewrite (true_ns_exact a Ha), (true_ns_exact b Hb).
  destruct Ha as (Hsa & Hna & Hla), Hb as (Hsb & Hnb & Hlb).
  unfold nanoseconds, NS_PER_SEC, LONG_MAX in *.
  apply to_long_small. unfold LONG_MAX. nia.
Qed.

(** ** The result where the cost is steady *)

Lemma steady_result_quotient (d calls iters reps : Z) :
  0 <= d <= LONG_MAX -> 1 <= calls -> 1 <= iters -> 1 <= reps ->
  steady_result d calls iters reps = d / calls.
Proof.
  intros Hd Hc Hi Hr. unfold steady_result.
  destruct (Z.ltb_spec 0 reps); [| lia]. destruct (Z.ltb_spec 0 iters); [| lia].
  rewrite to_ulong_small by exact Hd.
  apply to_long_small. split.
  - pose proof (Z.div_pos d calls ltac:(lia) ltac:(lia)). lia.
  - apply Z.div_le_upper_bound; [lia |]. nia.
Qed.

(** ** What a sample measures *)

Lemma timed_sample_value (fuel : nat) (op : bench_op) (calls : Z) (w : World)
    (e : Z) (w' : World) :
  0 <= calls <= UINT_MAX ->
  timed_sample fuel (measured op) calls w = Done e w' ->
  e = sample_cost op calls w (clock_reads w).
Proof.
  intros Hc E. unfold timed_sample in E.
  apply bind_done in E. destruct E as (before & w1 & E1 & E).
  apply bind_done in E. destruct E as ([] & w2 & E2 & E).
  apply bind_done in E. destruct E as (after & w3 & E3 & E).
  unfold ret in E. injection E as <- _.
  unfold clock_gettime in E1, E3. injection E1 as <- <-. injection E3 as <- _.
  assert (H2 : clock_reads w2
               = (S (clock_reads w) + reads_per_call op * Z.to_nat calls)%nat /\
               clock_readings w2 = clock_readings w).
  { refine (for_loop_invariant calls (fun _ : unit => measured op)
              (fun i _ wa => clock_reads wa
                             = (S (clock_reads w) + reads_per_call op * Z.to_nat i)%nat /\
                             clock_readings wa = clock_readings w)
              ltac:(lia) _ fuel 0 tt _ tt w2 ltac:(lia) _ E2).
    - intros i [] wa [] wb Hi [Hr Hk] Eb.
      destruct (measured_reads op wa wb Eb) as [Hr' Hk']. split; [| congruence].
      rewrite Hr', Hr. replace (Z.to_nat (i + 1)) with (S (Z.to_nat i)) by lia. lia.
    - cbn [clock_reads clock_readings set_reads]. split; [lia | reflexivity]. }
  destruct H2 as [Hr Hk]. unfold sample_cost. rewrite Hk, Hr.
  replace (S (clock_reads w) + reads_per_call op * Z.to_nat calls)%nat
    with (clock_reads w + 1 + reads_per_call op * Z.to_nat calls)%nat by lia.
  reflexivity.
Qed.

Lemma timed_sample_silent (fuel : nat) (op : bench_op) (calls : Z) (c : list event) :
  guards True (fun w => console (trace w) = c) (timed_sample fuel (measured op) calls).
Proof.
  unfold timed_sample.
  apply guards_bind; [intros w Hw; exact Hw | intros before].
  apply guards_bind; [apply guards_for_loop; intros ?; apply measured_silent | intros ?].
  apply guards_bind; [intros w Hw; exact Hw | intros after].
  apply guards_ret.
Qed.

(** * The claims *)

(** C1, as stated, fails: with [reps = 2^32] (and one call, one iteration)
    the outer counter, an [unsigned int], never reaches its bound, so
    [run_bench_ns] returns nothing at all. *)
Lemma run_bench_ns_no_result_at_2_32_reps :
  never_returns (fun fuel => run_bench_ns fuel (measured TimeImplicitMb) 1 1 (2 ^ 32))
                world0.
Proof. apply run_bench_ns_reps_unreachable. unfold UINT_MAX. lia. Qed.

(** C1, amended: for every operation that does not fault, on a monotonic
    clock and with [calls], [iters] and [reps] between 1 and 2^32 - 1,
    [run_bench_ns] returns the minimum over the [reps] repetitions of (the
    minimum over the [iters] samples of the elapsed nanoseconds around
    [calls] invocations) divided by [calls], the quotient truncated: the
    division is applied to the minimum of a repetition, never to a sample. *)
Theorem run_bench_ns_min_of_mins (op : bench_op) (calls iters reps : Z) (w : World) :
  1 <= calls <= UINT_MAX -> 1 <= iters <= UINT_MAX -> 1 <= reps <= UINT_MAX ->
  monotonic (clock_readings w) -> available op w ->
  exists (rows : list (list Z)) (w' : World),
    sample_rows op (Z.to_nat calls) (Z.to_nat iters) (Z.to_nat reps) w = Done rows w' /\
    List.length rows = Z.to_nat reps /\
    Forall (fun row => List.length row = Z.to_nat iters) rows /\
    returns (fun fuel => run_bench_ns fuel (measured op) calls iters reps) w
            (list_min (map (fun row => Z.quot (list_min row) calls) rows)) w'.
Proof.
  intros Hc Hi Hr Hmono Hav.
  destruct (run_bench_ns_measures op calls iters reps w Hc Hi Hr Hmono Hav)
    as (rows & w' & Erows & Hret & _).
  destruct (sample_rows_shape _ _ _ _ _ _ _ Erows) as [Hlen Hrows].
  exists rows, w'. repeat split; assumption.
Qed.

(** The amended C1 at work: [file_mb], one call, two samples, two repetitions. *)
Lemma run_bench_ns_min_of_mins_witness :
  exists (rows : list (list Z)) (w' : World),
    sample_rows FileMb (Z.to_nat 1) (Z.to_nat 2) (Z.to_nat 2) world0 = Done rows w' /\
    List.length rows = Z.to_nat 2 /\
    Forall (fun row => List.length row = Z.to_nat 2) rows /\
    returns (fun fuel => run_bench_ns fuel (measured FileMb) 1 2 2) world0
            (list_min (map (fun row => Z.quot (list_min row) 1) rows)) w'.
Proof.
  apply (run_bench_ns_min_of_mins FileMb 1 2 2 world0).
  - unfold UINT_MAX. lia.
  - unfold UINT_MAX. lia.
  - unfold UINT_MAX. lia.
  - exact world0_monotonic.
  - exact I.
Defined.

(** C2: started as [callbench t 1000 4 1], from any world, the program
    returns status 0 having entered [time_syscall_mb] exactly 4000 times,
    then [time_implicit_mb] exactly 4000 times, and no other operation; its
    standard output is the heading with one marker per run, then exactly one
    labelled line per operation.  In general [run_bench_ns] enters its
    operation exactly [calls * iters * reps] times. *)
Theorem end_to_end_time_mode :
  (forall w : World,
     exists (r1 r2 : Z) (w' : World),
       returns (fun fuel => run_program fuel ["callbench"; "t"; "1000"; "4"; "1"]%string)
               w 0 w' /\
       invocations (trace w')
       = invocations (trace w) ++ repeat TimeSyscallMb 4000 ++ repeat TimeImplicitMb 4000 /\
       stdout_text (trace w')
       = (stdout_text (trace w) ++ "clock_gettime: .." ++ LF
            ++ "    syscall: " ++ format_long r1 ++ " ns" ++ LF
            ++ "    implicit: " ++ format_long r2 ++ " ns" ++ LF)%string /\
       stderr_text (trace w') = stderr_text (trace w)) /\
  (forall (op : bench_op) (calls iters reps : Z) (w : World),
     1 <= calls <= UINT_MAX -> 0 <= iters <= UINT_MAX -> 0 <= reps <= UINT_MAX ->
     available op w ->
     exists (r : Z) (w' : World),
       returns (fun fuel => run_bench_ns fuel (measured op) calls iters reps) w r w' /\
       invocations (trace w')
       = invocations (trace w) ++ repeat op (Z.to_nat (calls * iters * reps))).
Proof.
  split.
  - intros w.
    assert (Hok : tuning_ok ["callbench"; "t"; "1000"; "4"; "1"]%string).
    { intros idx Hidx.
      assert (Hc : idx = 2%nat \/ idx = 3%nat \/ idx = 4%nat) by lia.
      destruct Hc as [-> | [-> | ->]]; vm_compute; discriminate. }
    destruct (run_time_mode ["callbench"; "t"; "1000"; "4"; "1"]%string w Hok
                ltac:(simpl; lia) eq_refl)
      as (r1 & r2 & w' & Hret & Hinv & Hout & Herr & _).
    exists r1, r2, w'. split; [exact Hret |]. split; [exact Hinv |].
    split; [| exact Herr].
    rewrite Hout. f_equal. rewrite !string_app_assoc. reflexivity.
  - intros op calls iters reps w Hc Hi Hr Hav.
    destruct (run_bench_ns_returns op calls iters reps w Hc Hi Hr Hav)
      as (r & w' & Hret & Hinv & _).
    exists r, w'. split; [exact Hret |].
    rewrite <- to_nat_product by lia. exact Hinv.
Qed.

(** C2 at work, on its general part: 3 * 2 * 2 invocations of [mmap_mb]. *)
Lemma end_to_end_time_mode_witness :
  exists (r : Z) (w' : World),
    returns (fun fuel => run_bench_ns fuel (measured MmapMb) 3 2 2) world0 r w' /\
    invocations (trace w')
    = invocations (trace world0) ++ repeat MmapMb (Z.to_nat (3 * 2 * 2)).
Proof.
  apply (proj2 end_to_end_time_mode MmapMb 3 2 2 world0).
  - unfold UINT_MAX. lia.
  - unfold UINT_MAX. lia.
  - unfold UINT_MAX. lia.
  - repeat split.
Defined.

(** C3, as stated, fails: on the monotonic clock of the sample world, with
    [calls = 2^32] the innermost counter never reaches its bound, and
    [run_bench_ns] returns no value. *)
Lemma run_bench_ns_no_value_at_2_32_calls :
  monotonic (clock_readings world0) /\
  never_returns (fun fuel => run_bench_ns fuel (measured TimeSyscallMb) (2 ^ 32) 1 1)
                world0.
Proof.
  split; [exact world0_monotonic |].
  apply run_bench_ns_calls_unreachable; unfold UINT_MAX; lia.
Qed.

(** C3, amended: for [calls], [iters] and [reps] between 1 and 2^32 - 1, an
    operation that does not fault and any monotonic clock, [run_bench_ns]
    returns a value that is not negative. *)
Theorem run_bench_ns_nonnegative (op : bench_op) (calls iters reps : Z) (w : World) :
  1 <= calls <= UINT_MAX -> 1 <= iters <= UINT_MAX -> 1 <= reps <= UINT_MAX ->
  monotonic (clock_readings w) -> available op w ->
  exists (r : Z) (w' : World),
    returns (fun fuel => run_bench_ns fuel (measured op) calls iters reps) w r w' /\
    0 <= r.
Proof.
  intros Hc Hi Hr Hmono Hav.
  destruct (run_bench_ns_measures op calls iters reps w Hc Hi Hr Hmono Hav)
    as (rows & w' & _ & Hret & Hpos).
  exists (min_of_mins calls rows), w'. split; assumption.
Qed.

(** The amended C3 at work on the sample world. *)
Lemma run_bench_ns_nonnegative_witness :
  exists (r : Z) (w' : World),
    returns (fun fuel => run_bench_ns fuel (measured TimeSyscallMb) 2 1 2) world0 r w' /\
    0 <= r.
Proof.
  apply (run_bench_ns_nonnegative TimeSyscallMb 2 1 2 world0).
  - unfold UINT_MAX. lia.
  - unfold UINT_MAX. lia.
  - unfold UINT_MAX. lia.
  - exact world0_monotonic.
  - exact I.
Defined.

(** C4: [run_bench_ns] is monotone non-increasing in [reps], [calls] and
    [iters] being the same.  For two runs in the same environment (the same
    world, which fixes every clock reading, so that the operation costs the
    same in both): whenever the run with [reps1] and the run with the larger
    [reps2] both return, the second result is not larger.  For two runs at
    different times, in worlds where a sample of the operation measures the
    same [d] whenever it is taken: within the counters' reach both runs
    return, and the second result is not larger. *)
Theorem run_bench_ns_monotone_in_reps (op : bench_op) (calls iters reps1 reps2 : Z) :
  reps1 < reps2 ->
  (forall (w : World) (fuel1 fuel2 : nat) (r1 r2 : Z),
     out_of (run_bench_ns fuel1 (measured op) calls iters reps1 w) = Some r1 ->
     out_of (run_bench_ns fuel2 (measured op) calls iters reps2 w) = Some r2 ->
     r2 <= r1) /\
  (forall (d : Z) (w1 w2 : World),
     1 <= calls <= UINT_MAX -> 0 <= iters <= UINT_MAX -> 0 <= reps1 ->
     reps2 <= UINT_MAX ->
     steady op calls d w1 -> steady op calls d w2 ->
     available op w1 -> available op w2 ->
     exists (r1 r2 : Z) (w1' w2' : World),
       returns (fun fuel => run_bench_ns fuel (measured op) calls iters reps1) w1 r1 w1' /\
       returns (fun fuel => run_bench_ns fuel (measured op) calls iters reps2) w2 r2 w2' /\
       r2 <= r1).
Proof.
  intros Hlt. split.
  - intros w fuel1 fuel2 r1 r2 E1 E2.
    exact (run_bench_ns_longer (measured op) calls iters reps1 reps2 w fuel1 fuel2
             r1 r2 ltac:(lia) E1 E2).
  - intros d w1 w2 Hc Hi H1 H2 Hst1 Hst2 Hav1 Hav2.
    destruct (run_bench_ns_steady_returns op calls iters reps1 d w1 Hc Hi ltac:(lia)
                Hst1 Hav1) as (w1' & Hret1).
    destruct (run_bench_ns_steady_returns op calls iters reps2 d w2 Hc Hi ltac:(lia)
                Hst2 Hav2) as (w2' & Hret2).
    exists (steady_result d calls iters reps1), (steady_result d calls iters reps2),
           w1', w2'.
    split; [exact Hret1 |]. split; [exact Hret2 |].
    apply steady_result_monotone. exact Hlt.
Qed.

(** C4 at work: 90 ns with one repetition, 30 ns with three; and two runs on
    the one-second clock, started seven readings apart. *)
Lemma run_bench_ns_monotone_in_reps_witness :
  (out_of (run_bench_ns 5 (measured FileMb) 1 1 1 world0) = Some 90 /\
   out_of (run_bench_ns 5 (measured FileMb) 1 1 3 world0) = Some 30 /\
   30 <= 90) /\
  (exists (r1 r2 : Z) (w1' w2' : World),
     returns (fun fuel => run_bench_ns fuel (measured TimeSyscallMb) 2 3 1)
             world_steady r1 w1' /\
     returns (fun fuel => run_bench_ns fuel (measured TimeSyscallMb) 2 3 3)
             world_steady_later r2 w2' /\
     r2 <= r1).
Proof.
  split.
  - split; [reflexivity |]. split; [reflexivity |].
    apply (proj1 (run_bench_ns_monotone_in_reps FileMb 1 1 1 3 ltac:(lia))
             world0 5%nat 5%nat 90 30); reflexivity.
  - apply (proj2 (run_bench_ns_monotone_in_reps TimeSyscallMb 2 3 1 3 ltac:(lia))
             (NS_PER_SEC * (1 + Z.of_nat (reads_per_call TimeSyscallMb) * 2))
             world_steady world_steady_later).
    + unfold UINT_MAX. lia.
    + unfold UINT_MAX. lia.
    + lia.
    + unfold UINT_MAX. lia.
    + apply second_clock_steady. unfold UINT_MAX. lia.
    + apply second_clock_steady. unfold UINT_MAX. lia.
    + exact I.
    + exact I.
Defined.

(** C5: whatever the tuning arguments and however far the run gets, a first
    argument whose first character is [t] or [T] makes the program enter
    clock operations only, [f] or [F] file operations only, and [a], [A] or
    no argument no clock operation after a file operation.  With tuning
    arguments that are not read as negative numbers the run returns, and it
    has then entered exactly: the two clock operations for [t]; on a device
    that can be read, the two file operations for [f]; both pairs, the clock
    pair first, for [a] or no argument; each of them at least once. *)
Theorem mode_dispatch (argv : list string) (w : World) :
  ((2 <= List.length argv)%nat -> mode_of argv = "t"%char ->
   forall fuel, only_ops is_clock_op w (world_of (run_program fuel argv w))) /\
  ((2 <= List.length argv)%nat -> mode_of argv = "f"%char ->
   forall fuel, only_ops is_file_op w (world_of (run_program fuel argv w))) /\
  ((List.length argv < 2)%nat \/ mode_of argv = "a"%char ->
   forall fuel, clock_then_file w (world_of (run_program fuel argv w))) /\
  (tuning_ok argv ->
   ((2 <= List.length argv)%nat -> mode_of argv = "t"%char ->
    exists w' : World,
      returns (fun fuel => run_program fuel argv) w 0 w' /\
      invocations (trace w')
      = invocations (trace w) ++
        repeat TimeSyscallMb (time_invocations argv) ++
        repeat TimeImplicitMb (time_invocations argv)) /\
   ((2 <= List.length argv)%nat -> mode_of argv = "f"%char -> available MmapMb w ->
    exists w' : World,
      returns (fun fuel => run_program fuel argv) w 0 w' /\
      invocations (trace w')
      = invocations (trace w) ++
        repeat MmapMb (file_invocations argv) ++ repeat FileMb (file_invocations argv)) /\
   ((List.length argv < 2)%nat \/ mode_of argv = "a"%char -> available MmapMb w ->
    exists w' : World,
      returns (fun fuel => run_program fuel argv) w 0 w' /\
      invocations (trace w')
      = invocations (trace w) ++
        repeat TimeSyscallMb (time_invocations argv) ++
        repeat TimeImplicitMb (time_invocations argv) ++
        repeat MmapMb (file_invocations argv) ++ repeat FileMb (file_invocations argv)) /\
   (0 < time_invocations argv)%nat /\ (0 < file_invocations argv)%nat).
Proof.
  split; [| split; [| split]].
  - intros Hlen Hmode fuel. exact (time_mode_only_clock fuel argv w Hlen Hmode).
  - intros Hlen Hmode fuel. exact (file_mode_only_file fuel argv w Hlen Hmode).
  - intros Hmode fuel. exact (all_mode_clock_then_file fuel argv w Hmode).
  - intros Hok. split; [| split; [| split; [| split]]].
    + intros Hlen Hmode.
      destruct (run_time_mode argv w Hok Hlen Hmode) as (r1 & r2 & w' & Hret & Hinv & _).
      exists w'. split; assumption.
    + intros Hlen Hmode Hav. exact (run_file_mode argv w Hok Hlen Hmode Hav).
    + intros Hmode Hav. exact (run_all_mode argv w Hok Hmode Hav).
    + exact (time_invocations_positive argv Hok).
    + exact (file_invocations_positive argv Hok).
Qed.

(** C5 at work: [Time 2 x 3] runs each clock operation 2 * 32 * 3 times, and
    [Time -1] enters nothing but clock operations while it spins. *)
Lemma mode_dispatch_witness :
  (exists w' : World,
     returns (fun fuel => run_program fuel ["callbench"; "Time"; "2"; "x"; "3"]%string)
             world0 0 w' /\
     invocations (trace w')
     = invocations (trace world0) ++
       repeat TimeSyscallMb (time_invocations ["callbench"; "Time"; "2"; "x"; "3"]%string) ++
       repeat TimeImplicitMb (time_invocations ["callbench"; "Time"; "2"; "x"; "3"]%string)) /\
  time_invocations ["callbench"; "Time"; "2"; "x"; "3"]%string = 192%nat /\
  (forall fuel,
     only_ops is_clock_op world0
       (world_of (run_program fuel ["callbench"; "Time"; "-1"]%string world0))).
Proof.
  split; [| split; [reflexivity |]].
  - refine (proj1 (proj2 (proj2 (proj2
              (mode_dispatch ["callbench"; "Time"; "2"; "x"; "3"]%string world0))) _) _ _).
    + intros idx Hidx.
      assert (Hc : idx = 2%nat \/ idx = 3%nat \/ idx = 4%nat) by lia.
      destruct Hc as [-> | [-> | ->]]; vm_compute; discriminate.
    + simpl. lia.
    + reflexivity.
  - apply (proj1 (mode_dispatch ["callbench"; "Time"; "-1"]%string world0)).
    + simpl. lia.
    + reflexivity.
Defined.

(** C6: when the first argument's first character, lowercased, is none of
    [t], [f] and [a], the program writes to standard error the diagnostic
    that quotes that character and names the three valid modes, returns
    status 1, writes nothing to standard output and enters no measured
    operation; this takes no pass of any loop. *)
Theorem invalid_mode (argv : list string) (w : World) (fuel : nat) :
  (2 <= List.length argv)%nat ->
  mode_of argv <> "t"%char -> mode_of argv <> "f"%char -> mode_of argv <> "a"%char ->
  exists w' : World,
    run_program fuel argv w = Done 1 w' /\
    stderr_text (trace w')
    = (stderr_text (trace w) ++ "Invalid mode '" ++ String (mode_of argv)
         "'! Valid modes are: [t]ime, [f]ile, [a]ll" ++ LF)%string /\
    stdout_text (trace w') = stdout_text (trace w) /\
    invocations (trace w') = invocations (trace w).
Proof.
  intros Hlen Ht Hf Ha.
  exists (set_trace w (trace w ++ [Stderr (invalid_mode_message (mode_of argv))])).
  split; [| split; [| split]].
  - unfold run_program, main.
    destruct (Z.geb_spec (Z.of_nat (List.length argv)) 2) as [_ | ?]; [| lia].
    fold (mode_of argv). unfold ascii_eqb.
    destruct (Ascii.eqb_spec (mode_of argv) "t"); [contradiction |].
    destruct (Ascii.eqb_spec (mode_of argv) "f"); [contradiction |].
    destruct (Ascii.eqb_spec (mode_of argv) "a"); [contradiction |].
    reflexivity.
  - cbn [trace set_trace]. rewrite stderr_text_app. cbn [stderr_text].
    rewrite string_app_nil_r. reflexivity.
  - cbn [trace set_trace]. rewrite stdout_text_app. cbn [stdout_text].
    rewrite string_app_nil_r. reflexivity.
  - cbn [trace set_trace]. rewrite invocations_app. cbn [invocations].
    rewrite app_nil_r. reflexivity.
Qed.

(** C6 at work: [Zed] is refused as mode [z], before any loop is entered. *)
Lemma invalid_mode_witness :
  exists w' : World,
    run_program 0 ["callbench"; "Zed"]%string world0 = Done 1 w' /\
    stderr_text (trace w')
    = (stderr_text (trace world0) ++ "Invalid mode '"
         ++ String (mode_of ["callbench"; "Zed"]%string)
              "'! Valid modes are: [t]ime, [f]ile, [a]ll" ++ LF)%string /\
    stdout_text (trace w') = stdout_text (trace world0) /\
    invocations (trace w') = invocations (trace world0).
Proof.
  apply (invalid_mode ["callbench"; "Zed"]%string world0 0).
  - simpl. lia.
  - discriminate.
  - discriminate.
  - discriminate.
Defined.






(** C9: a token that [atoi] reads as a negative integer makes [get_arg]
    return that integer converted to [unsigned long], that is 2^64 more, a
    count of at least 2^64 - 2^31 and not the documented default; only a
    token read as exactly 0 is replaced by the default, any other is
    returned converted. *)
Theorem get_arg_negative (argv : list string) (idx : nat) (tok : string) (d : Z) :
  nth_error argv idx = Some tok ->
  let r := get_arg (Z.of_nat (List.length argv)) argv (Z.of_nat idx) d in
  (atoi tok < 0 ->
   r = 2 ^ 64 + atoi tok /\ 2 ^ 64 - 2 ^ 31 <= r < 2 ^ 64 /\
   (d < 2 ^ 64 - 2 ^ 31 -> r <> d)) /\
  (atoi tok = 0 -> r = d) /\
  (atoi tok <> 0 -> r = to_ulong (atoi tok) /\ r <> 0).
Proof.
  intros Hnth r.
  assert (Hlt : (idx < List.length argv)%nat).
  { apply nth_error_Some. congruence. }
  assert (Hr : r = if atoi tok =? 0 then d
                   else if atoi tok <? 0 then 2 ^ 64 + atoi tok else atoi tok).
  { unfold r. rewrite get_arg_present by lia. cbv zeta. rewrite Nat2Z.id.
    rewrite (nth_error_nth argv idx EmptyString Hnth). reflexivity. }
  pose proof (atoi_range tok) as Hrange.
  destruct (to_ulong_int (atoi tok) Hrange) as [Hu _].
  rewrite Hr, Hu. clear Hr Hu r.
  destruct (Z.eqb_spec (atoi tok) 0) as [E0 | N0];
    destruct (Z.ltb_spec (atoi tok) 0) as [Hneg | Hpos];
    repeat split; intros; lia.
Qed.

(** C9 at work: [-5] becomes 2^64 - 5. *)
Lemma get_arg_negative_witness :
  get_arg 3 ["callbench"; "t"; "-5"]%string 2 100000 = 2 ^ 64 + atoi "-5" /\
  get_arg 3 ["callbench"; "t"; "-5"]%string 2 100000 = 18446744073709551611.
Proof.
  split; [| reflexivity].
  apply (proj1 (get_arg_negative ["callbench"; "t"; "-5"]%string 2 "-5" 100000 eq_refl)).
  reflexivity.
Defined.

(** C10: [run_bench_ns] stops for every [calls], [iters] and [reps] of at
    most 2^32 - 1 (by returning, or by a fault of the operation or of the
    division); a [reps] of 2^32 or more, an [iters] of 2^32 or more when
    [reps >= 1], a [calls] of 2^32 or more when [iters >= 1] and
    [reps >= 1], each keep the 32-bit counter of their loop below the bound
    for ever, and the function never returns. *)
Theorem run_bench_ns_termination (op : bench_op) (calls iters reps : Z) (w : World) :
  (calls <= UINT_MAX -> iters <= UINT_MAX -> reps <= UINT_MAX ->
   terminates (fun fuel => run_bench_ns fuel (measured op) calls iters reps) w) /\
  (2 ^ 32 <= reps ->
   never_returns (fun fuel => run_bench_ns fuel (measured op) calls iters reps) w) /\
  (2 ^ 32 <= iters -> 1 <= reps ->
   never_returns (fun fuel => run_bench_ns fuel (measured op) calls iters reps) w) /\
  (2 ^ 32 <= calls -> 1 <= iters -> 1 <= reps ->
   never_returns (fun fuel => run_bench_ns fuel (measured op) calls iters reps) w).
Proof.
  repeat split.
  - apply run_bench_ns_halts.
  - intros H. apply run_bench_ns_reps_unreachable. unfold UINT_MAX. lia.
  - intros H1 H2. apply run_bench_ns_iters_unreachable; [unfold UINT_MAX; lia | lia].
  - intros H1 H2 H3.
    apply run_bench_ns_calls_unreachable; [unfold UINT_MAX; lia | lia | lia].
Qed.

(** C10 at work: one run that stops, and one that does not per loop. *)
Lemma run_bench_ns_termination_witness :
  terminates (fun fuel => run_bench_ns fuel (measured MmapMb) 3 2 1) world0 /\
  never_returns (fun fuel => run_bench_ns fuel (measured MmapMb) 3 2 (2 ^ 32)) world0 /\
  never_returns (fun fuel => run_bench_ns fuel (measured MmapMb) 3 (2 ^ 32) 1) world0 /\
  never_returns (fun fuel => run_bench_ns fuel (measured MmapMb) (2 ^ 32) 2 1) world0.
Proof.
  split; [| split; [| split]].
  - apply (proj1 (run_bench_ns_termination MmapMb 3 2 1 world0)); unfold UINT_MAX; lia.
  - apply (proj1 (proj2 (run_bench_ns_termination MmapMb 3 2 (2 ^ 32) world0))). lia.
  - apply (proj1 (proj2 (proj2 (run_bench_ns_termination MmapMb 3 (2 ^ 32) 1 world0))));
      lia.
  - apply (proj2 (proj2 (proj2 (run_bench_ns_termination MmapMb (2 ^ 32) 2 1 world0))));
      lia.
Defined.

(** * Further properties *)

(** X1: on readings in range (seconds and nanoseconds not negative, fewer
    than 10^9 nanoseconds, the total within [long]) [true_ns] loses nothing:
    the seconds and the nanoseconds are recovered from its value by division,
    it puts two readings in the order of their (seconds, nanoseconds) pairs,
    and the difference [run_bench_ns] takes of two of its values is the exact
    number of nanoseconds between the readings, negative when the second
    reading is the earlier one. *)
Theorem true_ns_faithful (a b : timespec) :
  wf_timespec a -> wf_timespec b ->
  (true_ns a / NS_PER_SEC = tv_sec a /\ true_ns a mod NS_PER_SEC = tv_nsec a) /\
  (true_ns a < true_ns b <-> earlier a b) /\
  to_long (true_ns b - true_ns a) = nanoseconds b - nanoseconds a.
Proof.
  intros Ha Hb. split; [| split].
  - exact (true_ns_decode a Ha).
  - exact (true_ns_order a b Ha Hb).
  - exact (elapsed_signed a b Ha Hb).
Qed.

(** X1 at work: one nanosecond before a full second, and that second. *)
Lemma true_ns_faithful_witness :
  (true_ns (mkTimespec 1 999999999) / NS_PER_SEC = tv_sec (mkTimespec 1 999999999) /\
   true_ns (mkTimespec 1 999999999) mod NS_PER_SEC = tv_nsec (mkTimespec 1 999999999)) /\
  (true_ns (mkTimespec 1 999999999) < true_ns (mkTimespec 2 0)
   <-> earlier (mkTimespec 1 999999999) (mkTimespec 2 0)) /\
  to_long (true_ns (mkTimespec 2 0) - true_ns (mkTimespec 1 999999999))
  = nanoseconds (mkTimespec 2 0) - nanoseconds (mkTimespec 1 999999999).
Proof.
  apply (true_ns_faithful (mkTimespec 1 999999999) (mkTimespec 2 0));
    unfold wf_timespec, nanoseconds, NS_PER_SEC, LONG_MAX; cbn [tv_sec tv_nsec]; lia.
Defined.

(** X2: whatever the arguments, [get_arg] returns the default, a count
    from 1 to 2^31 - 1, or a count from 2^64 - 2^31 to 2^64 - 1: no count
    between 2^31 and 2^64 - 2^31 - 1 can be asked for, unless it is the
    default.  With a default of at least 1 the result is at least 1, so that
    the drivers never hand [run_bench_ns] a count of zero. *)
Theorem get_arg_values (argc : Z) (argv : list string) (index d : Z) :
  (get_arg argc argv index d = d \/
   1 <= get_arg argc argv index d < 2 ^ 31 \/
   2 ^ 64 - 2 ^ 31 <= get_arg argc argv index d < 2 ^ 64) /\
  (1 <= d -> 1 <= get_arg argc argv index d).
Proof.
  split; [apply get_arg_cases | apply get_arg_positive].
Qed.

(** X2 at work: the smallest default, and an argument read as -1. *)
Lemma get_arg_values_witness :
  1 <= get_arg 3 ["callbench"; "t"; "-1"]%string 2 1.
Proof.
  apply (proj2 (get_arg_values 3 ["callbench"; "t"; "-1"]%string 2 1)). lia.
Defined.

(** X3: a count typed in decimal, as [printf] would write it with [%ld]:
    from 1 to 2^31 - 1 it is the count [get_arg] returns; from 2^31 to
    2^32 - 1 [atoi] reads it as negative and the count returned is 2^64 - 2^32
    more; a multiple of 2^32 is read as zero and replaced by the default. *)
Theorem get_arg_decimal (argv : list string) (idx : nat) (n d : Z) :
  nth_error argv idx = Some (format_long n) ->
  (1 <= n < 2 ^ 31 ->
   get_arg (Z.of_nat (List.length argv)) argv (Z.of_nat idx) d = n) /\
  (2 ^ 31 <= n < 2 ^ 32 ->
   get_arg (Z.of_nat (List.length argv)) argv (Z.of_nat idx) d = 2 ^ 64 - 2 ^ 32 + n) /\
  (- 2 ^ 63 <= n <= LONG_MAX -> n mod 2 ^ 32 = 0 ->
   get_arg (Z.of_nat (List.length argv)) argv (Z.of_nat idx) d = d).
Proof.
  intros Hnth. split; [| split].
  - intros Hn. rewrite (get_arg_format_long argv idx n d Hnth) by (unfold LONG_MAX; lia).
    rewrite to_int_small by lia.
    destruct (Z.eqb_spec n 0); [lia |]. apply to_ulong_small. unfold LONG_MAX. lia.
  - intros Hn. rewrite (get_arg_format_long argv idx n d Hnth) by (unfold LONG_MAX; lia).
    assert (E : to_int n = n - 2 ^ 32).
    { unfold to_int.
      rewrite <- (Z.mod_unique_pos (n + 2 ^ 31) (2 ^ 32) 1 (n - 2 ^ 31)); lia. }
    rewrite E. destruct (Z.eqb_spec (n - 2 ^ 32) 0); [lia |].
    destruct (to_ulong_int (n - 2 ^ 32) ltac:(lia)) as [-> _].
    destruct (Z.ltb_spec (n - 2 ^ 32) 0); lia.
  - intros Hn Hmod. rewrite (get_arg_format_long argv idx n d Hnth) by exact Hn.
    assert (E : to_int n = 0).
    { unfold to_int. rewrite (Z.div_mod n (2 ^ 32)) at 1 by lia. rewrite Hmod.
      rewrite Z.add_0_r, Z.add_comm, Z.mul_comm, Z.mod_add by lia. reflexivity. }
    rewrite E. reflexivity.
Qed.

(** X3 at work: 250, 3000000000 and 4294967296 as the number of calls. *)
Lemma get_arg_decimal_witness :
  get_arg 3 ["callbench"; "t"; "250"]%string 2 100000 = 250 /\
  get_arg 3 ["callbench"; "t"; "3000000000"]%string 2 100000
  = 2 ^ 64 - 2 ^ 32 + 3000000000 /\
  get_arg 3 ["callbench"; "t"; "4294967296"]%string 2 100000 = 100000.
Proof.
  split; [| split].
  - apply (proj1 (get_arg_decimal ["callbench"; "t"; "250"]%string 2 250 100000 eq_refl)).
    lia.
  - apply (proj1 (proj2 (get_arg_decimal ["callbench"; "t"; "3000000000"]%string 2
                           3000000000 100000 eq_refl))).
    lia.
  - apply (proj2 (proj2 (get_arg_decimal ["callbench"; "t"; "4294967296"]%string 2
                           4294967296 100000 eq_refl))).
    + unfold LONG_MAX. lia.
    + reflexivity.
Defined.

(** X4: [run_bench_ns] without a sample.  With [reps = 0] it returns
    [LONG_MAX] at once and does nothing.  With [iters = 0] (and [calls] at
    least 1, [reps] from 1 to 2^32 - 1) it never reads the clock and never
    calls the operation, yet writes its marker, flushes and pauses once per
    repetition, and returns [LONG_MAX / calls], the quotient of the initial
    value of the minimum. *)
Theorem run_bench_ns_without_samples (inner_call : bench_impl) (calls iters reps : Z)
    (w : World) :
  (reps = 0 ->
   returns (fun fuel => run_bench_ns fuel inner_call calls iters reps) w LONG_MAX w) /\
  (iters = 0 -> 1 <= calls -> 1 <= reps <= UINT_MAX ->
   returns (fun fuel => run_bench_ns fuel inner_call calls iters reps) w
     (LONG_MAX / calls)
     (set_trace w (trace w ++ List.concat (repeat marker_and_pause (Z.to_nat reps))))).
Proof.
  split.
  - intros ->. exists 1%nat. intros fuel Hfuel. destruct fuel as [| fuel]; [lia |].
    apply run_bench_ns_no_repetition.
  - intros -> Hc Hr. apply run_bench_ns_no_iteration; assumption.
Qed.

(** X4 at work: three calls, no iteration, two repetitions of [mmap_mb]
    where the device is out of reach. *)
Lemma run_bench_ns_without_samples_witness :
  returns (fun fuel => run_bench_ns fuel mmap_mb 3 0 2) world_no_device
    (LONG_MAX / 3)
    (set_trace world_no_device
       (trace world_no_device ++ List.concat (repeat marker_and_pause (Z.to_nat 2)))).
Proof.
  apply (proj2 (run_bench_ns_without_samples mmap_mb 3 0 2 world_no_device)).
  - reflexivity.
  - lia.
  - unfold UINT_MAX. lia.
Defined.

(** X5: with [calls = 0] (and [iters] at most 2^32 - 1, [reps] at least 1)
    the first repetition takes its [iters] samples of nothing, two clock
    readings each, and then reaches [best_ns2 /= calls] with a divisor of
    zero, which kills the process: the run ends there, having called no
    operation and written nothing, not even the first marker. *)
Theorem run_bench_ns_zero_calls (inner_call : bench_impl) (iters reps : Z) (w : World) :
  0 <= iters <= UINT_MAX -> 1 <= reps ->
  faults_in (fun fuel => run_bench_ns fuel inner_call 0 iters reps)
            w (set_reads w (clock_reads w + 2 * Z.to_nat iters)).
Proof.
  intros Hi Hr. exists (S (Z.to_nat iters)). intros fuel Hfuel.
  destruct fuel as [| fuel]; [lia |].
  unfold run_bench_ns. cbn [for_loop].
  destruct (Z.ltb_spec 0 reps) as [_ | ?]; [| lia].
  unfold bind at 1. unfold repetition. unfold bind at 1.
  rewrite for_loop_iterate by lia.
  replace (iters - 0) with iters by lia.
  destruct (samples_of_nothing fuel inner_call (Z.to_nat iters) LONG_MAX w) as (s' & ->).
  reflexivity.
Qed.

(** X5 at work: two iterations, four readings of the clock, then the fault. *)
Lemma run_bench_ns_zero_calls_witness :
  faults_in (fun fuel => run_bench_ns fuel file_mb 0 2 1)
            world0 (set_reads world0 (clock_reads world0 + 2 * Z.to_nat 2)).
Proof.
  apply (run_bench_ns_zero_calls file_mb 2 1 world0).
  - unfold UINT_MAX. lia.
  - lia.
Defined.

(** X6: the program cannot fault in mode [t], whatever the world and the
    other arguments; and in no mode, valid or not, where the device can be
    opened and mapped and memory allocated.  This holds for every fuel, so
    also for runs that never end.  In particular the division by [calls]
    never divides by zero in a run started from [main]. *)
Theorem run_program_no_fault (argv : list string) (w : World) (fuel : nat) :
  ((2 <= List.length argv)%nat /\ mode_of argv = "t"%char) \/ available MmapMb w ->
  no_fault (run_program fuel argv w).
Proof.
  intros [[Hlen Hmode] | Hav].
  - exact (run_program_safe_time fuel argv w Hlen Hmode).
  - exact (run_program_safe_device fuel argv w Hav).
Qed.

(** X6 at work: mode [t] where the device is out of reach, with a count
    that is read as negative. *)
Lemma run_program_no_fault_witness :
  no_fault (run_program 3 ["callbench"; "time"; "-1"]%string world_no_device).
Proof.
  apply (run_program_no_fault ["callbench"; "time"; "-1"]%string world_no_device 3).
  left. split; [simpl; lia | reflexivity].
Defined.

(** X7: with [calls] at least 2, what [run_bench_ns] returns is never
    negative, on any clock, monotonic or not, and for any operation: the
    division [best_ns2 /= calls] is unsigned, so a negative minimum is
    divided as a number of at least 2^63 and the quotient is again a [long]
    that is not negative. *)
Theorem run_bench_ns_unsigned_quotient (fuel : nat) (inner_call : bench_impl)
    (calls iters reps : Z) (w : World) (r : Z) :
  2 <= calls ->
  out_of (run_bench_ns fuel inner_call calls iters reps w) = Some r ->
  0 <= r <= LONG_MAX.
Proof.
  intros Hc E. apply out_of_done in E. destruct E as (w' & E).
  exact (run_bench_ns_unsigned fuel inner_call calls iters reps w r w' Hc E).
Qed.

(** X7 at work: the clock steps back by 60 ns during the first of two
    samples; with two calls per sample the result is 2^63 - 30. *)
Lemma run_bench_ns_unsigned_quotient_witness :
  out_of (run_bench_ns 5 file_mb 2 2 1 world_backwards) = Some (2 ^ 63 - 30) /\
  0 <= 2 ^ 63 - 30 <= LONG_MAX.
Proof.
  split; [reflexivity |].
  apply (run_bench_ns_unsigned_quotient 5 file_mb 2 2 1 world_backwards (2 ^ 63 - 30)).
  - lia.
  - reflexivity.
Defined.

(** X8: a run of [run_bench_ns] that measures [op] with counts within the
    counters' reach reads the clock exactly [reps * iters * (2 + k * calls)]
    times, where [k] is 1 for the two clock operations, which read it once
    per call, and 0 for the two file operations: two readings of its own for
    each sample, and none elsewhere. *)
Theorem run_bench_ns_clock_reads (op : bench_op) (calls iters reps : Z) (w : World) :
  1 <= calls <= UINT_MAX -> 0 <= iters <= UINT_MAX -> 0 <= reps <= UINT_MAX ->
  available op w ->
  exists (r : Z) (w' : World),
    returns (fun fuel => run_bench_ns fuel (measured op) calls iters reps) w r w' /\
    Z.of_nat (clock_reads w')
    = Z.of_nat (clock_reads w)
      + reps * iters * (2 + Z.of_nat (reads_per_call op) * calls).
Proof.
  intros Hc Hi Hr Hav.
  destruct (run_bench_ns_returns op calls iters reps w Hc Hi Hr Hav)
    as (r & w' & Hret & _).
  exists r, w'. split; [exact Hret |].
  destruct Hret as (fuel0 & Hret).
  rewrite (run_bench_ns_reads fuel0 op calls iters reps w r w'
             ltac:(lia) Hi Hr (Hret fuel0 (Nat.le_refl fuel0))).
  ring.
Qed.

(** X8 at work: 2 * 2 * (2 + 3) readings for [time_syscall_mb]. *)
Lemma run_bench_ns_clock_reads_witness :
  exists (r : Z) (w' : World),
    returns (fun fuel => run_bench_ns fuel (measured TimeSyscallMb) 3 2 2) world0 r w' /\
    Z.of_nat (clock_reads w')
    = Z.of_nat (clock_reads world0)
      + 2 * 2 * (2 + Z.of_nat (reads_per_call TimeSyscallMb) * 3).
Proof.
  apply (run_bench_ns_clock_reads TimeSyscallMb 3 2 2 world0).
  - unfold UINT_MAX. lia.
  - unfold UINT_MAX. lia.
  - unfold UINT_MAX. lia.
  - exact Logic.I.
Defined.

(** X9: what a run of [run_bench_ns] does to the terminal is, for each
    repetition and in this order, the marker [.] written, standard output
    flushed, and a pause of 125000 microseconds, and nothing else: the
    marker of a repetition is out before its pause begins, and the run
    pauses [reps] times, after the last repetition too. *)
Theorem run_bench_ns_progress (op : bench_op) (calls iters reps : Z) (w : World) :
  1 <= calls <= UINT_MAX -> 0 <= iters <= UINT_MAX -> 0 <= reps <= UINT_MAX ->
  available op w ->
  exists (r : Z) (w' : World),
    returns (fun fuel => run_bench_ns fuel (measured op) calls iters reps) w r w' /\
    console (trace w')
    = console (trace w) ++ List.concat (repeat marker_and_pause (Z.to_nat reps)).
Proof.
  intros Hc Hi Hr Hav.
  destruct (run_bench_ns_returns op calls iters reps w Hc Hi Hr Hav)
    as (r & w' & Hret & _).
  exists r, w'. split; [exact Hret |].
  destruct Hret as (fuel0 & Hret).
  exact (run_bench_ns_console fuel0 op calls iters reps w r w' Hr
           (Hret fuel0 (Nat.le_refl fuel0))).
Qed.

(** X9 at work: two repetitions of [file_mb]. *)
Lemma run_bench_ns_progress_witness :
  exists (r : Z) (w' : World),
    returns (fun fuel => run_bench_ns fuel (measured FileMb) 1 1 2) world0 r w' /\
    console (trace w')
    = console (trace world0) ++ List.concat (repeat marker_and_pause (Z.to_nat 2)).
Proof.
  apply (run_bench_ns_progress FileMb 1 1 2 world0).
  - unfold UINT_MAX. lia.
  - unfold UINT_MAX. lia.
  - unfold UINT_MAX. lia.
  - exact Logic.I.
Defined.

(** X10: of [argv] the program reads only whether it has at least two
    entries, the first character of [argv[1]], lowercased, and what [atoi]
    makes of [argv[2]], [argv[3]] and [argv[4]]: two command lines that
    agree on these run alike, from any world and with any fuel.  So the
    program's name, the rest of the mode word, the case of its first letter,
    blanks, a plus sign or zeros before a count, anything after its digits,
    and everything after [argv[4]] are without effect. *)
Theorem run_program_arguments_read (argv argv' : list string) :
  ((2 <= List.length argv)%nat <-> (2 <= List.length argv')%nat) ->
  mode_of argv = mode_of argv' ->
  (forall k : nat, (2 <= k <= 4)%nat ->
     atoi (nth k argv EmptyString) = atoi (nth k argv' EmptyString)) ->
  same_runs argv argv'.
Proof.
  intros Hlen Hmode Htok fuel w. unfold run_program.
  apply main_same_mode.
  - destruct (Z.geb_spec (Z.of_nat (List.length argv)) 2);
      destruct (Z.geb_spec (Z.of_nat (List.length argv')) 2); try reflexivity; lia.
  - exact Hmode.
  - intros d. change 2 with (Z.of_nat 2). rewrite !get_arg_by_atoi.
    rewrite (Htok 2%nat) by lia. reflexivity.
  - intros d. change 3 with (Z.of_nat 3). rewrite !get_arg_by_atoi.
    rewrite (Htok 3%nat) by lia. reflexivity.
  - intros d. change 4 with (Z.of_nat 4). rewrite !get_arg_by_atoi.
    rewrite (Htok 4%nat) by lia. reflexivity.
Qed.

(** X10 at work. *)
Lemma run_program_arguments_read_witness :
  same_runs ["./callbench"; "TIME"; "+7"; " 3x"; "001"; "more"]%string
            ["callbench"; "t"; "7"; "3"; "1"]%string.
Proof.
  apply run_program_arguments_read.
  - split; intros _; simpl; lia.
  - reflexivity.
  - intros k Hk.
    assert (Hc : k = 2%nat \/ k = 3%nat \/ k = 4%nat) by lia.
    destruct Hc as [-> | [-> | ->]]; reflexivity.
Defined.

(** X11: mode [a], and the program without arguments, is mode [t], a
    newline, and mode [f] with the same other arguments, one after the
    other: the outcomes are the same in every world and for every fuel,
    faults and runs that do not end included. *)
Theorem all_mode_is_time_then_file (argv : list string) (fuel : nat) (w : World) :
  (1 <= List.length argv)%nat ->
  (List.length argv < 2)%nat \/ mode_of argv = "a"%char ->
  run_program fuel argv w
  = (run_program fuel (set_arg argv 1 "t") ;;
     putchar (ascii_of_nat 10) ;;
     run_program fuel (set_arg argv 1 "f")) w.
Proof.
  intros Hlen Hmode. rewrite main_all_mode by exact Hmode.
  apply bind_ext_at.
  - rewrite main_time_mode.
    + symmetry. apply bench_time_set_mode. exact Hlen.
    + rewrite set_arg_length by lia. lia.
    + rewrite mode_of_set_arg by exact Hlen. reflexivity.
  - intros r w1 _. apply bind_ext_at; [reflexivity |].
    intros [] w2 _. rewrite main_file_mode.
    + symmetry. apply bench_file_set_mode. exact Hlen.
    + rewrite set_arg_length by lia. lia.
    + rewrite mode_of_set_arg by exact Hlen. reflexivity.
Qed.

(** X11 at work: no argument at all, where the device is out of reach. *)
Lemma all_mode_is_time_then_file_witness :
  run_program 3 ["callbench"]%string world_no_device
  = (run_program 3 (set_arg ["callbench"]%string 1 "t") ;;
     putchar (ascii_of_nat 10) ;;
     run_program 3 (set_arg ["callbench"]%string 1 "f")) world_no_device.
Proof.
  apply (all_mode_is_time_then_file ["callbench"]%string 3 world_no_device).
  - simpl. lia.
  - left. simpl. lia.
Defined.

(** X12: when the program returns, its status is 0 or 1: 1 exactly when
    the mode is not valid, 0 otherwise.  The drivers only ever return 0, so
    the two tests [if (ret) return ret] of [main] never fire. *)
Theorem exit_status (argv : list string) (w : World) (fuel : nat) (r : Z) :
  out_of (run_program fuel argv w) = Some r ->
  (r = 0 /\ valid_mode argv) \/ (r = 1 /\ ~ valid_mode argv).
Proof.
  intros E. apply out_of_done in E. destruct E as (w' & E).
  exact (main_status fuel argv w r w' E).
Qed.

(** X12 at work: one call, one iteration, one repetition in mode [t]. *)
Lemma exit_status_witness :
  (0 = 0 /\ valid_mode ["callbench"; "t"; "1"; "1"; "1"]%string) \/
  (0 = 1 /\ ~ valid_mode ["callbench"; "t"; "1"; "1"; "1"]%string).
Proof.
  apply (exit_status ["callbench"; "t"; "1"; "1"; "1"]%string world0 3 0).
  reflexivity.
Defined.

(** X13: whatever the arguments and whatever the device, the mapping and
    the allocator do, the program holds exactly the descriptors, mappings and
    blocks it held when it started, and no other, wherever it has got to: when
    it has returned, and at every turn of a loop of a run that has not ended.
    Every [open], [mmap] and [malloc] that succeeded inside an operation has
    been undone before the operation returns. *)
Theorem run_program_holds_nothing (argv : list string) (w : World) (fuel : nat) :
  same_resources w (world_of (run_program fuel argv w)).
Proof.
  pose proof (run_program_releases fuel argv w w (same_resources_refl w)) as H.
  destruct (run_program fuel argv w) as [r w' | w' | w'];
    [exact H | contradiction | exact H].
Qed.

(** X14: in a valid mode, an [argv[2]], [argv[3]] or [argv[4]] that [atoi]
    reads as negative keeps the program from ever returning; in mode [t],
    or where the device can be opened and mapped and memory allocated, it
    does not fault either, and so runs for ever. *)
Theorem negative_count_never_exits (argv : list string) (idx : nat) (w : World) :
  valid_mode argv -> (2 <= idx <= 4)%nat -> atoi (nth idx argv EmptyString) < 0 ->
  never_returns (fun fuel => run_program fuel argv) w /\
  (((2 <= List.length argv)%nat /\ mode_of argv = "t"%char) \/ available MmapMb w ->
   forall fuel : nat, spinning (run_program fuel argv w)).
Proof.
  intros Hvalid Hidx Hneg.
  pose proof (main_never_returns argv idx w Hvalid Hidx Hneg) as Hnever.
  split; [exact Hnever |].
  intros Hsafe fuel. apply spinning_intro.
  - destruct Hsafe as [[Hlen Hmode] | Hav].
    + exact (run_program_safe_time fuel argv w Hlen Hmode).
    + exact (run_program_safe_device fuel argv w Hav).
  - intros a w'. apply Hnever.
Qed.

(** X14 at work: [-3] as the number of iterations. *)
Lemma negative_count_never_exits_witness :
  never_returns (fun fuel => run_program fuel ["callbench"; "t"; "10"; "-3"]%string)
                world0 /\
  (((2 <= List.length ["callbench"; "t"; "10"; "-3"]%string)%nat /\
    mode_of ["callbench"; "t"; "10"; "-3"]%string = "t"%char) \/
   available MmapMb world0 ->
   forall fuel : nat,
     spinning (run_program fuel ["callbench"; "t"; "10"; "-3"]%string world0)).
Proof.
  apply (negative_count_never_exits ["callbench"; "t"; "10"; "-3"]%string 3 world0).
  - right. left. reflexivity.
  - lia.
  - reflexivity.
Defined.

(** X15: with counts that are not read as negative the program returns
    status 0 having written to standard output exactly: in mode [t] the
    heading [clock_gettime: ], one marker per repetition of each of the two
    runs, and the two lines [syscall] and [implicit]; in mode [f], where the
    device can be opened and mapped, the same under the heading
    [file read: ] with the lines [mmap] and [read]; in mode [a] or without
    arguments the first, an empty line, and the second.  Standard error
    gets nothing. *)
Theorem program_output (argv : list string) (w : World) :
  tuning_ok argv ->
  ((2 <= List.length argv)%nat -> mode_of argv = "t"%char ->
   exists (r1 r2 : Z) (w' : World),
     returns (fun fuel => run_program fuel argv) w 0 w' /\
     stdout_text (trace w')
     = (stdout_text (trace w)
          ++ time_report (Z.to_nat (get_arg (Z.of_nat (List.length argv)) argv 4 5))
               r1 r2)%string /\
     stderr_text (trace w') = stderr_text (trace w)) /\
  ((2 <= List.length argv)%nat -> mode_of argv = "f"%char -> available MmapMb w ->
   exists (r1 r2 : Z) (w' : World),
     returns (fun fuel => run_program fuel argv) w 0 w' /\
     stdout_text (trace w')
     = (stdout_text (trace w)
          ++ file_report (Z.to_nat (get_arg (Z.of_nat (List.length argv)) argv 4 5))
               r1 r2)%string /\
     stderr_text (trace w') = stderr_text (trace w)) /\
  ((List.length argv < 2)%nat \/ mode_of argv = "a"%char -> available MmapMb w ->
   exists (r1 r2 r3 r4 : Z) (w' : World),
     returns (fun fuel => run_program fuel argv) w 0 w' /\
     stdout_text (trace w')
     = (stdout_text (trace w)
          ++ time_report (Z.to_nat (get_arg (Z.of_nat (List.length argv)) argv 4 5))
               r1 r2
          ++ LF
          ++ file_report (Z.to_nat (get_arg (Z.of_nat (List.length argv)) argv 4 5))
               r3 r4)%string /\
     stderr_text (trace w') = stderr_text (trace w)).
Proof.
  intros Hok. split; [| split].
  - intros Hlen Hmode. exact (time_mode_output argv w Hok Hlen Hmode).
  - intros Hlen Hmode Hav. exact (file_mode_output argv w Hok Hlen Hmode Hav).
  - intros Hmode Hav. exact (all_mode_output argv w Hok Hmode Hav).
Qed.

(** X15 at work: [callbench a 2 2 3] on the sample world. *)
Lemma program_output_witness :
  exists (r1 r2 r3 r4 : Z) (w' : World),
    returns (fun fuel => run_program fuel ["callbench"; "a"; "2"; "2"; "3"]%string)
            world0 0 w' /\
    stdout_text (trace w')
    = (stdout_text (trace world0)
         ++ time_report
              (Z.to_nat (get_arg
                 (Z.of_nat (List.length ["callbench"; "a"; "2"; "2"; "3"]%string))
                 ["callbench"; "a"; "2"; "2"; "3"]%string 4 5)) r1 r2
         ++ LF
         ++ file_report
              (Z.to_nat (get_arg
                 (Z.of_nat (List.length ["callbench"; "a"; "2"; "2"; "3"]%string))
                 ["callbench"; "a"; "2"; "2"; "3"]%string 4 5)) r3 r4)%string /\
    stderr_text (trace w') = stderr_text (trace world0).
Proof.
  refine (proj2 (proj2 (program_output ["callbench"; "a"; "2"; "2"; "3"]%string world0 _))
            _ _).
  - intros idx Hidx.
    assert (Hc : idx = 2%nat \/ idx = 3%nat \/ idx = 4%nat) by lia.
    destruct Hc as [-> | [-> | ->]]; vm_compute; discriminate.
  - right. reflexivity.
  - repeat split.
Defined.



(** X17: where the cost of a sample does not vary (every sample of
    [calls] invocations of [op] measures the same [d], not negative), a run
    with counts from 1 to 2^32 - 1 returns exactly [d / calls], whatever
    [iters] and [reps]: on a clock that advances by one second per reading a
    clock operation is reported at [(1 + calls) / calls] seconds, the
    closing reading of the sample included. *)
Theorem run_bench_ns_steady_cost (op : bench_op) (calls iters reps d : Z) (w : World) :
  1 <= calls <= UINT_MAX -> 1 <= iters <= UINT_MAX -> 1 <= reps <= UINT_MAX ->
  steady op calls d w -> 0 <= d -> available op w ->
  exists w' : World,
    returns (fun fuel => run_bench_ns fuel (measured op) calls iters reps) w (d / calls) w'.
Proof.
  intros Hc Hi Hr Hst Hd Hav.
  destruct (run_bench_ns_steady_returns op calls iters reps d w Hc ltac:(lia) ltac:(lia)
              Hst Hav) as (w' & Hret).
  exists w'. rewrite steady_result_quotient in Hret; [exact Hret | | lia | lia | lia].
  pose proof (steady_range op calls d w Hst). lia.
Qed.

(** X17 at work: four calls of [time_implicit_mb] per sample on the
    one-second clock. *)
Lemma run_bench_ns_steady_cost_witness :
  exists w' : World,
    returns (fun fuel => run_bench_ns fuel (measured TimeImplicitMb) 4 3 2) world_steady
            (NS_PER_SEC * (1 + Z.of_nat (reads_per_call TimeImplicitMb) * 4) / 4) w'.
Proof.
  apply (run_bench_ns_steady_cost TimeImplicitMb 4 3 2).
  - unfold UINT_MAX. lia.
  - unfold UINT_MAX. lia.
  - unfold UINT_MAX. lia.
  - apply second_clock_steady. unfold UINT_MAX. lia.
  - unfold NS_PER_SEC. cbn. lia.
  - exact Logic.I.
Defined.



(** X19: the timed region of [run_bench_ns], from the reading [before] to
    the reading [after], holds the [calls] invocations of the operation and
    nothing else: no write, no flush and no pause falls inside it, and the
    sample it yields is the difference between the clock reading taken on
    entry and the reading that comes [1 + k * calls] readings later, [k]
    being the readings one invocation takes itself (1 for the clock
    operations, 0 for the file operations). *)
Theorem timed_region (op : bench_op) (calls : Z) (w : World) :
  1 <= calls <= UINT_MAX -> available op w ->
  exists w' : World,
    returns (fun fuel => timed_sample fuel (measured op) calls) w
            (sample_cost op calls w (clock_reads w)) w' /\
    invocations (trace w') = invocations (trace w) ++ repeat op (Z.to_nat calls) /\
    console (trace w') = console (trace w).
Proof.
  intros Hc Hav.
  destruct (timed_sample_summary op calls 0 0 (S (Z.to_nat calls)) Hc
              ltac:(unfold UINT_MAX; lia) ltac:(lia) w Hav)
    as (e & w' & E & Hinv & _).
  exists w'. split; [| split].
  - exists (S (Z.to_nat calls)). intros fuel Hfuel.
    rewrite (timed_sample_fuel fuel (S (Z.to_nat calls))) by lia.
    rewrite E. f_equal.
    exact (timed_sample_value _ op calls w e w' ltac:(lia) E).
  - exact Hinv.
  - exact (guards_done True (fun w0 => console (trace w0) = console (trace w))
             _ w e w' (timed_sample_silent _ op calls _) eq_refl E).
Qed.

(** X19 at work: three calls of [time_syscall_mb]. *)
Lemma timed_region_witness :
  exists w' : World,
    returns (fun fuel => timed_sample fuel (measured TimeSyscallMb) 3) world0
            (sample_cost TimeSyscallMb 3 world0 (clock_reads world0)) w' /\
    invocations (trace w')
    = invocations (trace world0) ++ repeat TimeSyscallMb (Z.to_nat 3) /\
    console (trace w') = console (trace world0).
Proof.
  apply (timed_region TimeSyscallMb 3 world0).
  - unfold UINT_MAX. lia.
  - exact Logic.I.
Defined.
